(** * Linux AI accelerator driver: handle table, fences, DMA channels

    A shallow embedding of the driver sources
    - [driver/ai_accel.c]  (handle table, fence counter, inference submit),
    - [driver/ai_ioctl.c]  (the second ioctl surface: memory accounting, wait),
    - [driver/ai_dma.c]    (scatter-gather construction, channel pool, transfers),
    followed by the properties stated about them.

    Conventions.  C integers are [Z] with the wrap-around of their type
    written out.  Kernel services whose answer the driver cannot predict
    (user copies, allocators, page pinning, the DMA engine) are inputs of the
    embedded function, grouped in an [*_env] record: one field per call site.
    Every ioctl handler returns its C return value together with the new
    device state and the new contents of the user's argument block.  The
    modules [Accel] and [Ioctl] follow the device; the kernel memory the
    allocating handlers take and give back, and the state of the user's
    block after a copy-out that faults part-way, are followed in [AccelMem]
    and [IoctlMem]. *)

From stdpp Require Import base gmap gmultiset sets list.
From Stdlib Require Import ZArith Lia.

Local Open Scope Z_scope.

(** ** Error numbers (include/uapi/asm-generic/errno-base.h, errno.h) *)

Module Errno.

Definition EIO : Z := 5.
Definition ENOMEM : Z := 12.
Definition EFAULT : Z := 14.
Definition ENODEV : Z := 19.
Definition EINVAL : Z := 22.
Definition ENOTTY : Z := 25.
Definition ENOSPC : Z := 28.
Definition ETIMEDOUT : Z := 110.
Definition EINPROGRESS : Z := 115.

End Errno.

(** ** Fixed-width integers *)

Module CInt.

Definition INT_MAX : Z := 2 ^ 31 - 1.
Definition INT_MIN : Z := - 2 ^ 31.

(** Conversion to [u32] / [u64] / [unsigned long] (LP64). *)
Definition wrap_u32 (x : Z) : Z := x mod 2 ^ 32.
Definition wrap_u64 (x : Z) : Z := x mod 2 ^ 64.

(** Conversion to [int] and to [s64]: two's complement. *)
Definition wrap_s32 (x : Z) : Z := (x + 2 ^ 31) mod 2 ^ 32 - 2 ^ 31.
Definition wrap_s64 (x : Z) : Z := (x + 2 ^ 63) mod 2 ^ 64 - 2 ^ 63.

(** Page geometry (4 KiB pages) and the page macros of the kernel. *)
Definition PAGE_SHIFT : Z := 12.
Definition PAGE_SIZE : Z := Z.shiftl 1 PAGE_SHIFT.
Definition PAGE_MASK : Z := Z.lnot (PAGE_SIZE - 1).
Definition offset_in_page (p : Z) : Z := Z.land p (PAGE_SIZE - 1).
Definition PAGE_ALIGN (x : Z) : Z := Z.land (x + (PAGE_SIZE - 1)) PAGE_MASK.
Definition DIV_ROUND_UP (n d : Z) : Z := wrap_u64 (wrap_u64 (n + d) - 1) / d.

End CInt.

(** ** The kernel IDR (lib/idr.c), as the driver uses it

    An IDR maps integer ids to non-NULL pointers.  [idr_alloc] stores the
    pointer under the smallest unused id in the requested range;
    [end <= 0] means "up to [INT_MAX]".  It fails with [-ENOSPC] when the
    range is full and with [-ENOMEM] when its node allocation fails (the
    [gfp_ok] input). *)

Module Idr.
Import Errno CInt.

Definition idr_find {A} (idr : gmap Z A) (id : Z) : option A := idr !! id.

(** The C test [!ptr] on a lookup result. *)
Definition is_null {A} (ptr : option A) : bool :=
  match ptr with
  | None => true
  | Some _ => false
  end.

Definition idr_remove {A} (idr : gmap Z A) (id : Z) : gmap Z A := delete id idr.

(** Walk upwards from [id] over occupied slots.  [fuel] bounds the walk;
    with [fuel = size idr] the walk cannot run out before a free slot
    (see [IdrFacts.first_free_is_free]). *)
Fixpoint first_free {A} (idr : gmap Z A) (id : Z) (fuel : nat) : Z :=
  match fuel with
  | O => id
  | S fuel' =>
      match idr !! id with
      | None => id
      | Some _ => first_free idr (id + 1) fuel'
      end
  end.

Definition idr_alloc {A} (idr : gmap Z A) (ptr : A) (start end_ : Z)
    (gfp_ok : bool) : Z * gmap Z A :=
  if start <? 0 then (- EINVAL, idr)
  else
    let max := if 0 <? end_ then end_ - 1 else INT_MAX in
    let id := first_free idr start (size idr) in
    if max <? id then (- ENOSPC, idr)
    else if gfp_ok then (id, <[id := ptr]> idr)
    else (- ENOMEM, idr).

End Idr.

(** ** driver/ai_accel.c *)

Module Accel.
Import Errno CInt Idr.

(** [struct ai_device_caps] (include/uapi/ai_accel.h). *)
Record ai_device_caps := {
  caps_version : Z;
  caps_hw_version : Z;
  caps_num_engines : Z;
  caps_max_batch_size : Z;
  caps_memory_size : Z;
  caps_max_alloc_size : Z;
  caps_features : Z
}.

(** [struct ai_buffer], [struct ai_model]; pointers are addresses. *)
Record ai_buffer := {
  buf_cpu_addr : Z;
  buf_dma_addr : Z;
  buf_size : Z;
  buf_flags : Z
}.

Record ai_model := {
  mdl_data : Z;
  mdl_size : Z;
  mdl_flags : Z
}.

(** [struct ai_device], without the character-device plumbing.
    [fence_counter] is an [atomic_t], i.e. a 32-bit [int];
    the two statistics are [atomic64_t]. *)
Record ai_device := {
  buffer_idr : gmap Z ai_buffer;
  model_idr : gmap Z ai_model;
  fence_counter : Z;
  caps : ai_device_caps;
  total_inferences : Z;
  total_bytes_processed : Z
}.

Definition set_buffer_idr (d : ai_device) (m : gmap Z ai_buffer) : ai_device :=
  {| buffer_idr := m; model_idr := model_idr d;
     fence_counter := fence_counter d; caps := caps d;
     total_inferences := total_inferences d;
     total_bytes_processed := total_bytes_processed d |}.

Definition set_model_idr (d : ai_device) (m : gmap Z ai_model) : ai_device :=
  {| buffer_idr := buffer_idr d; model_idr := m;
     fence_counter := fence_counter d; caps := caps d;
     total_inferences := total_inferences d;
     total_bytes_processed := total_bytes_processed d |}.

Definition DRIVER_VERSION : Z := 0x010000.
Definition AI_FEAT_FP32 : Z := Z.shiftl 1 0.
Definition AI_FEAT_FP16 : Z := Z.shiftl 1 1.
Definition AI_FEAT_INT8 : Z := Z.shiftl 1 2.
Definition AI_FEAT_BATCH : Z := Z.shiftl 1 5.

(** Device state set up by [ai_accel_init] (lines 423-438); the [int]
    module parameter [num_engines] is stored in a [__u32] field. *)
Definition ai_accel_init (simulate : bool) (num_engines : Z) : ai_device :=
  {| buffer_idr := ∅;
     model_idr := ∅;
     fence_counter := 0;
     caps := {| caps_version := DRIVER_VERSION;
                caps_hw_version := if simulate then 0 else 0x100;
                caps_num_engines := wrap_u32 num_engines;
                caps_max_batch_size := 32;
                caps_memory_size := Z.shiftl 1 30;
                caps_max_alloc_size := Z.shiftl 256 20;
                caps_features :=
                  Z.lor (Z.lor (Z.lor AI_FEAT_FP32 AI_FEAT_FP16) AI_FEAT_INT8)
                        AI_FEAT_BATCH |};
     total_inferences := 0;
     total_bytes_processed := 0 |}.

(** [struct ai_alloc_request]. *)
Record ai_alloc_request := {
  alloc_size : Z;
  alloc_flags : Z;
  alloc_handle : Z;
  alloc_dma_addr : Z
}.

(** What the kernel answers during one [ai_ioctl_alloc]:
    both user copies, [kzalloc], the backing memory ([vzalloc] in
    simulation, [dma_alloc_coherent] otherwise; address 0 is NULL, and
    [ae_dma_handle] is the bus address the latter reports), and the node
    allocation inside [idr_alloc]. *)
Record alloc_env := {
  ae_copy_from_user_ok : bool;
  ae_kzalloc_ok : bool;
  ae_cpu_addr : Z;
  ae_dma_handle : Z;
  ae_idr_gfp_ok : bool;
  ae_copy_to_user_ok : bool
}.

(** Lines 133-197.  Result: return value, device, user argument block. *)
Definition ai_ioctl_alloc (simulate : bool) (dev : ai_device)
    (arg : ai_alloc_request) (env : alloc_env)
    : Z * ai_device * ai_alloc_request :=
  if negb (ae_copy_from_user_ok env) then (- EFAULT, dev, arg)
  else
    let req := arg in
    if (alloc_size req =? 0) || (caps_max_alloc_size (caps dev) <? alloc_size req)
    then (- EINVAL, dev, arg)
    else if negb (ae_kzalloc_ok env) then (- ENOMEM, dev, arg)
    else
      let buf := {| buf_cpu_addr := ae_cpu_addr env;
                    buf_dma_addr := if simulate then ae_cpu_addr env
                                    else ae_dma_handle env;
                    buf_size := alloc_size req;
                    buf_flags := alloc_flags req |} in
      if buf_cpu_addr buf =? 0 then (- ENOMEM, dev, arg)
      else
        let '(handle, idr') :=
          idr_alloc (buffer_idr dev) buf 1 0 (ae_idr_gfp_ok env) in
        if handle <? 0 then (handle, dev, arg)
        else
          let req' := {| alloc_size := alloc_size req;
                         alloc_flags := alloc_flags req;
                         alloc_handle := wrap_u64 handle;
                         alloc_dma_addr := buf_dma_addr buf |} in
          if negb (ae_copy_to_user_ok env)
          then (- EFAULT, set_buffer_idr dev (idr_remove idr' handle), arg)
          else (0, set_buffer_idr dev idr', req').

(** Lines 199-225; [struct ai_free_request] is the bare handle. *)
Definition ai_ioctl_free (dev : ai_device) (req_handle : Z)
    (copy_from_user_ok : bool) : Z * ai_device :=
  if negb copy_from_user_ok then (- EFAULT, dev)
  else
    match idr_find (buffer_idr dev) req_handle with
    | Some buf => (0, set_buffer_idr dev (idr_remove (buffer_idr dev) req_handle))
    | None => (- EINVAL, dev)
    end.

(** [struct ai_load_model_request]. *)
Record ai_load_model_request := {
  lm_model_data : Z;
  lm_model_size : Z;
  lm_flags : Z;
  lm_model_handle : Z
}.

(** Kernel answers during one [ai_ioctl_load_model]; [le_copy_data_ok] is
    the copy of the model bytes themselves. *)
Record load_env := {
  le_copy_from_user_ok : bool;
  le_kzalloc_ok : bool;
  le_vmalloc_addr : Z;
  le_copy_data_ok : bool;
  le_idr_gfp_ok : bool;
  le_copy_to_user_ok : bool
}.

(** Lines 227-281. *)
Definition ai_ioctl_load_model (dev : ai_device)
    (arg : ai_load_model_request) (env : load_env)
    : Z * ai_device * ai_load_model_request :=
  if negb (le_copy_from_user_ok env) then (- EFAULT, dev, arg)
  else
    let req := arg in
    if (lm_model_size req =? 0)
       || (caps_max_alloc_size (caps dev) <? lm_model_size req)
    then (- EINVAL, dev, arg)
    else if negb (le_kzalloc_ok env) then (- ENOMEM, dev, arg)
    else
      let model := {| mdl_data := le_vmalloc_addr env;
                      mdl_size := lm_model_size req;
                      mdl_flags := lm_flags req |} in
      if mdl_data model =? 0 then (- ENOMEM, dev, arg)
      else if negb (le_copy_data_ok env) then (- EFAULT, dev, arg)
      else
        let '(handle, idr') :=
          idr_alloc (model_idr dev) model 1 0 (le_idr_gfp_ok env) in
        if handle <? 0 then (handle, dev, arg)
        else
          let req' := {| lm_model_data := lm_model_data req;
                         lm_model_size := lm_model_size req;
                         lm_flags := lm_flags req;
                         lm_model_handle := wrap_u64 handle |} in
          if negb (le_copy_to_user_ok env)
          then (- EFAULT, set_model_idr dev (idr_remove idr' handle), arg)
          else (0, set_model_idr dev idr', req').

(** [struct ai_inference_request]. *)
Record ai_inference_request := {
  inf_model_handle : Z;
  inf_input_handle : Z;
  inf_output_handle : Z;
  inf_input_size : Z;
  inf_output_size : Z;
  inf_flags : Z;
  inf_priority : Z;
  inf_user_data : Z;
  inf_fence : Z
}.

Definition set_inf_fence (r : ai_inference_request) (f : Z)
    : ai_inference_request :=
  {| inf_model_handle := inf_model_handle r;
     inf_input_handle := inf_input_handle r;
     inf_output_handle := inf_output_handle r;
     inf_input_size := inf_input_size r;
     inf_output_size := inf_output_size r;
     inf_flags := inf_flags r;
     inf_priority := inf_priority r;
     inf_user_data := inf_user_data r;
     inf_fence := f |}.

(** [atomic_inc_return] on an [atomic_t]: 32-bit, wrapping. *)
Definition atomic_inc_return (v : Z) : Z := wrap_s32 (v + 1).

(** Lines 283-332.  The two booleans are the user copies in and out.
    [fence] is a [u64] assigned from the [int] counter (sign extension);
    the byte count is added as an [unsigned int] sum. *)
Definition ai_ioctl_submit (dev : ai_device) (arg : ai_inference_request)
    (copy_from_user_ok copy_to_user_ok : bool)
    : Z * ai_device * ai_inference_request :=
  if negb copy_from_user_ok then (- EFAULT, dev, arg)
  else
    let req := arg in
    if is_null (idr_find (model_idr dev) (inf_model_handle req))
       || is_null (idr_find (buffer_idr dev) (inf_input_handle req))
       || is_null (idr_find (buffer_idr dev) (inf_output_handle req))
    then (- EINVAL, dev, arg)
    else
      let counter := atomic_inc_return (fence_counter dev) in
      let fence := wrap_u64 counter in
      let dev' :=
        {| buffer_idr := buffer_idr dev;
           model_idr := model_idr dev;
           fence_counter := counter;
           caps := caps dev;
           total_inferences := wrap_s64 (total_inferences dev + 1);
           total_bytes_processed :=
             wrap_s64 (total_bytes_processed dev
                       + wrap_u32 (inf_input_size req + inf_output_size req)) |} in
      if negb copy_to_user_ok then (- EFAULT, dev', arg)
      else (0, dev', set_inf_fence req fence).

(** *** A caller's view of the buffer namespace

    A caller issues allocate and free requests and keeps the handles it was
    given: a handle enters [held] when [ai_ioctl_alloc] returns 0 and leaves
    it (one occurrence) when [ai_ioctl_free] of that handle returns 0. *)

Inductive buf_op :=
  | OpAlloc (arg : ai_alloc_request) (env : alloc_env)
  | OpFree (handle : Z) (copy_from_user_ok : bool).

Fixpoint drop_handle (h : Z) (held : list Z) : list Z :=
  match held with
  | [] => []
  | x :: rest => if x =? h then rest else x :: drop_handle h rest
  end.

Definition client_step (simulate : bool) (st : ai_device * list Z)
    (op : buf_op) : ai_device * list Z :=
  match op with
  | OpAlloc arg env =>
      let '(ret, dev', arg') := ai_ioctl_alloc simulate st.1 arg env in
      (dev', if ret =? 0 then alloc_handle arg' :: st.2 else st.2)
  | OpFree h ok =>
      let '(ret, dev') := ai_ioctl_free st.1 h ok in
      (dev', if ret =? 0 then drop_handle h st.2 else st.2)
  end.

Definition client_run (simulate : bool) (ops : list buf_op)
    (st : ai_device * list Z) : ai_device * list Z :=
  fold_left (client_step simulate) ops st.

(** The invariant of a caller's run: the handles it holds are pairwise
    distinct and are exactly the ids present in the buffer table. *)
Definition held_is_live (st : ai_device * list Z) : Prop :=
  NoDup st.2 ∧ ∀ h, h ∈ st.2 ↔ is_Some (buffer_idr st.1 !! h).

(** The two operations that issue handles, and the handle a call issues
    ([None] when the call fails). *)
Inductive issue_op :=
  | IssueBuffer (arg : ai_alloc_request) (env : alloc_env)
  | IssueModel (arg : ai_load_model_request) (env : load_env).

Definition issued_handle (simulate : bool) (dev : ai_device) (op : issue_op)
    : option Z :=
  match op with
  | IssueBuffer arg env =>
      let '(ret, _, arg') := ai_ioctl_alloc simulate dev arg env in
      if ret =? 0 then Some (alloc_handle arg') else None
  | IssueModel arg env =>
      let '(ret, _, arg') := ai_ioctl_load_model dev arg env in
      if ret =? 0 then Some (lm_model_handle arg') else None
  end.

(** All three handles of a request name live resources. *)
Definition handles_resolve (dev : ai_device) (req : ai_inference_request)
    : Prop :=
  is_Some (model_idr dev !! inf_model_handle req)
  ∧ is_Some (buffer_idr dev !! inf_input_handle req)
  ∧ is_Some (buffer_idr dev !! inf_output_handle req).

(** *** Repeated submission

    [after_submits n dev req] is the device after [n] submissions of [req]
    whose user copies all succeed; [nth_fence n dev req] is what the next
    submission then reports: its return value and the fence written back. *)

Definition after_submit (req : ai_inference_request) (dev : ai_device)
    : ai_device :=
  (ai_ioctl_submit dev req true true).1.2.

Definition after_submits (n : N) (dev : ai_device)
    (req : ai_inference_request) : ai_device :=
  N.iter n (after_submit req) dev.

Definition nth_fence (n : N) (dev : ai_device) (req : ai_inference_request)
    : Z * Z :=
  let '(ret, _, out) := ai_ioctl_submit (after_submits n dev req) req true true in
  (ret, inf_fence out).

End Accel.

(** ** driver/ai_ioctl.c

    [struct ai_accel_device], [struct ai_accel_mem_alloc],
    [struct ai_accel_mem_free] and [struct ai_accel_wait] are declared in a
    header that is not part of the sources.  The records below carry the
    fields the handlers (and userspace/libaidrv.c, which fills
    [.handle] and [.size] of a free request) access; the part of a wait
    request the handler never reads is the type parameter [R]. *)

Module Ioctl.
Import Errno CInt.

Record ai_accel_device := {
  mem_size : Z;
  mem_used : Z
}.

Record ai_accel_mem_alloc := {
  ma_size : Z;
  ma_handle : Z
}.

Record ai_accel_mem_free := {
  mf_handle : Z;
  mf_size : Z
}.

Record ai_accel_wait (R : Type) := {
  wait_request : R;
  wait_status : Z;
  wait_result : Z
}.
Arguments wait_request {R} _.
Arguments wait_status {R} _.
Arguments wait_result {R} _.

Definition AI_STATUS_SUCCESS : Z := 0.

(** Kernel answers during [ai_ioctl_alloc_memory]: the user copies and
    [dma_alloc_coherent] (address 0 is NULL). *)
Record mem_alloc_env := {
  mae_copy_from_user_ok : bool;
  mae_mem : Z;
  mae_dma_handle : Z;
  mae_copy_to_user_ok : bool
}.

(** Lines 70-108. *)
Definition ai_ioctl_alloc_memory (adev : ai_accel_device)
    (arg : ai_accel_mem_alloc) (env : mem_alloc_env)
    : Z * ai_accel_device * ai_accel_mem_alloc :=
  if negb (mae_copy_from_user_ok env) then (- EFAULT, adev, arg)
  else if (ma_size arg =? 0) || (64 * 1024 * 1024 <? ma_size arg)
  then (- EINVAL, adev, arg)
  else
    let size := PAGE_ALIGN (ma_size arg) in
    if mem_size adev <? mem_used adev + size then (- ENOMEM, adev, arg)
    else if mae_mem env =? 0 then (- ENOMEM, adev, arg)
    else
      let alloc := {| ma_size := size; ma_handle := wrap_u64 (mae_dma_handle env) |} in
      let adev' := {| mem_size := mem_size adev;
                      mem_used := mem_used adev + size |} in
      if negb (mae_copy_to_user_ok env)
      then (- EFAULT,
            {| mem_size := mem_size adev'; mem_used := mem_used adev' - size |},
            arg)
      else (0, adev', alloc).

(** Lines 115-129. *)
Definition ai_ioctl_free_memory (adev : ai_accel_device)
    (mfree : ai_accel_mem_free) (copy_from_user_ok : bool)
    : Z * ai_accel_device :=
  if negb copy_from_user_ok then (- EFAULT, adev)
  else
    (0,
     if mf_size mfree <=? mem_used adev
     then {| mem_size := mem_size adev;
             mem_used := mem_used adev - mf_size mfree |}
     else adev).

(** Lines 253-269.  The per-call context holds no job or fence table. *)
Definition ai_ioctl_wait_completion {R} (arg : ai_accel_wait R)
    (copy_from_user_ok copy_to_user_ok : bool) : Z * ai_accel_wait R :=
  if negb copy_from_user_ok then (- EFAULT, arg)
  else
    let wait := {| wait_request := wait_request arg;
                   wait_status := AI_STATUS_SUCCESS;
                   wait_result := 0 |} in
    if negb copy_to_user_ok then (- EFAULT, arg)
    else (0, wait).

End Ioctl.

(** ** driver/ai_dma.c *)

Module Dma.
Import Errno CInt.

(** *** Kernel memory as the mapping routine sees it

    [live] are the outstanding allocations (by address), [pinned] the pinned
    user pages (by page number, with multiplicity: a page pinned twice must
    be unpinned twice). *)
Record kmem := {
  live : gset N;
  pinned : gmultiset Z
}.

(** Computations over [kmem]. *)
Definition K (A : Type) : Type := kmem → A * kmem.

Definition kret {A} (a : A) : K A := λ k, (a, k).

Definition kbind {A B} (m : K A) (f : A → K B) : K B :=
  λ k, let '(a, k') := m k in f a k'.

Declare Scope kmem_scope.
Delimit Scope kmem_scope with kmem.
Notation "'do' x <- m ; f" := (kbind m (λ x, f))
  (at level 10, x name, m at level 100, f at level 200) : kmem_scope.
Notation "m ;; f" := (kbind m (λ _, f))
  (at level 100, f at level 200, right associativity) : kmem_scope.

(** [kzalloc] / [kvmalloc_array]: NULL ([None]) when the allocator refuses,
    otherwise an address that is not live. *)
Definition kalloc (ok : bool) : K (option N) :=
  λ k, if ok
       then let p := fresh (live k) in
            (Some p, {| live := {[ p ]} ∪ live k; pinned := pinned k |})
       else (None, k).

(** [kfree] / [kvfree]. *)
Definition kfree (p : N) : K unit :=
  λ k, (tt, {| live := live k ∖ {[ p ]}; pinned := pinned k |}).

(** [pin_user_pages_fast(start, nr_pages, _, pages)]: a negative answer is an
    error with nothing pinned; otherwise the first [ret <= nr_pages] pages
    from [start] are pinned and stored in [pages]. *)
Definition pin_user_pages_fast (start nr_pages answer : Z) : K (Z * list Z) :=
  λ k, if answer <? 0 then ((answer, []), k)
       else
         let ret := Z.min answer (Z.max nr_pages 0) in
         let pages := (λ j, start / PAGE_SIZE + j) <$> seqZ 0 ret in
         ((ret, pages),
          {| live := live k; pinned := pinned k ⊎ list_to_set_disj pages |}).

(** [unpin_user_pages(pages, npages)]. *)
Definition unpin_user_pages (pages : list Z) (npages : Z) : K unit :=
  λ k, (tt, {| live := live k;
               pinned := pinned k ∖ list_to_set_disj (take (Z.to_nat npages) pages) |}).

(** *** Buffers and scatter-gather lists *)

Inductive dma_data_direction :=
  | DMA_BIDIRECTIONAL
  | DMA_TO_DEVICE
  | DMA_FROM_DEVICE
  | DMA_NONE.

(** One [struct scatterlist] entry as set by [sg_set_page]. *)
Record scatterlist := {
  sg_page : Z;
  sg_offset : Z;
  sg_length : Z
}.

(** [struct ai_dma_buffer]; [dbuf_self] and [dbuf_sg_ptr] are the addresses
    of the descriptor and of its [sg] array. *)
Record ai_dma_buffer := {
  dbuf_self : N;
  dbuf_size : Z;
  dbuf_dir : dma_data_direction;
  dbuf_sg_ptr : N;
  dbuf_sg : list scatterlist;
  dbuf_sg_count : Z;
  dbuf_mapped : bool
}.

(** Line 178: [int nr_pages = DIV_ROUND_UP(size + offset_in_page(user_addr),
    PAGE_SIZE)], computed in [unsigned long] and stored in an [int]. *)
Definition nr_pages_of (user_addr size : Z) : Z :=
  wrap_s32 (DIV_ROUND_UP (wrap_u64 (size + offset_in_page user_addr)) PAGE_SIZE).

(** Lines 216-220, the body of the fill loop for index [i]. *)
Definition sg_entry (user_addr size i page : Z) : scatterlist :=
  let offset := wrap_u32 (if i =? 0 then offset_in_page user_addr else 0) in
  let len :=
    wrap_u32
      (Z.min (wrap_u64 (PAGE_SIZE - offset))
             (wrap_u64 (size - wrap_u64 (wrap_u64 (i * PAGE_SIZE)
                                         - offset_in_page user_addr)))) in
  {| sg_page := page; sg_offset := offset; sg_length := len |}.

(** Lines 215-221: [for (i = 0; i < nr_pages; i++)] over [pages[i]]. *)
Fixpoint fill_sg (user_addr size i : Z) (pages : list Z) : list scatterlist :=
  match pages with
  | [] => []
  | page :: rest =>
      sg_entry user_addr size i page :: fill_sg user_addr size (i + 1) rest
  end.

Definition sg_total (sg : list scatterlist) : Z :=
  foldr (λ e acc, sg_length e + acc) 0 sg.

(** Kernel answers during one [ai_dma_map_user_buffer]: the three
    allocations, the pin call and [dma_map_sg] (number of mapped entries,
    0 on failure). *)
Record map_env := {
  me_kzalloc_ok : bool;
  me_pages_ok : bool;
  me_pin_answer : Z;
  me_sg_ok : bool;
  me_map_sg : Z
}.

Local Open Scope kmem_scope.

(** Lines 163-239.  [inl e] is [ERR_PTR(e)]. *)
Definition ai_dma_map_user_buffer (user_addr size : Z)
    (dir : dma_data_direction) (env : map_env) : K (Z + ai_dma_buffer) :=
  do obuf <- kalloc (me_kzalloc_ok env);
  match obuf with
  | None => kret (inl (- ENOMEM))
  | Some buf =>
      let nr_pages := nr_pages_of user_addr size in
      do opages <- kalloc (me_pages_ok env);
      match opages with
      | None => kfree buf;; kret (inl (- ENOMEM))
      | Some pages_ptr =>
          do pin <- pin_user_pages_fast user_addr nr_pages (me_pin_answer env);
          let '(ret, pages) := pin in
          if ret <? 0 then
            kfree pages_ptr;; kfree buf;; kret (inl ret)
          else if negb (ret =? nr_pages) then
            unpin_user_pages pages ret;;
            kfree pages_ptr;; kfree buf;; kret (inl (- EFAULT))
          else
            do osg <- kalloc (me_sg_ok env);
            match osg with
            | None =>
                unpin_user_pages pages nr_pages;;
                kfree pages_ptr;; kfree buf;; kret (inl (- ENOMEM))
            | Some sg_ptr =>
                let sg := fill_sg user_addr size 0
                                  (take (Z.to_nat nr_pages) pages) in
                let sg_count := me_map_sg env in
                if sg_count =? 0 then
                  unpin_user_pages pages nr_pages;;
                  kfree sg_ptr;; kfree pages_ptr;; kfree buf;;
                  kret (inl (- EIO))
                else
                  kfree pages_ptr;;
                  kret (inr {| dbuf_self := buf;
                               dbuf_size := size;
                               dbuf_dir := dir;
                               dbuf_sg_ptr := sg_ptr;
                               dbuf_sg := sg;
                               dbuf_sg_count := sg_count;
                               dbuf_mapped := true |})
            end
      end
  end.

Local Close Scope kmem_scope.

(** *** The channel pool

    [dma_channels] has [AI_DMA_CHANNELS] slots ([None] is NULL);
    [channel_bitmap] is the [unsigned long] bitmap.  [in_flight] is the DMA
    engine's side: the descriptors (channel index, cookie) issued and not yet
    completed or terminated. *)

Definition AI_DMA_CHANNELS : nat := 4.

Record dma_pool := {
  dma_channels : list (option Z);
  channel_bitmap : Z;
  in_flight : list (nat * Z)
}.

Definition set_bit (nr : nat) (addr : Z) : Z := Z.lor addr (Z.shiftl 1 (Z.of_nat nr)).
Definition test_bit (nr : nat) (addr : Z) : bool := Z.testbit addr (Z.of_nat nr).

(** Lines 51-80.  [granted] lists what [dma_request_channel] returned for
    slots 0..3. *)
Definition ai_dma_init (granted : list (option Z)) : Z * dma_pool :=
  let chans := (λ i, default None (granted !! i)) <$> seq 0 AI_DMA_CHANNELS in
  let bitmap :=
    foldl (λ bm i, match default None (granted !! i) with
                   | None => bm
                   | Some _ => set_bit i bm
                   end) 0 (seq 0 AI_DMA_CHANNELS) in
  (if bitmap =? 0 then - ENODEV else 0,
   {| dma_channels := chans; channel_bitmap := bitmap; in_flight := [] |}).

(** Lines 273-281 (and 344-352): first index whose bit is set and whose
    channel pointer is non-NULL. *)
Fixpoint find_channel_from (p : dma_pool) (i n : nat) : option (nat * Z) :=
  match n with
  | O => None
  | S n' =>
      match test_bit i (channel_bitmap p), dma_channels p !! i with
      | true, Some (Some chan) => Some (i, chan)
      | _, _ => find_channel_from p (S i) n'
      end
  end.

Definition find_channel (p : dma_pool) : option (nat * Z) :=
  find_channel_from p 0 AI_DMA_CHANNELS.

(** Slot [i] passes the test of the search loop. *)
Definition channel_usable (p : dma_pool) (i : nat) : Prop :=
  test_bit i (channel_bitmap p) = true ∧ is_Some (mjoin (dma_channels p !! i)).

#[global] Instance channel_usable_dec p i : Decision (channel_usable p i).
Proof. unfold channel_usable. apply _. Defined.

(** The slots a search can return: the pool's free channels. *)
Definition free_channels (p : dma_pool) : list nat :=
  filter (channel_usable p) (seq 0 AI_DMA_CHANNELS).

(** DMA engine steps. *)
Definition issue (i : nat) (cookie : Z) (p : dma_pool) : dma_pool :=
  {| dma_channels := dma_channels p; channel_bitmap := channel_bitmap p;
     in_flight := in_flight p ++ [(i, cookie)] |}.

Definition complete_one (i : nat) (cookie : Z) (p : dma_pool) : dma_pool :=
  {| dma_channels := dma_channels p; channel_bitmap := channel_bitmap p;
     in_flight := filter (λ d, d ≠ (i, cookie)) (in_flight p) |}.

(** [dmaengine_terminate_sync(chan)]: every descriptor of the channel is
    aborted. *)
Definition dmaengine_terminate_sync (i : nat) (p : dma_pool) : dma_pool :=
  {| dma_channels := dma_channels p; channel_bitmap := channel_bitmap p;
     in_flight := filter (λ d, d.1 ≠ i) (in_flight p) |}.

Definition dma_submit_error (cookie : Z) : Z := if cookie <? 0 then cookie else 0.

(** Engine answers during one synchronous transfer: whether
    [dmaengine_prep_dma_memcpy] returned a descriptor, the cookie of
    [dmaengine_submit], and whether the completion callback ran before the
    timeout ([wait_for_completion_timeout] returned non-zero). *)
Record sync_env := {
  se_prep_ok : bool;
  se_cookie : Z;
  se_completed : bool
}.

(** Lines 262-320. *)
Definition ai_dma_transfer_sync (p : dma_pool) (env : sync_env) : Z * dma_pool :=
  match find_channel p with
  | None => (- ENODEV, p)
  | Some (i, chan) =>
      if negb (se_prep_ok env) then (- ENOMEM, p)
      else
        let ret := dma_submit_error (se_cookie env) in
        if negb (ret =? 0) then (ret, p)
        else
          let p1 := issue i (se_cookie env) p in
          if se_completed env
          then (0, complete_one i (se_cookie env) p1)
          else (- ETIMEDOUT, dmaengine_terminate_sync i p1)
  end.

(** Lines 334-370.  Returns the cookie (negative on error). *)
Definition ai_dma_transfer_async (p : dma_pool) (prep_ok : bool) (cookie : Z)
    : Z * dma_pool :=
  match find_channel p with
  | None => (- ENODEV, p)
  | Some (i, chan) =>
      if negb prep_ok then (- ENOMEM, p)
      else if dma_submit_error cookie =? 0
           then (cookie, issue i cookie p)
           else (cookie, p)
  end.

End Dma.

(** ** driver/ai_accel.c: well-formed requests and the table invariant *)

Module AccelInv.
Import CInt Accel.

(** The size field of an allocation request is a [__u64]. *)
Definition op_wf (op : buf_op) : Prop :=
  match op with
  | OpAlloc arg _ => 0 <= alloc_size arg < 2 ^ 64
  | OpFree _ _ => True
  end.

(** What every entry of the buffer table satisfies. *)
Definition buffer_table_ok (simulate : bool) (dev : ai_device) : Prop :=
  ∀ h buf, buffer_idr dev !! h = Some buf →
    1 <= h <= INT_MAX
    ∧ 1 <= buf_size buf <= caps_max_alloc_size (caps dev)
    ∧ buf_cpu_addr buf ≠ 0
    ∧ (simulate = true → buf_dma_addr buf = buf_cpu_addr buf).

End AccelInv.

(** ** driver/ai_accel.c: the ioctl dispatcher *)

Module AccelDispatch.
Import Errno CInt Accel.

(** Command encoding of include/uapi/asm-generic/ioctl.h: 8 bits number,
    8 bits type, 14 bits size, 2 bits direction. *)
Definition _IOC_WRITE : Z := 1.
Definition _IOC_READ : Z := 2.

Definition _IOC (dir type nr size : Z) : Z :=
  Z.lor (Z.lor (Z.lor (Z.shiftl dir 30) (Z.shiftl type 8)) (Z.shiftl nr 0))
        (Z.shiftl size 16).

Definition _IOR (type nr size : Z) : Z := _IOC _IOC_READ type nr size.
Definition _IOW (type nr size : Z) : Z := _IOC _IOC_WRITE type nr size.
Definition _IOWR (type nr size : Z) : Z :=
  _IOC (Z.lor _IOC_READ _IOC_WRITE) type nr size.

Definition _IOC_DIR (cmd : Z) : Z := Z.land (Z.shiftr cmd 30) 3.
Definition _IOC_TYPE (cmd : Z) : Z := Z.land (Z.shiftr cmd 8) 0xFF.
Definition _IOC_NR (cmd : Z) : Z := Z.land (Z.shiftr cmd 0) 0xFF.

(** include/uapi/ai_accel.h; the last argument is [sizeof] of the request
    structure (LP64 layout). *)
Definition AI_IOC_MAGIC : Z := 65.
Definition AI_IOC_GET_CAPS : Z := _IOR AI_IOC_MAGIC 0 56.
Definition AI_IOC_ALLOC : Z := _IOWR AI_IOC_MAGIC 1 32.
Definition AI_IOC_FREE : Z := _IOW AI_IOC_MAGIC 2 8.
Definition AI_IOC_LOAD_MODEL : Z := _IOWR AI_IOC_MAGIC 3 32.
Definition AI_IOC_UNLOAD_MODEL : Z := _IOW AI_IOC_MAGIC 4 8.
Definition AI_IOC_SUBMIT : Z := _IOWR AI_IOC_MAGIC 5 56.
Definition AI_IOC_WAIT : Z := _IOWR AI_IOC_MAGIC 6 24.
Definition AI_IOC_GET_PROFILE : Z := _IOWR AI_IOC_MAGIC 7 72.
Definition AI_IOC_MAXNR : Z := 7.

(** The commands [ai_ioctl] has a case for. *)
Definition handled_commands : list Z :=
  [AI_IOC_GET_CAPS; AI_IOC_ALLOC; AI_IOC_FREE; AI_IOC_LOAD_MODEL;
   AI_IOC_SUBMIT].

(** The user block at [arg], read as each of the request structures. *)
Record ioctl_arg := {
  ua_alloc : ai_alloc_request;
  ua_free : Z;
  ua_load : ai_load_model_request;
  ua_submit : ai_inference_request
}.

(** Kernel answers for whichever handler runs. *)
Record ioctl_env := {
  ie_caps_copy_ok : bool;
  ie_alloc : alloc_env;
  ie_free_copy_ok : bool;
  ie_load : load_env;
  ie_submit_in_ok : bool;
  ie_submit_out_ok : bool
}.

(** What the call wrote to the user block. *)
Inductive ioctl_out :=
  | OutNothing
  | OutCaps (c : ai_device_caps)
  | OutAlloc (r : ai_alloc_request)
  | OutLoad (r : ai_load_model_request)
  | OutSubmit (r : ai_inference_request).

(** Lines 126-131. *)
Definition ai_ioctl_get_caps (dev : ai_device) (copy_to_user_ok : bool)
    : Z * ioctl_out :=
  if negb copy_to_user_ok then (- EFAULT, OutNothing)
  else (0, OutCaps (caps dev)).

(** Lines 334-358. *)
Definition ai_ioctl (simulate : bool) (dev : ai_device) (cmd : Z)
    (ua : ioctl_arg) (env : ioctl_env) : Z * ai_device * ioctl_out :=
  if negb (_IOC_TYPE cmd =? AI_IOC_MAGIC) then (- ENOTTY, dev, OutNothing)
  else if AI_IOC_MAXNR <? _IOC_NR cmd then (- ENOTTY, dev, OutNothing)
  else if cmd =? AI_IOC_GET_CAPS then
    let '(ret, out) := ai_ioctl_get_caps dev (ie_caps_copy_ok env) in
    (ret, dev, out)
  else if cmd =? AI_IOC_ALLOC then
    let '(ret, dev', r) := ai_ioctl_alloc simulate dev (ua_alloc ua) (ie_alloc env) in
    (ret, dev', OutAlloc r)
  else if cmd =? AI_IOC_FREE then
    let '(ret, dev') := ai_ioctl_free dev (ua_free ua) (ie_free_copy_ok env) in
    (ret, dev', OutNothing)
  else if cmd =? AI_IOC_LOAD_MODEL then
    let '(ret, dev', r) := ai_ioctl_load_model dev (ua_load ua) (ie_load env) in
    (ret, dev', OutLoad r)
  else if cmd =? AI_IOC_SUBMIT then
    let '(ret, dev', r) :=
      ai_ioctl_submit dev (ua_submit ua) (ie_submit_in_ok env)
                      (ie_submit_out_ok env) in
    (ret, dev', OutSubmit r)
  else (- ENOTTY, dev, OutNothing).

(** A session: the device after a list of ioctl calls. *)
Definition ioctl_run (simulate : bool) (calls : list (Z * ioctl_arg * ioctl_env))
    (dev : ai_device) : ai_device :=
  fold_left (λ d c, (ai_ioctl simulate d c.1.1 c.1.2 c.2).1.2) calls dev.

End AccelDispatch.

(** ** driver/ai_ioctl.c: the remaining handlers and the dispatcher

    As for the records of [Ioctl], [struct ai_accel_inference],
    [struct ai_accel_stats], the [AI_ACCEL_IOC_*] command constants and
    [AI_POWER_MODE_MAX] are declared in a header that is not part of the
    sources.  The records carry the fields the handlers access; the power
    limit is an argument; a command is given by the [case] label of
    [ai_accel_ioctl] it matches. *)

Module IoctlMore.
Import Errno CInt Ioctl.

(** The counters of [struct ai_ioctl_context] (both [u64]). *)
Record ai_ioctl_context := {
  ctx_total_inferences : Z;
  ctx_total_bytes_transferred : Z
}.

Record ai_accel_inference := {
  aif_input_data : Z;
  aif_output_data : Z;
  aif_input_size : Z;
  aif_output_size : Z;
  aif_batch_size : Z;
  aif_latency_ns : Z;
  aif_status : Z
}.

(** Kernel answers during [ai_ioctl_submit_inference]: the copy of the
    request, the two [kvmalloc] calls (the output buffer comes with whatever
    bytes the allocator's memory held, [None] is NULL), the copy of the
    input bytes from user space ([None]: fault), the two clock readings, and
    the two copies back.  For the output bytes the answer is the return
    value of [copy_to_user], the number of bytes it could not write; for the
    result structure it is whether the copy went through and, if it did not,
    the user's block as the faulting copy left it (some bytes of the new
    contents over the old ones). *)
Record infer_env := {
  ne_copy_from_user_ok : bool;
  ne_input_alloc_ok : bool;
  ne_output_alloc : option (list Z);
  ne_user_input : option (list Z);
  ne_t0 : Z;
  ne_t1 : Z;
  ne_copy_output_left : Z;
  ne_copy_result_ok : bool;
  ne_result_fault : ai_accel_inference
}.

(** [copy_to_user(to, from, n)] writes front to back and returns the number
    of bytes it could not write ([left]): what has reached user memory is
    the part of [from] before them. *)
Definition copy_to_user (from : list Z) (left : Z) : list Z :=
  take (length from - Z.to_nat left) from.

(** [memcpy(dst, src, n)] on byte lists. *)
Definition memcpy (dst src : list Z) (n : Z) : list Z :=
  take (Z.to_nat n) src ++ drop (Z.to_nat n) dst.

Definition MAX_IO_SIZE : Z := 16 * 1024 * 1024.

(** Lines 136-200.  Result: return value, context, request block, and the
    bytes that reached the caller's output buffer ([None] when the output
    copy was not attempted). *)
Definition ai_ioctl_submit_inference (ctx : ai_ioctl_context)
    (arg : ai_accel_inference) (env : infer_env)
    : Z * ai_ioctl_context * ai_accel_inference * option (list Z) :=
  if negb (ne_copy_from_user_ok env) then (- EFAULT, ctx, arg, None)
  else
    let inf := arg in
    if (aif_input_size inf =? 0) || (MAX_IO_SIZE <? aif_input_size inf)
    then (- EINVAL, ctx, arg, None)
    else if (aif_output_size inf =? 0) || (MAX_IO_SIZE <? aif_output_size inf)
    then (- EINVAL, ctx, arg, None)
    else if (aif_batch_size inf =? 0) || (64 <? aif_batch_size inf)
    then (- EINVAL, ctx, arg, None)
    else if negb (ne_input_alloc_ok env) then (- ENOMEM, ctx, arg, None)
    else
      match ne_output_alloc env with
      | None => (- ENOMEM, ctx, arg, None)
      | Some output_stale =>
          match ne_user_input env with
          | None => (- EFAULT, ctx, arg, None)
          | Some input_data =>
              let output_data :=
                memcpy output_stale input_data
                       (Z.min (aif_input_size inf) (aif_output_size inf)) in
              let inf' :=
                {| aif_input_data := aif_input_data inf;
                   aif_output_data := aif_output_data inf;
                   aif_input_size := aif_input_size inf;
                   aif_output_size := aif_output_size inf;
                   aif_batch_size := aif_batch_size inf;
                   aif_latency_ns := wrap_u64 (ne_t1 env - ne_t0 env);
                   aif_status := AI_STATUS_SUCCESS |} in
              let written :=
                copy_to_user output_data (ne_copy_output_left env) in
              if negb (ne_copy_output_left env =? 0)
              then (- EFAULT, ctx, arg, Some written)
              else if negb (ne_copy_result_ok env)
              then (- EFAULT, ctx, ne_result_fault env, Some written)
              else
                (0,
                 {| ctx_total_inferences :=
                      wrap_u64 (ctx_total_inferences ctx + 1);
                    ctx_total_bytes_transferred :=
                      wrap_u64 (ctx_total_bytes_transferred ctx
                                + wrap_u64 (aif_input_size inf
                                            + aif_output_size inf)) |},
                 inf', Some written)
          end
      end.

Record ai_accel_stats := {
  st_total_inferences : Z;
  st_total_bytes_in : Z;
  st_total_bytes_out : Z;
  st_memory_used : Z;
  st_memory_total : Z;
  st_active_jobs : Z;
  st_completed_jobs : Z;
  st_failed_jobs : Z;
  st_average_latency_ns : Z
}.

(** Lines 207-228; [adev] may be NULL here. *)
Definition ai_ioctl_get_stats (ctx : ai_ioctl_context)
    (adev : option ai_accel_device) (copy_to_user_ok : bool)
    : Z * option ai_accel_stats :=
  let stats :=
    {| st_total_inferences := ctx_total_inferences ctx;
       st_total_bytes_in := ctx_total_bytes_transferred ctx / 2;
       st_total_bytes_out := ctx_total_bytes_transferred ctx / 2;
       st_memory_used := from_option mem_used 0 adev;
       st_memory_total := from_option mem_size 0 adev;
       st_active_jobs := 0;
       st_completed_jobs := ctx_total_inferences ctx;
       st_failed_jobs := 0;
       st_average_latency_ns := 1000000 |} in
  if negb copy_to_user_ok then (- EFAULT, None) else (0, Some stats).

(** Lines 235-246: the argument is cut to a [u32] before the test. *)
Definition ai_ioctl_set_power_mode (AI_POWER_MODE_MAX arg : Z) : Z :=
  let mode := wrap_u32 arg in
  if AI_POWER_MODE_MAX <? mode then - EINVAL else 0.

(** The case labels of [ai_accel_ioctl]. *)
Inductive accel_cmd :=
  | CMD_GET_INFO
  | CMD_ALLOC_MEM
  | CMD_FREE_MEM
  | CMD_SUBMIT_INFERENCE
  | CMD_GET_STATS
  | CMD_SET_POWER
  | CMD_WAIT
  | CMD_OTHER.

(** One call: the command with the outcome of the magic test, its
    direction bits [_IOC_DIR(cmd)] and the answer of [access_ok], the user
    block read as each request type (for SET_POWER the argument itself), and
    the kernel answers for the handlers modelled here. *)
Record accel_call := {
  ac_cmd : accel_cmd;
  ac_magic_ok : bool;
  ac_dir : Z;
  ac_access_ok : bool;
  ac_mem_alloc : ai_accel_mem_alloc;
  ac_mem_alloc_env : mem_alloc_env;
  ac_mem_free : ai_accel_mem_free;
  ac_inference : ai_accel_inference;
  ac_infer_env : infer_env;
  ac_power_arg : Z;
  ac_wait : ai_accel_wait (Z * Z);
  ac_copy_in_ok : bool;
  ac_copy_out_ok : bool
}.

Inductive accel_out :=
  | AOutNothing
  | AOutMemAlloc (r : ai_accel_mem_alloc)
  | AOutInference (r : ai_accel_inference) (data : option (list Z))
  | AOutStats (s : ai_accel_stats)
  | AOutWait (w : ai_accel_wait (Z * Z)).

(** Lines 277-338, without GET_INFO's body (it only reports).  The context
    is a local of the call, set up afresh each time (lines 283-287); what
    lives on between calls is the device behind [filp->private_data]. *)
Definition ai_accel_ioctl (AI_POWER_MODE_MAX : Z) (adev : ai_accel_device)
    (c : accel_call) : Z * ai_accel_device * accel_out :=
  let ctx := {| ctx_total_inferences := 0;
                ctx_total_bytes_transferred := 0 |} in
  if negb (ac_magic_ok c) then (- ENOTTY, adev, AOutNothing)
  else if negb (Z.land (ac_dir c) AccelDispatch._IOC_READ =? 0)
          && negb (ac_access_ok c)
  then (- EFAULT, adev, AOutNothing)
  else if negb (Z.land (ac_dir c) AccelDispatch._IOC_WRITE =? 0)
          && negb (ac_access_ok c)
  then (- EFAULT, adev, AOutNothing)
  else
    match ac_cmd c with
    | CMD_GET_INFO =>
        (if ac_copy_out_ok c then 0 else - EFAULT, adev, AOutNothing)
    | CMD_ALLOC_MEM =>
        let '(ret, adev', r) :=
          ai_ioctl_alloc_memory adev (ac_mem_alloc c) (ac_mem_alloc_env c) in
        (ret, adev', AOutMemAlloc r)
    | CMD_FREE_MEM =>
        let '(ret, adev') :=
          ai_ioctl_free_memory adev (ac_mem_free c) (ac_copy_in_ok c) in
        (ret, adev', AOutNothing)
    | CMD_SUBMIT_INFERENCE =>
        let '(ret, _, r, data) :=
          ai_ioctl_submit_inference ctx (ac_inference c) (ac_infer_env c) in
        (ret, adev, AOutInference r data)
    | CMD_GET_STATS =>
        match ai_ioctl_get_stats ctx (Some adev) (ac_copy_out_ok c) with
        | (ret, Some s) => (ret, adev, AOutStats s)
        | (ret, None) => (ret, adev, AOutNothing)
        end
    | CMD_SET_POWER =>
        (ai_ioctl_set_power_mode AI_POWER_MODE_MAX (ac_power_arg c), adev,
         AOutNothing)
    | CMD_WAIT =>
        let '(ret, w) :=
          ai_ioctl_wait_completion (ac_wait c) (ac_copy_in_ok c)
                                   (ac_copy_out_ok c) in
        (ret, adev, AOutWait w)
    | CMD_OTHER => (- ENOTTY, adev, AOutNothing)
    end.

(** A session on the second surface. *)
Definition accel_run (AI_POWER_MODE_MAX : Z) (calls : list accel_call)
    (adev : ai_accel_device) : ai_accel_device :=
  fold_left (λ d c, (ai_accel_ioctl AI_POWER_MODE_MAX d c).1.2) calls adev.

(** Sizes in a call are unsigned. *)
Definition accel_call_wf (c : accel_call) : Prop :=
  0 <= ma_size (ac_mem_alloc c) ∧ 0 <= mf_size (ac_mem_free c).

End IoctlMore.

(** ** driver/ai_dma.c: pool teardown, coherent buffers, cache sync *)

Module DmaMore.
Import Errno CInt Dma.
Local Open Scope kmem_scope.

(** Lines 86-99: every channel is released and its slot cleared, then the
    bitmap is reset. *)
Definition ai_dma_exit (p : dma_pool) : dma_pool :=
  {| dma_channels :=
       foldl (λ chans i, <[i := None]> chans) (dma_channels p)
             (seq 0 AI_DMA_CHANNELS);
     channel_bitmap := 0;
     in_flight := in_flight p |}.

(** [struct ai_dma_buffer] with all its pointer fields, NULL being [None].
    A descriptor is zero-filled by [kzalloc]; [Dma.ai_dma_buffer] is the
    view of one that [ai_dma_map_user_buffer] filled in: [cpu_addr] NULL,
    [dma_addr] 0, [sg] set. *)
Record dma_buffer_desc := {
  dd_self : N;
  dd_cpu_addr : option N;
  dd_dma_addr : Z;
  dd_size : Z;
  dd_dir : dma_data_direction;
  dd_sg : option N;
  dd_sg_count : Z;
  dd_mapped : bool
}.

Definition desc_of_mapped (b : ai_dma_buffer) : dma_buffer_desc :=
  {| dd_self := dbuf_self b; dd_cpu_addr := None; dd_dma_addr := 0;
     dd_size := dbuf_size b; dd_dir := dbuf_dir b;
     dd_sg := Some (dbuf_sg_ptr b); dd_sg_count := dbuf_sg_count b;
     dd_mapped := dbuf_mapped b |}.

(** Lines 110-131.  [coherent_ok] and [dma_addr] are the answer of
    [dma_alloc_coherent]; coherent memory is an allocation like the others. *)
Definition ai_dma_alloc_buffer (size : Z) (dir : dma_data_direction)
    (kzalloc_ok coherent_ok : bool) (dma_addr : Z)
    : K (option dma_buffer_desc) :=
  do obuf <- kalloc kzalloc_ok;
  match obuf with
  | None => kret None
  | Some buf =>
      do ocpu <- kalloc coherent_ok;
      match ocpu with
      | None => kfree buf;; kret None
      | Some cpu =>
          kret (Some {| dd_self := buf; dd_cpu_addr := Some cpu;
                        dd_dma_addr := dma_addr; dd_size := size;
                        dd_dir := dir; dd_sg := None; dd_sg_count := 0;
                        dd_mapped := false |})
      end
  end.

(** Lines 139-151. *)
Definition ai_dma_free_buffer (buf : option dma_buffer_desc) : K unit :=
  match buf with
  | None => kret tt
  | Some d =>
      (match dd_cpu_addr d with
       | Some cpu => kfree cpu
       | None => kret tt
       end);;
      (match dd_sg d with
       | Some sg => kfree sg
       | None => kret tt
       end);;
      kfree (dd_self d)
  end.

(** The kernel call a sync routine ends in. *)
Inductive sync_call :=
  | SyncNothing
  | SyncSg (sg : N) (nents : Z) (dir : dma_data_direction)
  | SyncSingle (dma_addr size : Z) (dir : dma_data_direction).

(** Lines 378-387 and 395-404: [ai_dma_sync_for_cpu] and
    [ai_dma_sync_for_device] choose their kernel call the same way
    ([dma_sync_sg_for_cpu] / [dma_sync_single_for_cpu], and the
    [..._for_device] pair). *)
Definition ai_dma_sync_for_cpu (buf : option dma_buffer_desc) : sync_call :=
  match buf with
  | None => SyncNothing
  | Some d =>
      if negb (dd_mapped d) then SyncNothing
      else match dd_sg d with
           | Some sg => SyncSg sg (dd_sg_count d) (dd_dir d)
           | None => SyncSingle (dd_dma_addr d) (dd_size d) (dd_dir d)
           end
  end.

Definition ai_dma_sync_for_device (buf : option dma_buffer_desc) : sync_call :=
  match buf with
  | None => SyncNothing
  | Some d =>
      if negb (dd_mapped d) then SyncNothing
      else match dd_sg d with
           | Some sg => SyncSg sg (dd_sg_count d) (dd_dir d)
           | None => SyncSingle (dd_dma_addr d) (dd_size d) (dd_dir d)
           end
  end.

Local Close Scope kmem_scope.

(** The pages a region covers, as [pin_user_pages_fast] returns them. *)
Definition region_pages (user_addr : Z) (n : Z) : list Z :=
  (λ j, user_addr / PAGE_SIZE + j) <$> seqZ 0 n.

(** A segment that lies inside one page and is not empty. *)
Definition within_page (e : scatterlist) : Prop :=
  0 <= sg_offset e ∧ 0 < sg_length e ∧ sg_offset e + sg_length e <= 4096.

End DmaMore.


(** ** driver/ai_accel.c and driver/ai_ioctl.c: the allocating handlers
    over kernel memory

    [Accel] and [Ioctl] give what the handlers do to the device.  Below the
    handlers that allocate are computations over the kernel memory of [Dma]
    as well: [kzalloc], [vzalloc], [vmalloc] and [dma_alloc_coherent] take
    an allocation, [kfree], [vfree] and [dma_free_coherent] give one back.
    The address a handler stores and reports is still the kernel's answer in
    its [*_env] record (0 is NULL).  The memory followed is what the
    handlers allocate themselves; the nodes an IDR keeps for its own
    bookkeeping stay inside the IDR of [Idr].

    The user's block is followed more closely too.  [copy_to_user] writes
    front to back and stops at the first byte it cannot write, so after a
    copy-out that faults the block holds some bytes of the new contents over
    the old ones.  How many depends on where the fault lies: the block found
    afterwards is the input [fault]. *)

Module AccelMem.
Import Errno CInt Idr Accel Dma.
Local Open Scope kmem_scope.

(** Lines 133-197. *)
Definition ai_ioctl_alloc (simulate : bool) (dev : ai_device)
    (arg : ai_alloc_request) (env : alloc_env) (fault : ai_alloc_request)
    : K (Z * ai_device * ai_alloc_request) :=
  if negb (ae_copy_from_user_ok env) then kret (- EFAULT, dev, arg)
  else
    let req := arg in
    if (alloc_size req =? 0) || (caps_max_alloc_size (caps dev) <? alloc_size req)
    then kret (- EINVAL, dev, arg)
    else
      do obuf <- kalloc (ae_kzalloc_ok env);
      match obuf with
      | None => kret (- ENOMEM, dev, arg)
      | Some buf_ptr =>
          let buf := {| buf_cpu_addr := ae_cpu_addr env;
                        buf_dma_addr := if simulate then ae_cpu_addr env
                                        else ae_dma_handle env;
                        buf_size := alloc_size req;
                        buf_flags := alloc_flags req |} in
          do ocpu <- kalloc (negb (buf_cpu_addr buf =? 0));
          match ocpu with
          | None => kfree buf_ptr;; kret (- ENOMEM, dev, arg)
          | Some cpu_ptr =>
              let '(handle, idr') :=
                idr_alloc (buffer_idr dev) buf 1 0 (ae_idr_gfp_ok env) in
              if handle <? 0 then
                kfree cpu_ptr;; kfree buf_ptr;; kret (handle, dev, arg)
              else
                let req' := {| alloc_size := alloc_size req;
                               alloc_flags := alloc_flags req;
                               alloc_handle := wrap_u64 handle;
                               alloc_dma_addr := buf_dma_addr buf |} in
                if negb (ae_copy_to_user_ok env) then
                  kfree cpu_ptr;; kfree buf_ptr;;
                  kret (- EFAULT,
                        set_buffer_idr dev (idr_remove idr' handle), fault)
                else kret (0, set_buffer_idr dev idr', req')
          end
      end.

(** Lines 227-281. *)
Definition ai_ioctl_load_model (dev : ai_device)
    (arg : ai_load_model_request) (env : load_env)
    (fault : ai_load_model_request)
    : K (Z * ai_device * ai_load_model_request) :=
  if negb (le_copy_from_user_ok env) then kret (- EFAULT, dev, arg)
  else
    let req := arg in
    if (lm_model_size req =? 0)
       || (caps_max_alloc_size (caps dev) <? lm_model_size req)
    then kret (- EINVAL, dev, arg)
    else
      do omodel <- kalloc (le_kzalloc_ok env);
      match omodel with
      | None => kret (- ENOMEM, dev, arg)
      | Some model_ptr =>
          let model := {| mdl_data := le_vmalloc_addr env;
                          mdl_size := lm_model_size req;
                          mdl_flags := lm_flags req |} in
          do odata <- kalloc (negb (mdl_data model =? 0));
          match odata with
          | None => kfree model_ptr;; kret (- ENOMEM, dev, arg)
          | Some data_ptr =>
              if negb (le_copy_data_ok env) then
                kfree data_ptr;; kfree model_ptr;; kret (- EFAULT, dev, arg)
              else
                let '(handle, idr') :=
                  idr_alloc (model_idr dev) model 1 0 (le_idr_gfp_ok env) in
                if handle <? 0 then
                  kfree data_ptr;; kfree model_ptr;; kret (handle, dev, arg)
                else
                  let req' := {| lm_model_data := lm_model_data req;
                                 lm_model_size := lm_model_size req;
                                 lm_flags := lm_flags req;
                                 lm_model_handle := wrap_u64 handle |} in
                  if negb (le_copy_to_user_ok env) then
                    kfree data_ptr;; kfree model_ptr;;
                    kret (- EFAULT,
                          set_model_idr dev (idr_remove idr' handle), fault)
                  else kret (0, set_model_idr dev idr', req')
          end
      end.

End AccelMem.

Module IoctlMem.
Import Errno CInt Ioctl Dma.
Local Open Scope kmem_scope.

(** Lines 70-108.  [mem] is a local of the handler: on success the
    coherent memory stays allocated and only its bus address leaves the
    function, as the handle. *)
Definition ai_ioctl_alloc_memory (adev : ai_accel_device)
    (arg : ai_accel_mem_alloc) (env : mem_alloc_env)
    (fault : ai_accel_mem_alloc)
    : K (Z * ai_accel_device * ai_accel_mem_alloc) :=
  if negb (mae_copy_from_user_ok env) then kret (- EFAULT, adev, arg)
  else if (ma_size arg =? 0) || (64 * 1024 * 1024 <? ma_size arg)
  then kret (- EINVAL, adev, arg)
  else
    let size := PAGE_ALIGN (ma_size arg) in
    if mem_size adev <? mem_used adev + size then kret (- ENOMEM, adev, arg)
    else
      do omem <- kalloc (negb (mae_mem env =? 0));
      match omem with
      | None => kret (- ENOMEM, adev, arg)
      | Some mem =>
          let alloc := {| ma_size := size;
                          ma_handle := wrap_u64 (mae_dma_handle env) |} in
          let adev' := {| mem_size := mem_size adev;
                          mem_used := mem_used adev + size |} in
          if negb (mae_copy_to_user_ok env) then
            kfree mem;;
            kret (- EFAULT,
                  {| mem_size := mem_size adev';
                     mem_used := mem_used adev' - size |},
                  fault)
          else kret (0, adev', alloc)
      end.

(** Lines 115-129: the counter is adjusted; no allocator is called. *)
Definition ai_ioctl_free_memory (adev : ai_accel_device)
    (mfree : ai_accel_mem_free) (copy_from_user_ok : bool)
    : K (Z * ai_accel_device) :=
  if negb copy_from_user_ok then kret (- EFAULT, adev)
  else
    kret (0,
          if mf_size mfree <=? mem_used adev
          then {| mem_size := mem_size adev;
                  mem_used := mem_used adev - mf_size mfree |}
          else adev).

End IoctlMem.

(** ** Concrete inputs used in examples *)

Module Scenario.
Import Accel Ioctl Dma.

(** Kernel answers of an [ai_ioctl_alloc] in which nothing fails. *)
Definition alloc_env_ok : alloc_env :=
  {| ae_copy_from_user_ok := true; ae_kzalloc_ok := true;
     ae_cpu_addr := 0x100000; ae_dma_handle := 0x100000;
     ae_idr_gfp_ok := true; ae_copy_to_user_ok := true |}.

Definition load_env_ok : load_env :=
  {| le_copy_from_user_ok := true; le_kzalloc_ok := true;
     le_vmalloc_addr := 0x200000; le_copy_data_ok := true;
     le_idr_gfp_ok := true; le_copy_to_user_ok := true |}.

(** A request for one page, and a model of 1 KiB. *)
Definition alloc_4k : ai_alloc_request :=
  {| alloc_size := 4096; alloc_flags := 0; alloc_handle := 0;
     alloc_dma_addr := 0 |}.

Definition load_1k : ai_load_model_request :=
  {| lm_model_data := 0x7f0000; lm_model_size := 1024; lm_flags := 0;
     lm_model_handle := 0 |}.

(** A freshly initialised device (simulation mode, four engines). *)
Definition dev_init : ai_device := ai_accel_init true 4.

(** The device after loading one model and allocating two buffers. *)
Definition dev_ready : ai_device :=
  let d1 := (ai_ioctl_load_model dev_init load_1k load_env_ok).1.2 in
  let d2 := (ai_ioctl_alloc true d1 alloc_4k alloc_env_ok).1.2 in
  (ai_ioctl_alloc true d2 alloc_4k alloc_env_ok).1.2.

(** An inference request on model 1, input buffer 1, output buffer 2. *)
Definition infer_req : ai_inference_request :=
  {| inf_model_handle := 1; inf_input_handle := 1; inf_output_handle := 2;
     inf_input_size := 4096; inf_output_size := 4096; inf_flags := 0;
     inf_priority := 0; inf_user_data := 0; inf_fence := 0 |}.

(** Kernel memory with two allocations outstanding and two pages pinned
    by earlier work. *)
Definition kmem_busy : kmem :=
  {| live := {[ 0%N; 5%N ]}; pinned := {[+ 1; 2 +]} |}.

(** Answers of a mapping in which every allocation succeeds, [pin] pages
    can be pinned and [dma_map_sg] maps [mapped] entries. *)
Definition map_env_of (pin mapped : Z) : map_env :=
  {| me_kzalloc_ok := true; me_pages_ok := true; me_pin_answer := pin;
     me_sg_ok := true; me_map_sg := mapped |}.

(** The pool after [ai_dma_init] obtained all four channels. *)
Definition pool_ready : dma_pool :=
  (ai_dma_init [Some 0x10; Some 0x11; Some 0x12; Some 0x13]).2.

(** A synchronous transfer that is submitted with cookie 7 and whose
    completion does not arrive in time. *)
Definition sync_env_timeout : sync_env :=
  {| se_prep_ok := true; se_cookie := 7; se_completed := false |}.

(** The second ioctl surface: a device with 1 GiB of memory, none in use,
    and the answers of an allocation that [dma_alloc_coherent] serves at the
    given bus address. *)
Definition adev_idle : ai_accel_device :=
  {| mem_size := 2 ^ 30; mem_used := 0 |}.

Definition mem_alloc_env_at (dma : Z) : mem_alloc_env :=
  {| mae_copy_from_user_ok := true; mae_mem := dma; mae_dma_handle := dma;
     mae_copy_to_user_ok := true |}.

Definition mem_alloc_4k : ai_accel_mem_alloc :=
  {| ma_size := 4096; ma_handle := 0 |}.

(** A wait request: the part the handler does not read names the fence
    waited for and the timeout; status and result hold stale values. *)
Definition wait_on_fence (fence timeout : Z) : ai_accel_wait (Z * Z) :=
  {| wait_request := (fence, timeout); wait_status := -1; wait_result := -1 |}.

(** An allocation in which only the final copy to user space fails. *)
Definition alloc_env_copy_out_fault : alloc_env :=
  {| ae_copy_from_user_ok := true; ae_kzalloc_ok := true;
     ae_cpu_addr := 0x100000; ae_dma_handle := 0x100000;
     ae_idr_gfp_ok := true; ae_copy_to_user_ok := false |}.

(** A user block and kernel answers for the dispatcher: a one-page
    allocation, a free of buffer 1, a 1 KiB model, an inference on model 1;
    nothing fails. *)
Definition ioctl_arg_demo : AccelDispatch.ioctl_arg :=
  {| AccelDispatch.ua_alloc := alloc_4k; AccelDispatch.ua_free := 1;
     AccelDispatch.ua_load := load_1k; AccelDispatch.ua_submit := infer_req |}.

Definition ioctl_env_ok : AccelDispatch.ioctl_env :=
  {| AccelDispatch.ie_caps_copy_ok := true;
     AccelDispatch.ie_alloc := alloc_env_ok;
     AccelDispatch.ie_free_copy_ok := true;
     AccelDispatch.ie_load := load_env_ok;
     AccelDispatch.ie_submit_in_ok := true;
     AccelDispatch.ie_submit_out_ok := true |}.

(** Second surface: a 5000-byte allocation request, and a call record
    whose fields all describe requests that succeed (allocation of 5000
    bytes at 0x30000, free of 8192 bytes, a 4-byte inference with an 6-byte
    output buffer). *)
Definition mem_alloc_5000 : ai_accel_mem_alloc :=
  {| ma_size := 5000; ma_handle := 0 |}.

Definition inference_4_in_6_out : IoctlMore.ai_accel_inference :=
  {| IoctlMore.aif_input_data := 0x7000; IoctlMore.aif_output_data := 0x8000;
     IoctlMore.aif_input_size := 4; IoctlMore.aif_output_size := 6;
     IoctlMore.aif_batch_size := 1; IoctlMore.aif_latency_ns := 0;
     IoctlMore.aif_status := -1 |}.

Definition infer_env_ok : IoctlMore.infer_env :=
  {| IoctlMore.ne_copy_from_user_ok := true;
     IoctlMore.ne_input_alloc_ok := true;
     IoctlMore.ne_output_alloc := Some [91; 92; 93; 94; 95; 96];
     IoctlMore.ne_user_input := Some [1; 2; 3; 4];
     IoctlMore.ne_t0 := 1000; IoctlMore.ne_t1 := 1250;
     IoctlMore.ne_copy_output_left := 0;
     IoctlMore.ne_copy_result_ok := true;
     IoctlMore.ne_result_fault := inference_4_in_6_out |}.

Definition accel_call_of (cmd : IoctlMore.accel_cmd) : IoctlMore.accel_call :=
  {| IoctlMore.ac_cmd := cmd; IoctlMore.ac_magic_ok := true;
     IoctlMore.ac_dir := 3; IoctlMore.ac_access_ok := true;
     IoctlMore.ac_mem_alloc := mem_alloc_5000;
     IoctlMore.ac_mem_alloc_env := mem_alloc_env_at 0x30000;
     IoctlMore.ac_mem_free := {| mf_handle := 0x30000; mf_size := 8192 |};
     IoctlMore.ac_inference := inference_4_in_6_out;
     IoctlMore.ac_infer_env := infer_env_ok;
     IoctlMore.ac_power_arg := 0;
     IoctlMore.ac_wait := wait_on_fence 1 0;
     IoctlMore.ac_copy_in_ok := true; IoctlMore.ac_copy_out_ok := true |}.


(** What a faulting copy-out of an allocation can leave in the user's
    block: the handle (here 3) was written, the DMA address was not. *)
Definition alloc_4k_half_written : ai_alloc_request :=
  {| alloc_size := 4096; alloc_flags := 0; alloc_handle := 3;
     alloc_dma_addr := 0 |}.

(** A model load in which only the final copy to user space fails. *)
Definition load_env_copy_out_fault : load_env :=
  {| le_copy_from_user_ok := true; le_kzalloc_ok := true;
     le_vmalloc_addr := 0x200000; le_copy_data_ok := true;
     le_idr_gfp_ok := true; le_copy_to_user_ok := false |}.

(** An inference whose output copy faults with two of the six bytes
    still to write. *)
Definition infer_env_output_fault : IoctlMore.infer_env :=
  {| IoctlMore.ne_copy_from_user_ok := true;
     IoctlMore.ne_input_alloc_ok := true;
     IoctlMore.ne_output_alloc := Some [91; 92; 93; 94; 95; 96];
     IoctlMore.ne_user_input := Some [1; 2; 3; 4];
     IoctlMore.ne_t0 := 1000; IoctlMore.ne_t1 := 1250;
     IoctlMore.ne_copy_output_left := 2;
     IoctlMore.ne_copy_result_ok := true;
     IoctlMore.ne_result_fault := inference_4_in_6_out |}.

(** The same request naming model 7, which was never loaded. *)
Definition infer_req_unknown_model : ai_inference_request :=
  {| inf_model_handle := 7; inf_input_handle := 1; inf_output_handle := 2;
     inf_input_size := 4096; inf_output_size := 4096; inf_flags := 0;
     inf_priority := 0; inf_user_data := 0; inf_fence := 0 |}.

End Scenario.

(** * Properties *)

(** ** Facts about the fixed-width conversions *)

Module CIntFacts.
Import CInt.

Lemma wrap_u64_small (x : Z) : 0 <= x < 2 ^ 64 → wrap_u64 x = x.
Proof. intros H. unfold wrap_u64. by apply Z.mod_small. Qed.

Lemma wrap_u32_small (x : Z) : 0 <= x < 2 ^ 32 → wrap_u32 x = x.
Proof. intros H. unfold wrap_u32. by apply Z.mod_small. Qed.

Lemma wrap_s32_small (x : Z) : - 2 ^ 31 <= x < 2 ^ 31 → wrap_s32 x = x.
Proof. intros H. unfold wrap_s32. rewrite Z.mod_small; lia. Qed.

Lemma wrap_s32_range (x : Z) : - 2 ^ 31 <= wrap_s32 x < 2 ^ 31.
Proof.
  unfold wrap_s32. pose proof (Z.mod_pos_bound (x + 2 ^ 31) (2 ^ 32)). lia.
Qed.

(** Incrementing a wrapped counter is incrementing before wrapping. *)
Lemma wrap_s32_succ (x : Z) : wrap_s32 (wrap_s32 x + 1) = wrap_s32 (x + 1).
Proof.
  unfold wrap_s32.
  replace ((x + 2 ^ 31) mod 2 ^ 32 - 2 ^ 31 + 1 + 2 ^ 31)
    with ((x + 2 ^ 31) mod 2 ^ 32 + 1) by lia.
  rewrite Zplus_mod_idemp_l. f_equal. f_equal. lia.
Qed.

(** An [int] read as [u64]: negative values land in the top half. *)
Lemma s32_to_u64 (x : Z) :
  - 2 ^ 31 <= x < 2 ^ 31 →
  wrap_u64 x = if x <? 0 then x + 2 ^ 64 else x.
Proof.
  intros H. unfold wrap_u64. destruct (x <? 0) eqn:E.
  - apply Z.ltb_lt in E. symmetry. apply (Z.mod_unique_pos _ _ (-1)); lia.
  - apply Z.ltb_ge in E. apply Z.mod_small. lia.
Qed.

End CIntFacts.

(** ** Facts about the IDR *)

Module IdrFacts.
Import Errno CInt Idr.

Section facts.
Context {A : Type}.
Implicit Types (m : gmap Z A) (id : Z) (fuel : nat).

(** A map that is occupied on [fuel] consecutive ids has at least [fuel]
    entries. *)
Lemma occupied_run_size fuel : ∀ m id,
  (∀ j, id <= j < id + Z.of_nat fuel → is_Some (m !! j)) →
  (fuel ≤ size m)%nat.
Proof.
  induction fuel as [|fuel IH]; intros m id Hocc; [lia|].
  destruct (Hocc id ltac:(lia)) as [x Hx].
  specialize (IH (delete id m) (id + 1)).
  rewrite (map_size_delete_Some id m) in IH by eauto.
  assert (size m ≠ 0%nat) by (apply (map_size_ne_0_lookup_2 m id); eauto).
  enough (fuel ≤ Nat.pred (size m))%nat by lia.
  apply IH. intros j Hj. rewrite lookup_delete_ne by lia. apply Hocc. lia.
Qed.

(** What the walk returns: it stays within [fuel] steps, skips occupied
    ids only, and stops early only at an unused id. *)
Lemma first_free_walk fuel : ∀ m id,
  id <= first_free m id fuel <= id + Z.of_nat fuel
  ∧ (∀ j, id <= j < first_free m id fuel → is_Some (m !! j))
  ∧ (first_free m id fuel < id + Z.of_nat fuel →
     m !! first_free m id fuel = None).
Proof.
  induction fuel as [|fuel IH]; intros m id; simpl.
  - split; [lia|]. split; intros; lia.
  - destruct (m !! id) as [x|] eqn:Hid.
    + destruct (IH m (id + 1)) as (Hr & Hocc & Hfree).
      split; [lia|]. split.
      * intros j Hj. destruct (decide (j = id)) as [->|]; [by eexists|].
        apply Hocc. lia.
      * intros Hlt. apply Hfree. lia.
    + split; [lia|]. split; [intros j Hj; lia|done].
Qed.

Lemma first_free_is_free m id : m !! first_free m id (size m) = None.
Proof.
  destruct (first_free_walk (size m) m id) as (Hr & Hocc & Hfree).
  destruct (decide (first_free m id (size m) < id + Z.of_nat (size m)))
    as [Hlt|Hge]; [by apply Hfree|].
  destruct (m !! first_free m id (size m)) as [x|] eqn:Hx; [|done].
  exfalso.
  assert (S (size m) ≤ size m)%nat; [|lia].
  apply (occupied_run_size (S (size m)) m id).
  intros j Hj.
  destruct (decide (j = first_free m id (size m))) as [->|]; [by eexists|].
  apply Hocc. lia.
Qed.

Lemma first_free_ge m id fuel : id <= first_free m id fuel.
Proof. by destruct (first_free_walk fuel m id) as ((? & _) & _). Qed.

(** Successful [idr_alloc]: the id is in range, was unused, every smaller
    id of the range is in use, and the table gains exactly that entry. *)
Lemma idr_alloc_ok m (ptr : A) start end_ gfp h m' :
  idr_alloc m ptr start end_ gfp = (h, m') →
  0 <= h →
  start <= h <= (if 0 <? end_ then end_ - 1 else INT_MAX)
  ∧ m !! h = None
  ∧ (∀ j, start <= j < h → is_Some (m !! j))
  ∧ m' = <[h := ptr]> m.
Proof.
  unfold idr_alloc. intros Heq Hh.
  destruct (start <? 0) eqn:Hs.
  { inversion Heq; subst. unfold EINVAL in Hh. lia. }
  destruct (_ <? first_free _ _ _) eqn:Hmax.
  { inversion Heq; subst. unfold ENOSPC in Hh. lia. }
  destruct gfp.
  - inversion Heq; subst. apply Z.ltb_ge in Hmax.
    pose proof (first_free_ge m start (size m)).
    repeat split; try lia.
    + apply first_free_is_free.
    + intros j Hj.
      by apply (first_free_walk (size m) m start).
  - inversion Heq; subst. unfold ENOMEM in Hh. lia.
Qed.

(** Failed [idr_alloc] leaves the table alone. *)
Lemma idr_alloc_fail m (ptr : A) start end_ gfp h m' :
  idr_alloc m ptr start end_ gfp = (h, m') → h < 0 → m' = m.
Proof.
  unfold idr_alloc. intros Heq Hh.
  destruct (start <? 0) eqn:Hs; [by inversion Heq|].
  apply Z.ltb_ge in Hs.
  destruct (_ <? first_free _ _ _) eqn:Hmax; [by inversion Heq|].
  destruct gfp; [|by inversion Heq].
  inversion Heq; subst.
  pose proof (first_free_ge m start (size m)). lia.
Qed.

(** With room in the range and memory for the node, [idr_alloc] succeeds. *)
Lemma idr_alloc_total m (ptr : A) start end_ :
  0 <= start →
  Z.of_nat (size m) + start <= (if 0 <? end_ then end_ - 1 else INT_MAX) →
  ∃ h, 0 <= h ∧ idr_alloc m ptr start end_ true = (h, <[h := ptr]> m).
Proof.
  intros Hs Hroom. unfold idr_alloc.
  destruct (start <? 0) eqn:E; [apply Z.ltb_lt in E; lia|].
  destruct (first_free_walk (size m) m start) as ((Hlo & Hhi) & _).
  destruct (_ <? first_free _ _ _) eqn:Hmax; [apply Z.ltb_lt in Hmax; lia|].
  eexists. split; [|reflexivity]. lia.
Qed.

End facts.
End IdrFacts.

(** ** driver/ai_accel.c: handle table *)

Module AccelFacts.
Import Errno CInt Idr Accel CIntFacts IdrFacts.

Lemma set_buffer_idr_same dev : set_buffer_idr dev (buffer_idr dev) = dev.
Proof. by destruct dev. Qed.

Lemma set_model_idr_same dev : set_model_idr dev (model_idr dev) = dev.
Proof. by destruct dev. Qed.

(** A handle the IDR hands out for the range [1, INT_MAX] is unchanged by
    the conversion to the [u64] request field. *)
Lemma handle_to_u64 (h : Z) : 1 <= h <= INT_MAX → wrap_u64 h = h.
Proof. unfold INT_MAX. intros. apply wrap_u64_small. lia. Qed.

(** Case analysis of a finished [ai_ioctl_alloc]: either it returned 0 and
    stored a new buffer under a handle that was unused, or it returned a
    negative error and left device and argument block as they were. *)
Lemma ai_ioctl_alloc_cases simulate dev arg env :
  let r := ai_ioctl_alloc simulate dev arg env in
  (r.1.1 = 0
   ∧ ∃ h buf, 1 <= h <= INT_MAX
       ∧ buffer_idr dev !! h = None
       ∧ (∀ j, 1 <= j < h → is_Some (buffer_idr dev !! j))
       ∧ alloc_handle r.2 = h
       ∧ r.1.2 = set_buffer_idr dev (<[h := buf]> (buffer_idr dev)))
  ∨ (r.1.1 < 0 ∧ r.1.2 = dev ∧ r.2 = arg).
Proof.
  unfold ai_ioctl_alloc.
  destruct (negb (ae_copy_from_user_ok env)); [by right|].
  destruct (_ || _); [by right|].
  destruct (negb (ae_kzalloc_ok env)); [by right|].
  cbn [buf_cpu_addr].
  destruct (ae_cpu_addr env =? 0); [by right|].
  destruct (idr_alloc _ _ _ _ _) as [handle idr'] eqn:Halloc.
  destruct (handle <? 0) eqn:Hneg.
  { apply Z.ltb_lt in Hneg. right. simpl. done. }
  apply Z.ltb_ge in Hneg.
  destruct (idr_alloc_ok _ _ _ _ _ _ _ Halloc Hneg) as (Hr & Hfree & Hlow & ->).
  simpl in Hr.
  destruct (negb (ae_copy_to_user_ok env)).
  - right. simpl. split; [done|]. split; [|done].
    unfold idr_remove. rewrite delete_insert_eq, (delete_id _ _ Hfree).
    apply set_buffer_idr_same.
  - left. simpl. split; [done|].
    eexists handle, _. rewrite handle_to_u64 by done. done.
Qed.

(** The same for [ai_ioctl_load_model] and the model namespace. *)
Lemma ai_ioctl_load_model_cases dev arg env :
  let r := ai_ioctl_load_model dev arg env in
  (r.1.1 = 0
   ∧ ∃ h model, 1 <= h <= INT_MAX
       ∧ model_idr dev !! h = None
       ∧ lm_model_handle r.2 = h
       ∧ r.1.2 = set_model_idr dev (<[h := model]> (model_idr dev)))
  ∨ (r.1.1 < 0 ∧ r.1.2 = dev ∧ r.2 = arg).
Proof.
  unfold ai_ioctl_load_model.
  destruct (negb (le_copy_from_user_ok env)); [by right|].
  destruct (_ || _); [by right|].
  destruct (negb (le_kzalloc_ok env)); [by right|].
  cbn [mdl_data].
  destruct (le_vmalloc_addr env =? 0); [by right|].
  destruct (negb (le_copy_data_ok env)); [by right|].
  destruct (idr_alloc _ _ _ _ _) as [handle idr'] eqn:Halloc.
  destruct (handle <? 0) eqn:Hneg.
  { apply Z.ltb_lt in Hneg. right. simpl. done. }
  apply Z.ltb_ge in Hneg.
  destruct (idr_alloc_ok _ _ _ _ _ _ _ Halloc Hneg) as (Hr & Hfree & Hlow & ->).
  simpl in Hr.
  destruct (negb (le_copy_to_user_ok env)).
  - right. simpl. split; [done|]. split; [|done].
    unfold idr_remove. rewrite delete_insert_eq, (delete_id _ _ Hfree).
    apply set_model_idr_same.
  - left. simpl. split; [done|].
    eexists handle, _. rewrite handle_to_u64 by done. done.
Qed.

(** [ai_ioctl_free] of a handle that is not in the table: [-EINVAL], and
    the device is untouched. *)
Lemma ai_ioctl_free_unknown dev h :
  buffer_idr dev !! h = None → ai_ioctl_free dev h true = (- EINVAL, dev).
Proof. intros Hh. unfold ai_ioctl_free, idr_find. by rewrite Hh. Qed.

(** [ai_ioctl_free] of a live handle removes exactly that entry. *)
Lemma ai_ioctl_free_live dev h buf :
  buffer_idr dev !! h = Some buf →
  ai_ioctl_free dev h true = (0, set_buffer_idr dev (delete h (buffer_idr dev))).
Proof. intros Hh. unfold ai_ioctl_free, idr_find, idr_remove. by rewrite Hh. Qed.

(** Freeing a live handle twice: the first call succeeds and removes that
    entry only, the second returns [-EINVAL] and changes nothing. *)
Lemma ai_ioctl_free_twice dev h buf :
  buffer_idr dev !! h = Some buf →
  (ai_ioctl_free dev h true).1 = 0
  ∧ (∀ h', h' ≠ h →
       buffer_idr (ai_ioctl_free dev h true).2 !! h' = buffer_idr dev !! h')
  ∧ ai_ioctl_free (ai_ioctl_free dev h true).2 h true
    = (- EINVAL, (ai_ioctl_free dev h true).2).
Proof.
  intros Hh. rewrite (ai_ioctl_free_live _ _ _ Hh). simpl.
  split; [done|]. split.
  - intros h' Hne. by rewrite lookup_delete_ne.
  - apply ai_ioctl_free_unknown. simpl. apply lookup_delete_eq.
Qed.

(** *** The caller's handle list *)

Lemma elem_of_drop_handle (h x : Z) (held : list Z) :
  NoDup held → x ∈ drop_handle h held ↔ x ∈ held ∧ x ≠ h.
Proof.
  induction held as [|y held IH]; simpl; intros Hnd.
  - rewrite elem_of_nil. tauto.
  - apply NoDup_cons in Hnd as [Hy Hnd].
    destruct (y =? h) eqn:E.
    + apply Z.eqb_eq in E. subst y. rewrite elem_of_cons.
      split; [|tauto].
      intros Hx. split; [by right|]. by intros ->.
    + apply Z.eqb_neq in E. rewrite !elem_of_cons, IH by done.
      intuition congruence.
Qed.

Lemma drop_handle_sublist (h : Z) (held : list Z) :
  ∀ x, x ∈ drop_handle h held → x ∈ held.
Proof.
  induction held as [|y held IH]; simpl; intros x; [done|].
  destruct (y =? h); rewrite !elem_of_cons; [tauto|].
  intros [?|?]; [by left|right; by apply IH].
Qed.

Lemma NoDup_drop_handle (h : Z) (held : list Z) :
  NoDup held → NoDup (drop_handle h held).
Proof.
  induction held as [|y held IH]; simpl; intros Hnd; [done|].
  apply NoDup_cons in Hnd as [Hy Hnd].
  destruct (y =? h); [done|].
  apply NoDup_cons. split; [|by apply IH].
  intros Hin. by apply Hy, (drop_handle_sublist h).
Qed.

Lemma held_is_live_init simulate num_engines :
  held_is_live (ai_accel_init simulate num_engines, []).
Proof.
  split; simpl; [constructor|].
  intros h. rewrite lookup_empty, elem_of_nil. split; [done|by intros [? ?]].
Qed.

Lemma held_is_live_step simulate st op :
  held_is_live st → held_is_live (client_step simulate st op).
Proof.
  destruct st as [dev held]. intros [Hnd Hlive]. simpl in *.
  destruct op as [arg env|h ok]; simpl.
  - pose proof (ai_ioctl_alloc_cases simulate dev arg env) as Hc.
    destruct (ai_ioctl_alloc simulate dev arg env) as [[ret dev'] arg'].
    simpl in Hc.
    destruct Hc as [(-> & h & buf & Hr & Hfree & _ & <- & ->)|(Hneg & -> & ->)].
    + simpl. split.
      * apply NoDup_cons. split; [|done].
        rewrite Hlive, Hfree. by intros [? ?].
      * intros h'. simpl. rewrite elem_of_cons, Hlive.
        destruct (decide (h' = alloc_handle arg')) as [->|Hne].
        -- rewrite lookup_insert_eq. split; eauto.
        -- rewrite lookup_insert_ne by done. split; [|eauto].
           by intros [?|?].
    + destruct (ret =? 0) eqn:E; [apply Z.eqb_eq in E; lia|]. by split.
  - unfold ai_ioctl_free, idr_find, idr_remove.
    destruct ok; simpl; [|by split].
    destruct (buffer_idr dev !! h) as [buf|] eqn:Hh; simpl; [|by split].
    split; [by apply NoDup_drop_handle|].
    intros h'. simpl. rewrite elem_of_drop_handle, Hlive by done.
    destruct (decide (h' = h)) as [->|Hne].
    + rewrite lookup_delete_eq. split; [by intros [_ ?]|by intros [? ?]].
    + rewrite lookup_delete_ne by done. split; [by intros [? _]|done].
Qed.

Lemma held_is_live_run simulate ops : ∀ st,
  held_is_live st → held_is_live (client_run simulate ops st).
Proof.
  unfold client_run.
  induction ops as [|op ops IH]; intros st Hst; simpl; [done|].
  by apply IH, held_is_live_step.
Qed.

End AccelFacts.

(** ** Handle table: the stated properties *)

Module HandleTable.
Import Errno CInt Idr Accel Scenario CIntFacts IdrFacts AccelFacts.

(** C1.  Over every sequence of buffer allocate and free calls on a device
    initialised by [ai_accel_init], the handles the caller holds are
    pairwise distinct and are exactly the ids of the live buffers; a handle
    returned by a further successful allocation is not among them; and a
    handle can be issued again once it was freed (handle 1 below). *)
Theorem live_buffer_handles_distinct (simulate : bool) (num_engines : Z)
    (ops : list buf_op) :
  let st := client_run simulate ops (ai_accel_init simulate num_engines, []) in
  NoDup st.2
  ∧ (∀ h, h ∈ st.2 ↔ is_Some (buffer_idr st.1 !! h))
  ∧ (∀ arg env,
       match issued_handle simulate st.1 (IssueBuffer arg env) with
       | Some h => h ∉ st.2
       | None => True
       end)
  ∧ (let init := (ai_accel_init simulate num_engines, []) in
     let st1 := client_run simulate [OpAlloc alloc_4k alloc_env_ok] init in
     let st2 := client_run simulate [OpFree 1 true] st1 in
     let st3 := client_run simulate [OpAlloc alloc_4k alloc_env_ok] st2 in
     st1.2 = [1] ∧ st2.2 = [] ∧ st3.2 = [1]).
Proof.
  intros st.
  destruct (held_is_live_run simulate ops _
              (held_is_live_init simulate num_engines)) as [Hnd Hlive].
  fold st in Hnd, Hlive.
  split; [done|]. split; [done|]. split.
  - intros arg env. simpl.
    pose proof (ai_ioctl_alloc_cases simulate st.1 arg env) as Hc.
    destruct (ai_ioctl_alloc simulate st.1 arg env) as [[ret dev'] arg'].
    simpl in Hc.
    destruct Hc as [(-> & h & buf & _ & Hfree & _ & <- & _)|(Hneg & _)].
    + simpl. rewrite Hlive, Hfree. by intros [? ?].
    + destruct (ret =? 0) eqn:E; [apply Z.eqb_eq in E; lia|done].
  - destruct simulate; vm_compute; done.
Qed.

(** C10.  A handle issued by a successful buffer allocation or model load
    is strictly positive: 0 is never issued. *)
Theorem issued_handles_positive (simulate : bool) (dev : ai_device)
    (op : issue_op) (h : Z) :
  issued_handle simulate dev op = Some h → 0 < h.
Proof.
  destruct op as [arg env|arg env]; simpl.
  - pose proof (ai_ioctl_alloc_cases simulate dev arg env) as Hc.
    destruct (ai_ioctl_alloc simulate dev arg env) as [[ret dev'] arg'].
    simpl in Hc.
    destruct Hc as [(-> & h' & buf & Hr & _ & _ & <- & _)|(Hneg & _)].
    + simpl. intros [= <-]. lia.
    + destruct (ret =? 0) eqn:E; [apply Z.eqb_eq in E; lia|done].
  - pose proof (ai_ioctl_load_model_cases dev arg env) as Hc.
    destruct (ai_ioctl_load_model dev arg env) as [[ret dev'] arg'].
    simpl in Hc.
    destruct Hc as [(-> & h' & model & Hr & _ & <- & _)|(Hneg & _)].
    + simpl. intros [= <-]. lia.
    + destruct (ret =? 0) eqn:E; [apply Z.eqb_eq in E; lia|done].
Qed.

Lemma issued_handles_positive_witness :
  issued_handle true dev_init (IssueModel load_1k load_env_ok) = Some 1
  ∧ 0 < 1.
Proof.
  assert (H : issued_handle true dev_init (IssueModel load_1k load_env_ok)
              = Some 1) by (vm_compute; reflexivity).
  split; [exact H|].
  exact (issued_handles_positive true dev_init
           (IssueModel load_1k load_env_ok) 1 H).
Defined.

End HandleTable.

(** ** Inference submission and the fence counter *)

Module Fence.
Import Errno CInt Idr Accel Scenario CIntFacts AccelFacts.

(** A submission whose handles resolve and whose user copies succeed:
    the counter is incremented once (as an [int]) and the fence handed back
    is the new counter value read as [u64]. *)
Lemma ai_ioctl_submit_ok dev req :
  handles_resolve dev req →
  ai_ioctl_submit dev req true true =
    (0,
     {| buffer_idr := buffer_idr dev;
        model_idr := model_idr dev;
        fence_counter := wrap_s32 (fence_counter dev + 1);
        caps := caps dev;
        total_inferences := wrap_s64 (total_inferences dev + 1);
        total_bytes_processed :=
          wrap_s64 (total_bytes_processed dev
                    + wrap_u32 (inf_input_size req + inf_output_size req)) |},
     set_inf_fence req (wrap_u64 (wrap_s32 (fence_counter dev + 1)))).
Proof.
  intros ([m Hm] & [bi Hi] & [bo Ho]).
  unfold ai_ioctl_submit, idr_find, atomic_inc_return. simpl.
  rewrite Hm, Hi, Ho. reflexivity.
Qed.

Lemma after_submits_succ n dev req :
  after_submits (N.succ n) dev req = after_submit req (after_submits n dev req).
Proof. unfold after_submits. apply N.iter_succ. Qed.

(** After [n] successful submissions the handles still resolve and the
    counter is [n] steps further, modulo 2^32. *)
Lemma after_submits_counter dev req (n : N) :
  handles_resolve dev req →
  INT_MIN <= fence_counter dev <= INT_MAX →
  handles_resolve (after_submits n dev req) req
  ∧ fence_counter (after_submits n dev req)
    = wrap_s32 (fence_counter dev + Z.of_N n).
Proof.
  intros Hres Hrange. induction n as [|n [IHres IHc]] using N.peano_ind.
  - split; [done|]. simpl. rewrite Z.add_0_r. symmetry.
    apply wrap_s32_small. unfold INT_MIN, INT_MAX in Hrange. lia.
  - rewrite after_submits_succ. unfold after_submit.
    rewrite (ai_ioctl_submit_ok _ _ IHres). simpl. split.
    + exact IHres.
    + rewrite IHc, wrap_s32_succ. f_equal. lia.
Qed.

(** The fence reported by submission number [n + 1]. *)
Lemma nth_fence_closed dev req (n : N) :
  handles_resolve dev req →
  INT_MIN <= fence_counter dev <= INT_MAX →
  nth_fence n dev req
  = (0, wrap_u64 (wrap_s32 (fence_counter dev + Z.of_N n + 1))).
Proof.
  intros Hres Hrange. unfold nth_fence.
  destruct (after_submits_counter dev req n Hres Hrange) as [Hres' Hc].
  rewrite (ai_ioctl_submit_ok _ _ Hres'). simpl.
  by rewrite Hc, wrap_s32_succ.
Qed.

Lemma dev_ready_resolves : handles_resolve dev_ready infer_req.
Proof. repeat split; vm_compute; eauto. Qed.

Lemma dev_ready_counter : fence_counter dev_ready = 0.
Proof. vm_compute. reflexivity. Qed.

(** The counter value [x] of an [int] counter that started at 0, read as
    [u64], for the first 2^32 - 1 increments. *)
Lemma fence_of_count (x : Z) :
  0 < x < 2 ^ 32 →
  wrap_u64 (wrap_s32 x) = if x <? 2 ^ 31 then x else x + (2 ^ 64 - 2 ^ 32).
Proof.
  intros Hx. destruct (x <? 2 ^ 31) eqn:E.
  - apply Z.ltb_lt in E. rewrite wrap_s32_small, wrap_u64_small; lia.
  - apply Z.ltb_ge in E.
    assert (Hs : wrap_s32 x = x - 2 ^ 32).
    { unfold wrap_s32.
      rewrite <- (Z.mod_unique_pos (x + 2 ^ 31) (2 ^ 32) 1 (x + 2 ^ 31 - 2 ^ 32))
        by lia.
      lia. }
    rewrite Hs, s32_to_u64 by lia.
    destruct (x - 2 ^ 32 <? 0) eqn:E2; [lia|apply Z.ltb_ge in E2; lia].
Qed.

(** Below the wrap the fences do increase: among the first 2^32 - 1
    submissions on a fresh counter, a later one reports a larger fence. *)
Lemma fences_increase_before_wrap dev req (n m : N) :
  handles_resolve dev req →
  fence_counter dev = 0 →
  (n < m)%N → (m < 2 ^ 32 - 1)%N →
  (nth_fence n dev req).1 = 0 ∧ (nth_fence m dev req).1 = 0
  ∧ (nth_fence n dev req).2 < (nth_fence m dev req).2.
Proof.
  intros Hres Hc Hnm Hm.
  assert (Hrange : INT_MIN <= fence_counter dev <= INT_MAX).
  { rewrite Hc. unfold INT_MIN, INT_MAX. lia. }
  rewrite !nth_fence_closed by done. rewrite Hc. simpl.
  split; [done|]. split; [done|].
  assert (Hm' : Z.of_N m < 2 ^ 32 - 1).
  { change (2 ^ 32 - 1) with (Z.of_N (2 ^ 32 - 1)). lia. }
  rewrite !fence_of_count by lia.
  destruct (Z.ltb_spec (0 + Z.of_N n + 1) (2 ^ 31));
    destruct (Z.ltb_spec (0 + Z.of_N m + 1) (2 ^ 31)); lia.
Qed.

(** C3.  A submission in which one of the three handles does not name a
    live resource issues no fence: the device, and with it the fence
    counter, is unchanged, and once the request was read the call returns
    [-EINVAL] (the driver's code for an invalid handle). *)
Theorem submit_invalid_handle_issues_no_fence (dev : ai_device)
    (arg : ai_inference_request) (copy_in_ok copy_out_ok : bool) :
  model_idr dev !! inf_model_handle arg = None
  ∨ buffer_idr dev !! inf_input_handle arg = None
  ∨ buffer_idr dev !! inf_output_handle arg = None →
  ai_ioctl_submit dev arg copy_in_ok copy_out_ok
  = (if copy_in_ok then - EINVAL else - EFAULT, dev, arg)
  ∧ fence_counter (ai_ioctl_submit dev arg copy_in_ok copy_out_ok).1.2
    = fence_counter dev.
Proof.
  intros Hbad.
  assert (Heq : ai_ioctl_submit dev arg copy_in_ok copy_out_ok
                = (if copy_in_ok then - EINVAL else - EFAULT, dev, arg)).
  { unfold ai_ioctl_submit, idr_find. destruct copy_in_ok; simpl; [|done].
    destruct Hbad as [H|[H|H]]; rewrite H; simpl.
    - reflexivity.
    - by rewrite orb_true_r.
    - by rewrite orb_true_r. }
  split; [exact Heq|]. by rewrite Heq.
Qed.

Lemma submit_invalid_handle_issues_no_fence_witness :
  ai_ioctl_submit dev_ready infer_req_unknown_model true true
  = (- EINVAL, dev_ready, infer_req_unknown_model)
  ∧ fence_counter
      (ai_ioctl_submit dev_ready infer_req_unknown_model true true).1.2
    = fence_counter dev_ready.
Proof.
  apply (submit_invalid_handle_issues_no_fence
           dev_ready infer_req_unknown_model true true).
  left. vm_compute. reflexivity.
Defined.

(** C2 (fails on the code).  The fence is a [u64], the counter behind it a
    32-bit [atomic_t].  On a device with live handles the first submission
    reports fence 1.  After 2^31 - 1 submissions the counter is [INT_MAX];
    the next one takes it to [INT_MIN] (the counter decreases), and the
    fence, its [u64] reading, jumps to 2^64 - 2^31 and keeps growing up to
    2^64 - 1 at submission 2^32 - 1.  Submission 2^32 reports fence 0,
    smaller than every fence before it, and submission 2^32 + 1 reports
    fence 1 a second time. *)
Theorem fence_repeats_after_counter_wrap :
  nth_fence 0 dev_ready infer_req = (0, 1)
  ∧ fence_counter (after_submits (2 ^ 31 - 1) dev_ready infer_req) = INT_MAX
  ∧ fence_counter (after_submits (2 ^ 31) dev_ready infer_req) = INT_MIN
  ∧ nth_fence (2 ^ 31 - 1) dev_ready infer_req = (0, 2 ^ 64 - 2 ^ 31)
  ∧ nth_fence (2 ^ 32 - 2) dev_ready infer_req = (0, 2 ^ 64 - 1)
  ∧ nth_fence (2 ^ 32 - 1) dev_ready infer_req = (0, 0)
  ∧ nth_fence (2 ^ 32) dev_ready infer_req = (0, 1).
Proof.
  assert (Hrange : INT_MIN <= fence_counter dev_ready <= INT_MAX).
  { rewrite dev_ready_counter. unfold INT_MIN, INT_MAX. lia. }
  pose proof (λ n, nth_fence_closed dev_ready infer_req n
                     dev_ready_resolves Hrange) as Hfence.
  pose proof (λ n, proj2 (after_submits_counter dev_ready infer_req n
                            dev_ready_resolves Hrange)) as Hcount.
  rewrite dev_ready_counter in Hfence, Hcount.
  rewrite (Hfence 0%N), (Hfence (2 ^ 31 - 1)%N), (Hfence (2 ^ 32 - 2)%N),
    (Hfence (2 ^ 32 - 1)%N), (Hfence (2 ^ 32)%N),
    (Hcount (2 ^ 31 - 1)%N), (Hcount (2 ^ 31)%N).
  clear Hfence Hcount.
  repeat split; vm_compute; reflexivity.
Qed.

End Fence.

(** ** Scatter-gather construction *)

Module Scatter.
Import Errno CInt Dma Scenario CIntFacts.

(** Freeing the allocation made last gives back the previous live set. *)
Lemma live_release (X : gset N) : ({[ fresh X ]} ∪ X) ∖ {[ fresh X ]} = X.
Proof.
  apply set_eq. intros x.
  rewrite elem_of_difference, elem_of_union, !elem_of_singleton.
  pose proof (is_fresh X) as Hfresh.
  split; [tauto|].
  intros Hx. split; [by right|]. by intros ->.
Qed.

(** Unpinning every page of the list that was pinned gives back the
    previous pin counts. *)
Lemma pinned_release (P : gmultiset Z) (pages : list Z) (n : nat) :
  (length pages ≤ n)%nat →
  (P ⊎ list_to_set_disj pages) ∖ list_to_set_disj (take n pages) = P.
Proof.
  intros Hn. rewrite take_ge by done.
  apply gmultiset_eq. intros x.
  rewrite multiplicity_difference, multiplicity_disj_union. lia.
Qed.

Lemma length_pinned_pages (start ret : Z) :
  length ((λ j, start / PAGE_SIZE + j) <$> seqZ 0 ret) = Z.to_nat ret.
Proof. by rewrite length_fmap, length_seqZ. Qed.

Lemma kmem_eta (k : kmem) : {| live := live k; pinned := pinned k |} = k.
Proof. by destruct k. Qed.

(** Every error exit of [ai_dma_map_user_buffer] is taken with the memory
    state it was entered with. *)
Lemma map_user_buffer_error_restores user_addr size dir env k e :
  (ai_dma_map_user_buffer user_addr size dir env k).1 = inl e →
  (ai_dma_map_user_buffer user_addr size dir env k).2 = k.
Proof.
  unfold ai_dma_map_user_buffer, kbind, kret, kalloc, kfree,
    pin_user_pages_fast, unpin_user_pages.
  generalize (nr_pages_of user_addr size). intros n.
  destruct (me_kzalloc_ok env); [|done].
  destruct (me_pages_ok env); simpl.
  2:{ intros _. rewrite live_release. apply kmem_eta. }
  destruct (me_pin_answer env <? 0) eqn:Hneg; simpl.
  { rewrite Hneg. simpl. intros _. rewrite !live_release. apply kmem_eta. }
  destruct (Z.min (me_pin_answer env) (Z.max n 0) <? 0) eqn:Hret; simpl.
  { apply Z.ltb_lt in Hret. apply Z.ltb_ge in Hneg. lia. }
  destruct (Z.min (me_pin_answer env) (Z.max n 0) =? n) eqn:Hall; simpl.
  2:{ intros _. rewrite !live_release, pinned_release.
      - apply kmem_eta.
      - by rewrite length_pinned_pages. }
  apply Z.eqb_eq in Hall.
  destruct (me_sg_ok env); simpl.
  2:{ intros _. rewrite !live_release, pinned_release.
      - apply kmem_eta.
      - rewrite length_pinned_pages. lia. }
  destruct (me_map_sg env =? 0); simpl; [|done].
  intros _. rewrite !live_release, pinned_release.
  - apply kmem_eta.
  - rewrite length_pinned_pages. lia.
Qed.

(** On success the descriptor and its segment array stay allocated and
    the pages stay pinned: a three-page region on top of [kmem_busy]. *)
Lemma map_user_buffer_success_holds :
  let r := ai_dma_map_user_buffer 4196 10000 DMA_TO_DEVICE (map_env_of 3 3)
             kmem_busy in
  (∃ buf, r.1 = inr buf ∧ dbuf_sg_count buf = 3
          ∧ sg_total (dbuf_sg buf) = 10000)
  ∧ pinned r.2 = pinned kmem_busy ⊎ {[+ 1; 2; 3 +]}
  ∧ live r.2 = live kmem_busy ∪ {[ 6%N; 8%N ]}.
Proof.
  split; [eexists; split; [vm_compute; reflexivity|]; split; reflexivity|].
  split; vm_compute; reflexivity.
Qed.

Lemma pair_eta {A B} (p : A * B) (a : A) (b : B) :
  p.1 = a → p.2 = b → p = (a, b).
Proof. destruct p. simpl. by intros -> ->. Qed.

(** C6.  Mapping a user buffer either succeeds or leaves nothing behind:
    on every error exit the set of live allocations and the pin counts are
    what they were on entry.  In particular, when fewer pages pin than
    requested the call fails with [-EFAULT] with the pinned ones unpinned,
    and when [dma_map_sg] maps no entry it fails with [-EIO] with all pages
    unpinned. *)
Theorem map_user_buffer_atomic (user_addr size : Z)
    (dir : dma_data_direction) (env : map_env) (k : kmem) :
  let r := ai_dma_map_user_buffer user_addr size dir env k in
  let nr_pages := nr_pages_of user_addr size in
  (∀ e, r.1 = inl e → r.2 = k)
  ∧ (me_kzalloc_ok env = true → me_pages_ok env = true →
     0 <= me_pin_answer env < nr_pages →
     r = (inl (- EFAULT), k))
  ∧ (me_kzalloc_ok env = true → me_pages_ok env = true →
     me_sg_ok env = true →
     0 <= nr_pages <= me_pin_answer env →
     me_map_sg env = 0 →
     r = (inl (- EIO), k)).
Proof.
  intros r nr_pages.
  assert (Hclean : ∀ e, r.1 = inl e → r.2 = k).
  { intros e. apply map_user_buffer_error_restores. }
  split; [exact Hclean|]. split.
  - intros Hkz Hpg Hpin.
    assert (Hr : r.1 = inl (- EFAULT)).
    { unfold r, ai_dma_map_user_buffer, kbind, kret, kalloc, kfree,
        pin_user_pages_fast, unpin_user_pages.
      fold nr_pages. rewrite Hkz, Hpg. simpl.
      destruct (me_pin_answer env <? 0) eqn:E1; [apply Z.ltb_lt in E1; lia|].
      simpl.
      destruct (Z.min _ _ <? 0) eqn:E2; [apply Z.ltb_lt in E2; lia|].
      destruct (Z.min _ _ =? nr_pages) eqn:E3; [apply Z.eqb_eq in E3; lia|].
      reflexivity. }
    apply pair_eta; [exact Hr|]. exact (Hclean _ Hr).
  - intros Hkz Hpg Hsg Hpin Hmap.
    assert (Hr : r.1 = inl (- EIO)).
    { unfold r, ai_dma_map_user_buffer, kbind, kret, kalloc, kfree,
        pin_user_pages_fast, unpin_user_pages.
      fold nr_pages. rewrite Hkz, Hpg, Hsg, Hmap. simpl.
      destruct (me_pin_answer env <? 0) eqn:E1; [apply Z.ltb_lt in E1; lia|].
      simpl.
      destruct (Z.min _ _ <? 0) eqn:E2; [apply Z.ltb_lt in E2; lia|].
      destruct (Z.min _ _ =? nr_pages) eqn:E3; [|apply Z.eqb_neq in E3; lia].
      reflexivity. }
    apply pair_eta; [exact Hr|]. exact (Hclean _ Hr).
Qed.

Lemma map_user_buffer_atomic_witness :
  ai_dma_map_user_buffer 4196 10000 DMA_TO_DEVICE (map_env_of 2 0) kmem_busy
  = (inl (- EFAULT), kmem_busy)
  ∧ ai_dma_map_user_buffer 4196 10000 DMA_TO_DEVICE (map_env_of 3 0) kmem_busy
    = (inl (- EIO), kmem_busy).
Proof.
  assert (Hn : nr_pages_of 4196 10000 = 3) by (vm_compute; reflexivity).
  split.
  - apply (proj1 (proj2 (map_user_buffer_atomic 4196 10000 DMA_TO_DEVICE
                           (map_env_of 2 0) kmem_busy)));
      [reflexivity|reflexivity|].
    rewrite Hn. simpl. lia.
  - apply (proj2 (proj2 (map_user_buffer_atomic 4196 10000 DMA_TO_DEVICE
                           (map_env_of 3 0) kmem_busy)));
      [reflexivity|reflexivity|reflexivity| |reflexivity].
    rewrite Hn. simpl. lia.
Defined.

(** *** The segment list *)

Lemma offset_in_page_mod (p : Z) : offset_in_page p = p mod 4096.
Proof.
  unfold offset_in_page. change (PAGE_SIZE - 1) with (Z.ones 12).
  by rewrite Z.land_ones.
Qed.

Lemma offset_in_page_range (p : Z) : 0 <= offset_in_page p < 4096.
Proof. rewrite offset_in_page_mod. by apply Z.mod_pos_bound. Qed.

(** Segment 0 as the loop body computes it: the page offset of the region,
    and the smaller of the room left in the page and
    [size + offset] (the subtraction in line 219 yields [size + offset] for
    [i = 0], not [size]). *)
Lemma sg_entry_first (user_addr size page : Z) :
  0 < size → size + offset_in_page user_addr < 2 ^ 63 →
  sg_entry user_addr size 0 page
  = {| sg_page := page;
       sg_offset := offset_in_page user_addr;
       sg_length := Z.min (4096 - offset_in_page user_addr)
                          (size + offset_in_page user_addr) |}.
Proof.
  intros Hsize Hbound. pose proof (offset_in_page_range user_addr) as Hoff.
  unfold sg_entry. rewrite Z.eqb_refl. f_equal.
  - apply wrap_u32_small. lia.
  - change PAGE_SIZE with 4096.
    rewrite (wrap_u32_small (offset_in_page user_addr)) by lia.
    rewrite (wrap_u64_small (4096 - _)) by lia.
    assert (Hrem : wrap_u64 (size - wrap_u64 (wrap_u64 (0 * 4096)
                                               - offset_in_page user_addr))
                   = size + offset_in_page user_addr).
    { unfold wrap_u64 at 1 2. rewrite Zminus_mod_idemp_r.
      rewrite (wrap_u64_small (0 * 4096)) by lia.
      replace (size - (0 * 4096 - offset_in_page user_addr))
        with (size + offset_in_page user_addr) by lia.
      apply Z.mod_small. lia. }
    rewrite Hrem. apply wrap_u32_small. lia.
Qed.

(** A later segment starts at offset 0 and takes a whole page or what is
    left of the region. *)
Lemma sg_entry_later (user_addr size i page : Z) :
  1 <= i → i * 4096 < size + offset_in_page user_addr →
  size + offset_in_page user_addr < 2 ^ 63 →
  sg_entry user_addr size i page
  = {| sg_page := page;
       sg_offset := 0;
       sg_length := Z.min 4096 (size + offset_in_page user_addr - i * 4096) |}.
Proof.
  intros Hi Hlt Hbound. pose proof (offset_in_page_range user_addr) as Hoff.
  unfold sg_entry. destruct (i =? 0) eqn:E; [apply Z.eqb_eq in E; lia|].
  f_equal. change PAGE_SIZE with 4096.
  rewrite (wrap_u32_small 0) by lia.
  rewrite (wrap_u64_small (4096 - 0)) by lia.
  rewrite (wrap_u64_small (i * 4096)) by lia.
  rewrite (wrap_u64_small (i * 4096 - _)) by lia.
  rewrite (wrap_u64_small (size - _)) by lia.
  replace (size - (i * 4096 - offset_in_page user_addr))
    with (size + offset_in_page user_addr - i * 4096) by lia.
  rewrite Z.sub_0_r. apply wrap_u32_small. lia.
Qed.

Lemma sg_total_cons (e : scatterlist) (sg : list scatterlist) :
  sg_total (e :: sg) = sg_length e + sg_total sg.
Proof. reflexivity. Qed.

Lemma fill_sg_cons (user_addr size i page : Z) (rest : list Z) :
  fill_sg user_addr size i (page :: rest)
  = sg_entry user_addr size i page :: fill_sg user_addr size (i + 1) rest.
Proof. reflexivity. Qed.

(** Total length of the segments from index [i >= 1] to the end. *)
Lemma sg_total_tail (user_addr size : Z) (pages : list Z) : ∀ i,
  1 <= i → pages ≠ [] →
  (i + Z.of_nat (length pages) - 1) * 4096 < size + offset_in_page user_addr →
  size + offset_in_page user_addr <= (i + Z.of_nat (length pages)) * 4096 →
  size + offset_in_page user_addr < 2 ^ 63 →
  sg_total (fill_sg user_addr size i pages)
  = size + offset_in_page user_addr - i * 4096.
Proof.
  induction pages as [|page rest IH]; intros i Hi Hne Hlo Hhi Hbound; [done|].
  rewrite fill_sg_cons, sg_total_cons.
  simpl length in Hlo, Hhi.
  rewrite sg_entry_later by lia. cbn [sg_length].
  destruct rest as [|page' rest'].
  - cbn [fill_sg length] in *. change (sg_total []) with 0. lia.
  - cbn [length] in *. rewrite IH; [lia|lia|done|lia|lia|lia].
Qed.

(** Later segments all start at offset 0. *)
Lemma fill_sg_later_offsets (user_addr size : Z) (pages : list Z) : ∀ i,
  1 <= i → Forall (λ e, sg_offset e = 0) (fill_sg user_addr size i pages).
Proof.
  induction pages as [|page rest IH]; intros i Hi; simpl; constructor.
  - unfold sg_entry. simpl.
    destruct (i =? 0) eqn:E; [apply Z.eqb_eq in E; lia|done].
  - apply IH. lia.
Qed.

(** The page count, when the region does not overflow an [int] count. *)
Lemma nr_pages_of_small (user_addr size : Z) :
  0 < size → size + offset_in_page user_addr < 2 ^ 43 - 4096 →
  nr_pages_of user_addr size
  = (size + offset_in_page user_addr + 4095) / 4096.
Proof.
  intros Hsize Hbound. pose proof (offset_in_page_range user_addr) as Hoff.
  unfold nr_pages_of, DIV_ROUND_UP. change PAGE_SIZE with 4096.
  rewrite (wrap_u64_small (size + _)) by lia.
  rewrite (wrap_u64_small (size + _ + 4096)) by lia.
  rewrite (wrap_u64_small (size + _ + 4096 - 1)) by lia.
  replace (size + offset_in_page user_addr + 4096 - 1)
    with (size + offset_in_page user_addr + 4095) by lia.
  apply wrap_s32_small.
  split.
  - transitivity 0; [lia|]. apply Z.div_pos; lia.
  - apply Z.div_lt_upper_bound; lia.
Qed.

(** What the segment lengths add up to.  The sum is the requested length
    plus an excess that is non-zero exactly when the region starts inside
    a page and ends before the end of that page. *)
Lemma sg_total_formula (user_addr size : Z) (pages : list Z) :
  0 < size → size + offset_in_page user_addr < 2 ^ 43 - 4096 →
  length pages = Z.to_nat (nr_pages_of user_addr size) →
  sg_total (fill_sg user_addr size 0 pages)
  = size + Z.max 0 (Z.min (offset_in_page user_addr)
                          (4096 - offset_in_page user_addr - size)).
Proof.
  intros Hsize Hbound Hlen. pose proof (offset_in_page_range user_addr) as Hoff.
  rewrite nr_pages_of_small in Hlen by done.
  set (off := offset_in_page user_addr) in *.
  assert (Hk : 4096 * ((size + off + 4095) / 4096) <= size + off + 4095
               < 4096 * ((size + off + 4095) / 4096) + 4096).
  { pose proof (Z.mul_div_le (size + off + 4095) 4096 ltac:(lia)).
    pose proof (Z.mul_succ_div_gt (size + off + 4095) 4096 ltac:(lia)). lia. }
  destruct pages as [|page rest].
  { simpl in Hlen. lia. }
  rewrite fill_sg_cons, sg_total_cons.
  rewrite sg_entry_first by (fold off; lia). cbn [sg_length]. fold off.
  simpl length in Hlen.
  destruct rest as [|page' rest'].
  - cbn [fill_sg length] in *. change (sg_total []) with 0. lia.
  - cbn [length] in *.
    rewrite sg_total_tail; fold off; cbn [length]; [lia|lia|done|lia|lia|lia].
Qed.

(** Hence the sum is the requested length when the region starts on a page
    boundary or reaches the end of its first page. *)
Lemma sg_total_exact (user_addr size : Z) (pages : list Z) :
  0 < size → size + offset_in_page user_addr < 2 ^ 43 - 4096 →
  length pages = Z.to_nat (nr_pages_of user_addr size) →
  offset_in_page user_addr = 0 ∨ 4096 - offset_in_page user_addr <= size →
  sg_total (fill_sg user_addr size 0 pages) = size.
Proof.
  intros Hsize Hbound Hlen Hfill.
  rewrite sg_total_formula by done.
  pose proof (offset_in_page_range user_addr). lia.
Qed.

(** C5 (fails on the code).  A 50-byte region starting 100 bytes into a
    page is mapped as one segment with offset 100 whose length is 150: the
    segment lengths do not add up to the requested 50 bytes and the last
    (only) segment is not clipped to the remaining byte count.  Offsets are
    as stated: only segment 0 carries one. *)
Theorem sg_single_page_overcounts :
  nr_pages_of 4196 50 = 1
  ∧ offset_in_page 4196 = 100
  ∧ (ai_dma_map_user_buffer 4196 50 DMA_TO_DEVICE (map_env_of 1 1) kmem_busy).1
    = inr {| dbuf_self := 6%N; dbuf_size := 50; dbuf_dir := DMA_TO_DEVICE;
             dbuf_sg_ptr := 8%N;
             dbuf_sg := [ {| sg_page := 1; sg_offset := 100;
                             sg_length := 150 |} ];
             dbuf_sg_count := 1; dbuf_mapped := true |}
  ∧ sg_total (fill_sg 4196 50 0 [1]) = 150
  ∧ sg_total (fill_sg 4196 50 0 [1]) ≠ 50.
Proof.
  split; [vm_compute; reflexivity|].
  split; [vm_compute; reflexivity|].
  split; [vm_compute; reflexivity|].
  split; [vm_compute; reflexivity|].
  vm_compute. discriminate.
Qed.

End Scatter.

(** ** The channel pool and transfers *)

Module Channels.
Import Errno CInt Dma Scenario.

(** The three ways the loop test rejects a slot. *)
Lemma slot_rejected p i :
  test_bit i (channel_bitmap p) = false
  ∨ dma_channels p !! i = None
  ∨ dma_channels p !! i = Some None →
  ¬ channel_usable p i.
Proof.
  intros [Hbit|[Hch|Hch]] [Hb Hs].
  - congruence.
  - rewrite Hch in Hs. by destruct Hs.
  - rewrite Hch in Hs. by destruct Hs.
Qed.

(** One step of the search: either slot [i] is taken, or it is rejected
    and the search goes on behind it. *)
Lemma find_channel_from_step p i n :
  (∃ chan, test_bit i (channel_bitmap p) = true
           ∧ dma_channels p !! i = Some (Some chan)
           ∧ find_channel_from p i (S n) = Some (i, chan))
  ∨ (¬ channel_usable p i
     ∧ find_channel_from p i (S n) = find_channel_from p (S i) n).
Proof.
  simpl. destruct (test_bit i (channel_bitmap p)) eqn:Hbit.
  - destruct (dma_channels p !! i) as [[chan|]|] eqn:Hch.
    + left. by exists chan.
    + right. split; [|done]. apply slot_rejected. auto.
    + right. split; [|done]. apply slot_rejected. auto.
  - right. split; [|done]. apply slot_rejected. auto.
Qed.

(** The search loop returns the first usable slot of the range it scans. *)
Lemma find_channel_from_some p : ∀ n i j chan,
  find_channel_from p i n = Some (j, chan) →
  (i ≤ j < i + n)%nat
  ∧ test_bit j (channel_bitmap p) = true
  ∧ dma_channels p !! j = Some (Some chan)
  ∧ ∀ j', (i ≤ j' < j)%nat → ¬ channel_usable p j'.
Proof.
  induction n as [|n IH]; intros i j chan; [done|].
  destruct (find_channel_from_step p i n)
    as [(c & Hbit & Hch & ->)|(Hrej & ->)].
  - intros [= <- <-]. split; [lia|]. split; [done|]. split; [done|].
    intros j' Hj'. lia.
  - intros Hrec. destruct (IH _ _ _ Hrec) as (Hr & Hb & Hc & Hmin).
    split; [lia|]. split; [done|]. split; [done|].
    intros j' Hj'. destruct (decide (j' = i)) as [->|]; [done|].
    apply Hmin. lia.
Qed.

(** It finds nothing exactly when no slot of the range is usable. *)
Lemma find_channel_from_none p : ∀ n i,
  find_channel_from p i n = None ↔
  ∀ j, (i ≤ j < i + n)%nat → ¬ channel_usable p j.
Proof.
  induction n as [|n IH]; intros i.
  - simpl. split; [intros _ j Hj; lia|done].
  - destruct (find_channel_from_step p i n)
      as [(c & Hbit & Hch & ->)|(Hrej & ->)].
    + split; [done|]. intros Hnone. exfalso. apply (Hnone i); [lia|].
      split; [done|]. rewrite Hch. simpl. by eexists.
    + rewrite IH. split.
      * intros Hn j Hj. destruct (decide (j = i)) as [->|]; [done|].
        apply Hn. lia.
      * intros Hn j Hj. apply Hn. lia.
Qed.

(** The search reads the bitmap and the channel table only. *)
Lemma find_channel_from_ext p q : ∀ n i,
  channel_bitmap q = channel_bitmap p → dma_channels q = dma_channels p →
  find_channel_from q i n = find_channel_from p i n.
Proof.
  induction n as [|n IH]; intros i Hb Hc; simpl; [done|].
  rewrite Hb, Hc, IH by done. reflexivity.
Qed.

Lemma free_channels_ext p q :
  channel_bitmap q = channel_bitmap p → dma_channels q = dma_channels p →
  free_channels q = free_channels p.
Proof.
  intros Hb Hc. unfold free_channels. apply list_filter_iff.
  intros i. unfold channel_usable. by rewrite Hb, Hc.
Qed.

(** No transfer writes the bitmap or the channel table. *)
Lemma transfer_sync_keeps_pool p env :
  channel_bitmap (ai_dma_transfer_sync p env).2 = channel_bitmap p
  ∧ dma_channels (ai_dma_transfer_sync p env).2 = dma_channels p.
Proof.
  unfold ai_dma_transfer_sync.
  destruct (find_channel p) as [[i chan]|]; [|done].
  destruct (negb (se_prep_ok env)); [done|].
  destruct (negb (dma_submit_error (se_cookie env) =? 0)); [done|].
  by destruct (se_completed env).
Qed.

Lemma transfer_async_keeps_pool p prep_ok cookie :
  channel_bitmap (ai_dma_transfer_async p prep_ok cookie).2 = channel_bitmap p
  ∧ dma_channels (ai_dma_transfer_async p prep_ok cookie).2 = dma_channels p.
Proof.
  unfold ai_dma_transfer_async.
  destruct (find_channel p) as [[i chan]|]; [|done].
  destruct (negb prep_ok); [done|].
  by destruct (dma_submit_error cookie =? 0).
Qed.

Lemma find_channel_ext p q :
  channel_bitmap q = channel_bitmap p → dma_channels q = dma_channels p →
  find_channel q = find_channel p.
Proof. intros. unfold find_channel. by apply find_channel_from_ext. Qed.

Lemma ai_dma_init_slots granted :
  length (dma_channels (ai_dma_init granted).2) = AI_DMA_CHANNELS.
Proof. unfold ai_dma_init. simpl. reflexivity. Qed.

(** C7 (fails on the code).  On a pool with all four channels initialised,
    two asynchronous transfers issued back to back are both given channel 0
    while the first is still in flight, so the channel has two owners at a
    time; and with four transfers in flight a fifth is accepted as well,
    again on channel 0, instead of failing for want of a free channel.  The
    bitmap that tells free from busy channels is consulted by the search but
    no transfer ever clears or sets a bit in it. *)
Theorem channel_handed_to_second_transfer :
  let r1 := ai_dma_transfer_async pool_ready true 1 in
  let r2 := ai_dma_transfer_async r1.2 true 2 in
  let r3 := ai_dma_transfer_async r2.2 true 3 in
  let r4 := ai_dma_transfer_async r3.2 true 4 in
  let r5 := ai_dma_transfer_async r4.2 true 5 in
  free_channels pool_ready = [0; 1; 2; 3]%nat
  ∧ r1.1 = 1 ∧ r2.1 = 2
  ∧ in_flight r2.2 = [(0%nat, 1); (0%nat, 2)]
  ∧ in_flight r4.2 = [(0%nat, 1); (0%nat, 2); (0%nat, 3); (0%nat, 4)]
  ∧ r5.1 = 5
  ∧ r5.1 ≠ - ENODEV
  ∧ in_flight r5.2
    = [(0%nat, 1); (0%nat, 2); (0%nat, 3); (0%nat, 4); (0%nat, 5)].
Proof.
  repeat split; try (vm_compute; reflexivity).
  vm_compute. discriminate.
Qed.

(** The extent of the defect, for every pool and every transfer.  The
    search returns the lowest-numbered slot whose bitmap bit is set and
    whose channel pointer is non-NULL, and neither transfer routine writes
    the bitmap or the channel table: the same channel is found again by the
    next search, whatever is in flight on it, and the list of free channels
    is the same after a transfer as before.  A transfer is refused with
    [-ENODEV] only when no slot was ever initialised. *)
Lemma channels_selected_not_leased (p : dma_pool) (env : sync_env)
    (prep_ok : bool) (cookie : Z) :
  let ps := (ai_dma_transfer_sync p env).2 in
  let pa := (ai_dma_transfer_async p prep_ok cookie).2 in
  AI_DMA_CHANNELS = 4%nat
  ∧ (∀ granted, length (dma_channels (ai_dma_init granted).2) = AI_DMA_CHANNELS)
  ∧ (channel_bitmap ps = channel_bitmap p ∧ dma_channels ps = dma_channels p)
  ∧ (channel_bitmap pa = channel_bitmap p ∧ dma_channels pa = dma_channels p)
  ∧ (find_channel ps = find_channel p ∧ find_channel pa = find_channel p)
  ∧ (free_channels ps = free_channels p ∧ free_channels pa = free_channels p)
  ∧ match find_channel p with
    | Some (i, chan) =>
        (i < AI_DMA_CHANNELS)%nat
        ∧ channel_usable p i
        ∧ dma_channels p !! i = Some (Some chan)
        ∧ (∀ j, (j < i)%nat → ¬ channel_usable p j)
    | None =>
        (∀ j, (j < AI_DMA_CHANNELS)%nat → ¬ channel_usable p j)
        ∧ (ai_dma_transfer_sync p env).1 = - ENODEV
        ∧ (ai_dma_transfer_async p prep_ok cookie).1 = - ENODEV
    end.
Proof.
  intros ps pa.
  destruct (transfer_sync_keeps_pool p env) as [Hsb Hsc].
  destruct (transfer_async_keeps_pool p prep_ok cookie) as [Hab Hac].
  fold ps in Hsb, Hsc. fold pa in Hab, Hac.
  split; [reflexivity|].
  split; [apply ai_dma_init_slots|].
  split; [done|]. split; [done|].
  split; [split; by apply find_channel_ext|].
  split; [split; by apply free_channels_ext|].
  destruct (find_channel p) as [[i chan]|] eqn:Hfind.
  - destruct (find_channel_from_some p _ _ _ _ Hfind) as (Hr & Hb & Hc & Hmin).
    split; [lia|]. split.
    { split; [done|]. rewrite Hc. simpl. by eexists. }
    split; [done|]. intros j Hj. apply Hmin. lia.
  - split.
    + intros j Hj. apply (proj1 (find_channel_from_none p _ _) Hfind). lia.
    + unfold ai_dma_transfer_sync, ai_dma_transfer_async. by rewrite Hfind.
Qed.

(** C8.  A synchronous transfer that was submitted on channel [i] and whose
    completion does not arrive before the timeout returns [-ETIMEDOUT] after
    [dmaengine_terminate_sync]: no descriptor of channel [i] is in flight
    any more, the free channels of the pool are the same as before the call
    (the bitmap is untouched), and the channel is the one the next transfer
    is given. *)
Theorem transfer_sync_timeout (p : dma_pool) (env : sync_env)
    (i : nat) (chan : Z) :
  find_channel p = Some (i, chan) →
  se_prep_ok env = true →
  0 <= se_cookie env →
  se_completed env = false →
  (ai_dma_transfer_sync p env).1 = - ETIMEDOUT
  ∧ (ai_dma_transfer_sync p env).2
    = dmaengine_terminate_sync i (issue i (se_cookie env) p)
  ∧ (∀ d, d ∈ in_flight (ai_dma_transfer_sync p env).2 → d.1 ≠ i)
  ∧ free_channels (ai_dma_transfer_sync p env).2 = free_channels p
  ∧ length (free_channels (ai_dma_transfer_sync p env).2)
    = length (free_channels p)
  ∧ find_channel (ai_dma_transfer_sync p env).2 = Some (i, chan).
Proof.
  intros Hfind Hprep Hcookie Hto.
  destruct (transfer_sync_keeps_pool p env) as [Hb Hc].
  assert (Hfree : free_channels (ai_dma_transfer_sync p env).2
                  = free_channels p) by (by apply free_channels_ext).
  assert (Hrun : ai_dma_transfer_sync p env
                 = (- ETIMEDOUT,
                    dmaengine_terminate_sync i (issue i (se_cookie env) p))).
  { unfold ai_dma_transfer_sync, dma_submit_error.
    rewrite Hfind, Hprep, Hto. simpl.
    destruct (se_cookie env <? 0) eqn:E; [apply Z.ltb_lt in E; lia|].
    reflexivity. }
  split; [by rewrite Hrun|]. split; [by rewrite Hrun|].
  split.
  { rewrite Hrun. simpl. intros d Hd.
    by apply list_elem_of_filter in Hd as [Hne _]. }
  split; [done|]. split; [by rewrite Hfree|].
  rewrite <- Hfind. by apply find_channel_ext.
Qed.

Lemma transfer_sync_timeout_witness :
  (ai_dma_transfer_sync pool_ready sync_env_timeout).1 = - ETIMEDOUT
  ∧ (ai_dma_transfer_sync pool_ready sync_env_timeout).2
    = dmaengine_terminate_sync 0
        (issue 0 (se_cookie sync_env_timeout) pool_ready)
  ∧ (∀ d, d ∈ in_flight (ai_dma_transfer_sync pool_ready sync_env_timeout).2 →
          d.1 ≠ 0%nat)
  ∧ free_channels (ai_dma_transfer_sync pool_ready sync_env_timeout).2
    = free_channels pool_ready
  ∧ length (free_channels (ai_dma_transfer_sync pool_ready sync_env_timeout).2)
    = length (free_channels pool_ready)
  ∧ find_channel (ai_dma_transfer_sync pool_ready sync_env_timeout).2
    = Some (0%nat, 0x10).
Proof.
  apply (transfer_sync_timeout pool_ready sync_env_timeout 0 0x10).
  - vm_compute. reflexivity.
  - reflexivity.
  - simpl. lia.
  - reflexivity.
Defined.

End Channels.

(** ** The second ioctl surface: memory accounting and wait *)

Module IoctlProps.
Import Errno CInt Accel Ioctl Scenario AccelFacts.

(** [ai_ioctl_free_memory] never looks at the handle: whatever it names,
    the call returns 0, and the usage counter drops by the size the caller
    states whenever that size does not exceed it. *)
Lemma ai_ioctl_free_memory_any_handle adev mfree :
  ai_ioctl_free_memory adev mfree true
  = (0, if mf_size mfree <=? mem_used adev
        then {| mem_size := mem_size adev;
                mem_used := mem_used adev - mf_size mfree |}
        else adev).
Proof. reflexivity. Qed.

(** C4 (fails on the code).  [ai_ioctl_free] of the first surface does what
    is stated: an unknown handle gives [-EINVAL] and the device is unchanged
    ([AccelFacts.ai_ioctl_free_unknown]).  [ai_ioctl_free_memory] does not:
    after two one-page allocations, freeing the first handle returns 0 and
    lowers [mem_used] to 4096; freeing the same handle again returns 0 again
    and lowers [mem_used] to 0 although the second buffer is still
    outstanding; a handle that was never issued is accepted as well. *)
Theorem free_memory_accepts_double_free :
  let a1 := ai_ioctl_alloc_memory adev_idle mem_alloc_4k
              (mem_alloc_env_at 0x10000) in
  let a2 := ai_ioctl_alloc_memory a1.1.2 mem_alloc_4k
              (mem_alloc_env_at 0x20000) in
  let f1 := ai_ioctl_free_memory a2.1.2
              {| mf_handle := 0x10000; mf_size := 4096 |} true in
  let f2 := ai_ioctl_free_memory f1.2
              {| mf_handle := 0x10000; mf_size := 4096 |} true in
  let g := ai_ioctl_free_memory a2.1.2
              {| mf_handle := 0xdead000; mf_size := 8192 |} true in
  (a1.1.1 = 0 ∧ ma_handle a1.2 = 0x10000)
  ∧ (a2.1.1 = 0 ∧ ma_handle a2.2 = 0x20000 ∧ mem_used a2.1.2 = 8192)
  ∧ f1 = (0, {| mem_size := 2 ^ 30; mem_used := 4096 |})
  ∧ f2 = (0, {| mem_size := 2 ^ 30; mem_used := 0 |})
  ∧ g = (0, {| mem_size := 2 ^ 30; mem_used := 0 |})
  ∧ ai_ioctl_free dev_ready 7 true = (- EINVAL, dev_ready).
Proof.
  repeat split; vm_compute; reflexivity.
Qed.

(** C9 (fails on the code).  [ai_ioctl_wait_completion] does not wait and
    consults no job or fence state: for every request, whatever fence it
    names, it returns 0 with status [AI_STATUS_SUCCESS].  So does a wait on
    fence 12345 with a zero timeout, a fence no submission ever returned. *)
Theorem wait_completion_always_succeeds :
  (∀ (R : Type) (arg : ai_accel_wait R),
     ai_ioctl_wait_completion arg true true
     = (0, {| wait_request := wait_request arg;
              wait_status := AI_STATUS_SUCCESS;
              wait_result := 0 |}))
  ∧ ai_ioctl_wait_completion (wait_on_fence 12345 0) true true
    = (0, {| wait_request := (12345, 0); wait_status := 0; wait_result := 0 |}).
Proof. split; [intros R arg|]; reflexivity. Qed.

End IoctlProps.

(** ** driver/ai_accel.c: further properties of the handlers *)

Module AccelExtra.
Import Errno CInt Idr Accel AccelInv Scenario CIntFacts IdrFacts AccelFacts.

(** The buffer a successful [ai_ioctl_alloc] builds from request and
    kernel answers. *)
Lemma ai_ioctl_alloc_success simulate dev arg env :
  (ai_ioctl_alloc simulate dev arg env).1.1 = 0 →
  let buf := {| buf_cpu_addr := ae_cpu_addr env;
                buf_dma_addr := if simulate then ae_cpu_addr env
                                else ae_dma_handle env;
                buf_size := alloc_size arg;
                buf_flags := alloc_flags arg |} in
  ∃ h, 1 <= h <= INT_MAX
       ∧ buffer_idr dev !! h = None
       ∧ (∀ j, 1 <= j < h → is_Some (buffer_idr dev !! j))
       ∧ alloc_size arg ≠ 0
       ∧ alloc_size arg <= caps_max_alloc_size (caps dev)
       ∧ ae_cpu_addr env ≠ 0
       ∧ ai_ioctl_alloc simulate dev arg env
         = (0, set_buffer_idr dev (<[h := buf]> (buffer_idr dev)),
            {| alloc_size := alloc_size arg; alloc_flags := alloc_flags arg;
               alloc_handle := h; alloc_dma_addr := buf_dma_addr buf |}).
Proof.
  unfold ai_ioctl_alloc.
  destruct (negb (ae_copy_from_user_ok env)); [by intros [=]|].
  destruct (alloc_size arg =? 0) eqn:Hz; [by intros [=]|].
  destruct (caps_max_alloc_size (caps dev) <? alloc_size arg) eqn:Hmax;
    [by intros [=]|].
  apply Z.eqb_neq in Hz. apply Z.ltb_ge in Hmax. simpl orb. cbv iota.
  destruct (negb (ae_kzalloc_ok env)); [by intros [=]|].
  cbn [buf_cpu_addr].
  destruct (ae_cpu_addr env =? 0) eqn:Hcpu; [by intros [=]|].
  apply Z.eqb_neq in Hcpu.
  destruct (idr_alloc _ _ _ _ _) as [handle idr'] eqn:Halloc.
  destruct (handle <? 0) eqn:Hneg.
  { apply Z.ltb_lt in Hneg. simpl. lia. }
  apply Z.ltb_ge in Hneg.
  destruct (idr_alloc_ok _ _ _ _ _ _ _ Halloc Hneg) as (Hr & Hfree & Hlow & ->).
  simpl in Hr.
  destruct (negb (ae_copy_to_user_ok env)); [by intros [=]|].
  intros _. exists handle. rewrite handle_to_u64 by done. done.
Qed.

(** What a failing [ai_ioctl_alloc] leaves behind: nothing. *)
Lemma alloc_failure_unchanged simulate dev arg env :
  (ai_ioctl_alloc simulate dev arg env).1.1 ≠ 0 →
  (ai_ioctl_alloc simulate dev arg env).1.2 = dev
  ∧ (ai_ioctl_alloc simulate dev arg env).2 = arg.
Proof.
  intros Hret.
  destruct (ai_ioctl_alloc_cases simulate dev arg env) as [[H0 _]|(_ & H)];
    [done|exact H].
Qed.

(** X2.  A successful [ai_ioctl_alloc] returns the smallest positive
    integer that names no live buffer; looking that handle up afterwards
    gives a buffer with the requested size and flags and the address the
    allocator returned, every other handle resolves as before, and the
    request block handed back carries the handle and the DMA address. *)
Theorem alloc_stores_under_smallest_free_handle (simulate : bool)
    (dev : ai_device) (arg : ai_alloc_request) (env : alloc_env) :
  (ai_ioctl_alloc simulate dev arg env).1.1 = 0 →
  let r := ai_ioctl_alloc simulate dev arg env in
  let h := alloc_handle r.2 in
  let dma := if simulate then ae_cpu_addr env else ae_dma_handle env in
  1 <= h <= INT_MAX
  ∧ buffer_idr dev !! h = None
  ∧ (∀ j, 1 <= j < h → is_Some (buffer_idr dev !! j))
  ∧ idr_find (buffer_idr r.1.2) h
    = Some {| buf_cpu_addr := ae_cpu_addr env; buf_dma_addr := dma;
              buf_size := alloc_size arg; buf_flags := alloc_flags arg |}
  ∧ (∀ h', h' ≠ h →
       idr_find (buffer_idr r.1.2) h' = idr_find (buffer_idr dev) h')
  ∧ alloc_dma_addr r.2 = dma
  ∧ alloc_size r.2 = alloc_size arg.
Proof.
  intros Hret r h dma.
  destruct (ai_ioctl_alloc_success simulate dev arg env Hret)
    as (h0 & Hr & Hfree & Hlow & _ & _ & _ & Heq).
  unfold h, r. rewrite Heq. simpl. unfold idr_find.
  split; [done|]. split; [done|]. split; [done|].
  split; [apply lookup_insert_eq|].
  split; [|done].
  intros h' Hne. by apply lookup_insert_ne.
Qed.

Lemma alloc_stores_under_smallest_free_handle_witness :
  alloc_handle (ai_ioctl_alloc true dev_ready alloc_4k alloc_env_ok).2 = 3
  ∧ 1 <= alloc_handle (ai_ioctl_alloc true dev_ready alloc_4k alloc_env_ok).2
    <= INT_MAX.
Proof.
  split; [vm_compute; reflexivity|].
  apply (alloc_stores_under_smallest_free_handle true dev_ready alloc_4k
           alloc_env_ok).
  vm_compute. reflexivity.
Defined.

Lemma buffer_table_ok_step simulate st op :
  op_wf op → buffer_table_ok simulate st.1 →
  buffer_table_ok simulate (client_step simulate st op).1
  ∧ caps (client_step simulate st op).1 = caps st.1.
Proof.
  destruct st as [dev held]. intros Hwf Hok. simpl in *.
  destruct op as [arg env|h ok]; simpl.
  - unfold op_wf in Hwf.
    destruct (Z.eq_dec (ai_ioctl_alloc simulate dev arg env).1.1 0) as [H0|Hne].
    + destruct (ai_ioctl_alloc_success simulate dev arg env H0)
        as (h & Hr & Hfree & _ & Hnz & Hmax & Hcpu & Heq).
      rewrite Heq. simpl. split; [|done].
      intros h' buf'. simpl.
      destruct (decide (h' = h)) as [->|Hh].
      * rewrite lookup_insert_eq. intros [= <-]. simpl.
        split; [done|]. split; [lia|]. split; [done|]. by intros ->.
      * rewrite lookup_insert_ne by done. apply Hok.
    + destruct (alloc_failure_unchanged simulate dev arg env Hne) as [Hdev _].
      destruct (ai_ioctl_alloc simulate dev arg env) as [[ret dev'] arg'].
      simpl in *. subst dev'. done.
  - unfold ai_ioctl_free, idr_find, idr_remove.
    destruct ok; simpl; [|done].
    destruct (buffer_idr dev !! h) as [buf|] eqn:Hh; simpl; [|done].
    split; [|done]. intros h' buf'. simpl.
    destruct (decide (h' = h)) as [->|Hne].
    + by rewrite lookup_delete_eq.
    + rewrite lookup_delete_ne by done. apply Hok.
Qed.

(** X3.  Over every sequence of allocate and free calls whose request
    sizes are [__u64] values, every entry of the buffer table keeps a handle
    in [1, INT_MAX], a size between 1 and the device's maximum allocation
    size (256 MiB), a non-NULL CPU address and, in simulation mode, a DMA
    address equal to the CPU address. *)
Theorem buffer_table_stays_well_formed (simulate : bool) (num_engines : Z)
    (ops : list buf_op) :
  Forall op_wf ops →
  let dev := (client_run simulate ops
                (ai_accel_init simulate num_engines, [])).1 in
  buffer_table_ok simulate dev
  ∧ caps_max_alloc_size (caps dev) = 256 * 2 ^ 20.
Proof.
  intros Hwf.
  assert (Hgen : ∀ st, buffer_table_ok simulate st.1 →
            buffer_table_ok simulate (client_run simulate ops st).1
            ∧ caps (client_run simulate ops st).1 = caps st.1).
  { unfold client_run. induction Hwf as [|op ops Hop Hops IH]; intros st Hst.
    - done.
    - simpl. destruct (buffer_table_ok_step simulate st op Hop Hst) as [H1 H2].
      destruct (IH _ H1) as [H3 H4]. split; [done|]. by rewrite H4. }
  destruct (Hgen (ai_accel_init simulate num_engines, [])) as [Hok Hcaps].
  { intros h buf. simpl. by rewrite lookup_empty. }
  simpl. split; [exact Hok|]. by rewrite Hcaps.
Qed.

Lemma buffer_table_stays_well_formed_witness :
  buffer_table_ok true
    (client_run true [OpAlloc alloc_4k alloc_env_ok; OpFree 1 true;
                      OpAlloc alloc_4k alloc_env_ok]
       (ai_accel_init true 4, [])).1
  ∧ caps_max_alloc_size
      (caps (client_run true [OpAlloc alloc_4k alloc_env_ok; OpFree 1 true;
                              OpAlloc alloc_4k alloc_env_ok]
               (ai_accel_init true 4, [])).1) = 256 * 2 ^ 20.
Proof.
  apply (buffer_table_stays_well_formed true 4
           [OpAlloc alloc_4k alloc_env_ok; OpFree 1 true;
            OpAlloc alloc_4k alloc_env_ok]).
  repeat constructor; simpl; lia.
Defined.

(** X4.  Allocate and free undo each other: freeing the handle a
    successful [ai_ioctl_alloc] just returned succeeds and gives back
    exactly the device state from before the allocation. *)
Theorem alloc_then_free_restores_device (simulate : bool) (dev : ai_device)
    (arg : ai_alloc_request) (env : alloc_env) :
  (ai_ioctl_alloc simulate dev arg env).1.1 = 0 →
  ai_ioctl_free (ai_ioctl_alloc simulate dev arg env).1.2
                (alloc_handle (ai_ioctl_alloc simulate dev arg env).2) true
  = (0, dev).
Proof.
  intros Hret.
  destruct (ai_ioctl_alloc_success simulate dev arg env Hret)
    as (h & Hr & Hfree & _ & _ & _ & _ & Heq).
  rewrite Heq. simpl.
  erewrite ai_ioctl_free_live by (simpl; apply lookup_insert_eq).
  simpl. rewrite delete_insert_eq, (delete_id _ _ Hfree).
  f_equal. by destruct dev.
Qed.

Lemma alloc_then_free_restores_device_witness :
  ai_ioctl_free (ai_ioctl_alloc true dev_ready alloc_4k alloc_env_ok).1.2
    (alloc_handle (ai_ioctl_alloc true dev_ready alloc_4k alloc_env_ok).2) true
  = (0, dev_ready).
Proof.
  apply (alloc_then_free_restores_device true dev_ready alloc_4k alloc_env_ok).
  vm_compute. reflexivity.
Defined.

(** X5.  Freeing a live buffer handle returns 0, removes that entry and
    nothing else: every other buffer handle resolves as before and the
    model table, the fence counter and the statistics are untouched.  The
    same handle freed again gives [-EINVAL] and changes nothing. *)
Theorem free_removes_exactly_one_buffer (dev : ai_device) (h : Z)
    (buf : ai_buffer) :
  buffer_idr dev !! h = Some buf →
  let r := ai_ioctl_free dev h true in
  r.1 = 0
  ∧ idr_find (buffer_idr r.2) h = None
  ∧ (∀ h', h' ≠ h → idr_find (buffer_idr r.2) h' = idr_find (buffer_idr dev) h')
  ∧ model_idr r.2 = model_idr dev
  ∧ fence_counter r.2 = fence_counter dev
  ∧ total_inferences r.2 = total_inferences dev
  ∧ total_bytes_processed r.2 = total_bytes_processed dev
  ∧ ai_ioctl_free r.2 h true = (- EINVAL, r.2).
Proof.
  intros Hh r. unfold r. rewrite (ai_ioctl_free_live _ _ _ Hh).
  simpl. unfold idr_find.
  split; [done|]. split; [apply lookup_delete_eq|].
  split; [intros h' Hne; by apply lookup_delete_ne|].
  repeat (split; [done|]).
  apply ai_ioctl_free_unknown. simpl. apply lookup_delete_eq.
Qed.

Lemma free_removes_exactly_one_buffer_witness :
  (ai_ioctl_free dev_ready 1 true).1 = 0
  ∧ ai_ioctl_free (ai_ioctl_free dev_ready 1 true).2 1 true
    = (- EINVAL, (ai_ioctl_free dev_ready 1 true).2).
Proof.
  assert (H : buffer_idr dev_ready !! 1
              = Some {| buf_cpu_addr := 0x100000; buf_dma_addr := 0x100000;
                        buf_size := 4096; buf_flags := 0 |})
    by (vm_compute; reflexivity).
  pose proof (free_removes_exactly_one_buffer dev_ready 1 _ H) as Hx.
  split; [apply Hx|]. apply Hx.
Defined.

(** The model a successful [ai_ioctl_load_model] stores. *)
Lemma ai_ioctl_load_model_success dev arg env :
  (ai_ioctl_load_model dev arg env).1.1 = 0 →
  let model := {| mdl_data := le_vmalloc_addr env;
                  mdl_size := lm_model_size arg;
                  mdl_flags := lm_flags arg |} in
  ∃ h, 1 <= h <= INT_MAX
       ∧ model_idr dev !! h = None
       ∧ (∀ j, 1 <= j < h → is_Some (model_idr dev !! j))
       ∧ ai_ioctl_load_model dev arg env
         = (0, set_model_idr dev (<[h := model]> (model_idr dev)),
            {| lm_model_data := lm_model_data arg;
               lm_model_size := lm_model_size arg;
               lm_flags := lm_flags arg; lm_model_handle := h |}).
Proof.
  unfold ai_ioctl_load_model.
  destruct (negb (le_copy_from_user_ok env)); [by intros [=]|].
  destruct (_ || _); [by intros [=]|].
  destruct (negb (le_kzalloc_ok env)); [by intros [=]|].
  cbn [mdl_data].
  destruct (le_vmalloc_addr env =? 0); [by intros [=]|].
  destruct (negb (le_copy_data_ok env)); [by intros [=]|].
  destruct (idr_alloc _ _ _ _ _) as [handle idr'] eqn:Halloc.
  destruct (handle <? 0) eqn:Hneg.
  { apply Z.ltb_lt in Hneg. simpl. lia. }
  apply Z.ltb_ge in Hneg.
  destruct (idr_alloc_ok _ _ _ _ _ _ _ Halloc Hneg) as (Hr & Hfree & Hlow & ->).
  simpl in Hr.
  destruct (negb (le_copy_to_user_ok env)); [by intros [=]|].
  intros _. exists handle. rewrite handle_to_u64 by done. done.
Qed.



(** X10.  Fences count submissions: on a device whose counter is 0, the
    n-th successful submission (n < 2^31) is handed fence n, so fences of
    successive submissions are consecutive integers starting at 1. *)
Theorem fences_count_submissions (dev : ai_device)
    (req : ai_inference_request) (n : N) :
  handles_resolve dev req →
  fence_counter dev = 0 →
  (n < 2 ^ 31 - 1)%N →
  nth_fence n dev req = (0, Z.of_N n + 1).
Proof.
  intros Hres Hc Hn.
  rewrite Fence.nth_fence_closed; [|done|rewrite Hc; unfold INT_MIN, INT_MAX; lia].
  rewrite Hc. f_equal.
  assert (Hz : Z.of_N n < 2 ^ 31 - 1).
  { change (2 ^ 31 - 1) with (Z.of_N (2 ^ 31 - 1)). lia. }
  rewrite wrap_s32_small, wrap_u64_small; lia.
Qed.

Lemma fences_count_submissions_witness :
  nth_fence 41 dev_ready infer_req = (0, 42).
Proof.
  apply (fences_count_submissions dev_ready infer_req 41).
  - repeat split; vm_compute; eauto.
  - vm_compute. reflexivity.
  - reflexivity.
Defined.

End AccelExtra.

(** ** driver/ai_accel.c: the dispatcher *)

Module DispatchProps.
Import Errno CInt Idr Accel AccelDispatch Scenario AccelFacts.

(** What each handler leaves alone. *)
Lemma alloc_keeps_models simulate dev arg env :
  model_idr (ai_ioctl_alloc simulate dev arg env).1.2 = model_idr dev.
Proof.
  destruct (ai_ioctl_alloc_cases simulate dev arg env)
    as [(_ & h & buf & _ & _ & _ & _ & ->)|(_ & -> & _)]; done.
Qed.

Lemma free_keeps_models dev h ok :
  model_idr (ai_ioctl_free dev h ok).2 = model_idr dev.
Proof.
  unfold ai_ioctl_free. destruct (negb ok); [done|].
  by destruct (idr_find (buffer_idr dev) h).
Qed.

Lemma load_keeps_models dev arg env h model :
  model_idr dev !! h = Some model →
  model_idr (ai_ioctl_load_model dev arg env).1.2 !! h = Some model.
Proof.
  intros Hh.
  destruct (ai_ioctl_load_model_cases dev arg env)
    as [(_ & h' & m' & _ & Hfree & _ & ->)|(_ & -> & _)]; [|done].
  simpl. rewrite lookup_insert_ne; [done|]. intros ->. congruence.
Qed.

Lemma load_keeps_buffers dev arg env :
  buffer_idr (ai_ioctl_load_model dev arg env).1.2 = buffer_idr dev.
Proof.
  destruct (ai_ioctl_load_model_cases dev arg env)
    as [(_ & h' & m' & _ & _ & _ & ->)|(_ & -> & _)]; done.
Qed.

Lemma submit_keeps_tables dev arg cin cout :
  model_idr (ai_ioctl_submit dev arg cin cout).1.2 = model_idr dev
  ∧ buffer_idr (ai_ioctl_submit dev arg cin cout).1.2 = buffer_idr dev.
Proof.
  unfold ai_ioctl_submit. destruct (negb cin); [done|].
  destruct (_ || _); [done|]. by destruct (negb cout).
Qed.

Lemma alloc_keeps_buffers simulate dev arg env h buf :
  buffer_idr dev !! h = Some buf →
  buffer_idr (ai_ioctl_alloc simulate dev arg env).1.2 !! h = Some buf.
Proof.
  intros Hh.
  destruct (ai_ioctl_alloc_cases simulate dev arg env)
    as [(_ & h' & b' & _ & Hfree & _ & _ & ->)|(_ & -> & _)]; [|done].
  simpl. rewrite lookup_insert_ne; [done|]. intros ->. congruence.
Qed.

(** One dispatcher call keeps every loaded model. *)
Lemma ai_ioctl_keeps_models simulate dev cmd ua env h model :
  model_idr dev !! h = Some model →
  model_idr (ai_ioctl simulate dev cmd ua env).1.2 !! h = Some model.
Proof.
  intros Hh. unfold ai_ioctl.
  destruct (negb (_IOC_TYPE cmd =? AI_IOC_MAGIC)); [done|].
  destruct (AI_IOC_MAXNR <? _IOC_NR cmd); [done|].
  destruct (cmd =? AI_IOC_GET_CAPS).
  { by destruct (ai_ioctl_get_caps dev (ie_caps_copy_ok env)). }
  destruct (cmd =? AI_IOC_ALLOC).
  { pose proof (alloc_keeps_models simulate dev (ua_alloc ua) (ie_alloc env)).
    destruct (ai_ioctl_alloc _ _ _ _) as [[? ?] ?]. simpl in *. congruence. }
  destruct (cmd =? AI_IOC_FREE).
  { pose proof (free_keeps_models dev (ua_free ua) (ie_free_copy_ok env)).
    destruct (ai_ioctl_free _ _ _) as [? ?]. simpl in *. congruence. }
  destruct (cmd =? AI_IOC_LOAD_MODEL).
  { pose proof (load_keeps_models dev (ua_load ua) (ie_load env) h model Hh).
    by destruct (ai_ioctl_load_model _ _ _) as [[? ?] ?]. }
  destruct (cmd =? AI_IOC_SUBMIT); [|done].
  pose proof (submit_keeps_tables dev (ua_submit ua) (ie_submit_in_ok env)
                (ie_submit_out_ok env)) as [Hm _].
  destruct (ai_ioctl_submit _ _ _ _) as [[? ?] ?]. simpl in *. congruence.
Qed.

(** X7.  [ai_ioctl] answers every command other than GET_CAPS, ALLOC,
    FREE, LOAD_MODEL and SUBMIT with [-ENOTTY] and leaves the device
    untouched.  That includes UNLOAD_MODEL, WAIT and GET_PROFILE, which the
    interface header declares: they pass the magic and number checks and
    fall through to the default case. *)
Theorem unhandled_commands_rejected (simulate : bool) (dev : ai_device)
    (cmd : Z) (ua : ioctl_arg) (env : ioctl_env) :
  cmd ∉ handled_commands →
  ai_ioctl simulate dev cmd ua env = (- ENOTTY, dev, OutNothing).
Proof.
  intros Hcmd. unfold ai_ioctl.
  destruct (negb (_IOC_TYPE cmd =? AI_IOC_MAGIC)); [done|].
  destruct (AI_IOC_MAXNR <? _IOC_NR cmd); [done|].
  assert (Hne : ∀ c, c ∈ handled_commands → (cmd =? c) = false).
  { intros c Hc. apply Z.eqb_neq. intros ->. done. }
  unfold handled_commands in Hne.
  rewrite !Hne; [done| | | | |]; rewrite !elem_of_cons; tauto.
Qed.

Lemma unhandled_commands_rejected_witness :
  ai_ioctl true dev_ready AI_IOC_UNLOAD_MODEL ioctl_arg_demo ioctl_env_ok
  = (- ENOTTY, dev_ready, OutNothing)
  ∧ ai_ioctl true dev_ready AI_IOC_WAIT ioctl_arg_demo ioctl_env_ok
    = (- ENOTTY, dev_ready, OutNothing)
  ∧ ai_ioctl true dev_ready AI_IOC_GET_PROFILE ioctl_arg_demo ioctl_env_ok
    = (- ENOTTY, dev_ready, OutNothing).
Proof.
  assert (Hnot : ∀ c, (if bool_decide (c ∈ handled_commands) then false else true)
                      = true → c ∉ handled_commands).
  { intros c. case_bool_decide; [discriminate|done]. }
  split; [|split]; apply unhandled_commands_rejected; apply Hnot;
    vm_compute; reflexivity.
Defined.

(** X8.  A loaded model can never be released through the driver: over
    every sequence of ioctl calls, whatever the commands, arguments and
    kernel answers, a model handle that is live stays live and keeps naming
    the same model. *)
Theorem loaded_models_stay_loaded (simulate : bool)
    (calls : list (Z * ioctl_arg * ioctl_env)) (dev : ai_device)
    (h : Z) (model : ai_model) :
  model_idr dev !! h = Some model →
  model_idr (ioctl_run simulate calls dev) !! h = Some model.
Proof.
  unfold ioctl_run. revert dev.
  induction calls as [|c calls IH]; intros dev Hh; simpl; [done|].
  apply IH. by apply ai_ioctl_keeps_models.
Qed.

Lemma loaded_models_stay_loaded_witness :
  model_idr
    (ioctl_run true
       [(AI_IOC_UNLOAD_MODEL, ioctl_arg_demo, ioctl_env_ok);
        (AI_IOC_FREE, ioctl_arg_demo, ioctl_env_ok);
        (AI_IOC_LOAD_MODEL, ioctl_arg_demo, ioctl_env_ok)] dev_ready) !! 1
  = Some {| mdl_data := 0x200000; mdl_size := 1024; mdl_flags := 0 |}.
Proof.
  apply loaded_models_stay_loaded. vm_compute. reflexivity.
Defined.

(** X11.  A buffer is released only by a FREE call that names it: any
    other dispatcher call (another command, or FREE of another handle)
    leaves a live buffer handle live and naming the same buffer; a
    submission in particular does not consume its buffers. *)
Theorem buffers_released_only_by_free (simulate : bool) (dev : ai_device)
    (cmd : Z) (ua : ioctl_arg) (env : ioctl_env) (h : Z) (buf : ai_buffer) :
  buffer_idr dev !! h = Some buf →
  cmd ≠ AI_IOC_FREE ∨ ua_free ua ≠ h →
  buffer_idr (ai_ioctl simulate dev cmd ua env).1.2 !! h = Some buf.
Proof.
  intros Hh Hother. unfold ai_ioctl.
  destruct (negb (_IOC_TYPE cmd =? AI_IOC_MAGIC)); [done|].
  destruct (AI_IOC_MAXNR <? _IOC_NR cmd); [done|].
  destruct (cmd =? AI_IOC_GET_CAPS).
  { by destruct (ai_ioctl_get_caps dev (ie_caps_copy_ok env)). }
  destruct (cmd =? AI_IOC_ALLOC).
  { pose proof (alloc_keeps_buffers simulate dev (ua_alloc ua) (ie_alloc env)
                  h buf Hh).
    by destruct (ai_ioctl_alloc _ _ _ _) as [[? ?] ?]. }
  destruct (cmd =? AI_IOC_FREE) eqn:Hfree.
  { apply Z.eqb_eq in Hfree. destruct Hother as [Hc|Hne]; [done|].
    unfold ai_ioctl_free, idr_find, idr_remove.
    destruct (negb (ie_free_copy_ok env)); [done|].
    destruct (buffer_idr dev !! ua_free ua); [|done].
    simpl. by rewrite lookup_delete_ne. }
  destruct (cmd =? AI_IOC_LOAD_MODEL).
  { pose proof (load_keeps_buffers dev (ua_load ua) (ie_load env)).
    destruct (ai_ioctl_load_model _ _ _) as [[? ?] ?]. simpl in *. congruence. }
  destruct (cmd =? AI_IOC_SUBMIT); [|done].
  pose proof (submit_keeps_tables dev (ua_submit ua) (ie_submit_in_ok env)
                (ie_submit_out_ok env)) as [_ Hb].
  destruct (ai_ioctl_submit _ _ _ _) as [[? ?] ?]. simpl in *. congruence.
Qed.

Lemma buffers_released_only_by_free_witness :
  buffer_idr (ai_ioctl true dev_ready AI_IOC_SUBMIT ioctl_arg_demo
                ioctl_env_ok).1.2 !! 2
  = Some {| buf_cpu_addr := 0x100000; buf_dma_addr := 0x100000;
            buf_size := 4096; buf_flags := 0 |}.
Proof.
  apply buffers_released_only_by_free.
  - vm_compute. reflexivity.
  - left. vm_compute. discriminate.
Defined.

End DispatchProps.

(** ** driver/ai_ioctl.c: memory accounting, inference, statistics *)

Module IoctlExtra.
Import Errno CInt Ioctl IoctlMore Scenario CIntFacts.

(** [PAGE_ALIGN] rounds up to the next multiple of the page size. *)
Lemma PAGE_ALIGN_spec (x : Z) :
  0 <= x → PAGE_ALIGN x = 4096 * ((x + 4095) / 4096).
Proof.
  intros Hx. unfold PAGE_ALIGN, PAGE_MASK.
  change (PAGE_SIZE - 1) with (Z.ones 12).
  rewrite <- Z.ldiff_land, Z.ldiff_ones_r by lia.
  rewrite Z.shiftl_mul_pow2, Z.shiftr_div_pow2 by lia.
  change (2 ^ 12) with 4096. change (Z.ones 12) with 4095. lia.
Qed.

Lemma PAGE_ALIGN_bounds (x : Z) :
  0 <= x → x <= PAGE_ALIGN x < x + 4096 ∧ PAGE_ALIGN x mod 4096 = 0.
Proof.
  intros Hx. rewrite PAGE_ALIGN_spec by done.
  pose proof (Z.mul_div_le (x + 4095) 4096 ltac:(lia)).
  pose proof (Z.mul_succ_div_gt (x + 4095) 4096 ltac:(lia)).
  split; [lia|]. rewrite Z.mul_comm. apply Z.mod_mul. lia.
Qed.

(** The two outcomes of [ai_ioctl_alloc_memory]. *)
Lemma ai_ioctl_alloc_memory_cases adev arg env :
  let r := ai_ioctl_alloc_memory adev arg env in
  (r.1.1 = 0
   ∧ ma_size arg ≠ 0 ∧ ma_size arg <= 64 * 1024 * 1024
   ∧ mem_used adev + PAGE_ALIGN (ma_size arg) <= mem_size adev
   ∧ r.1.2 = {| mem_size := mem_size adev;
                mem_used := mem_used adev + PAGE_ALIGN (ma_size arg) |}
   ∧ r.2 = {| ma_size := PAGE_ALIGN (ma_size arg);
              ma_handle := wrap_u64 (mae_dma_handle env) |})
  ∨ (r.1.1 < 0 ∧ r.1.2 = adev ∧ r.2 = arg).
Proof.
  unfold ai_ioctl_alloc_memory.
  destruct (negb (mae_copy_from_user_ok env)); [by right|].
  destruct (ma_size arg =? 0) eqn:Hz; [by right|].
  destruct (64 * 1024 * 1024 <? ma_size arg) eqn:Hmax; [by right|].
  apply Z.eqb_neq in Hz. apply Z.ltb_ge in Hmax. simpl orb. cbv iota.
  destruct (mem_size adev <? _) eqn:Hroom; [by right|].
  apply Z.ltb_ge in Hroom.
  destruct (mae_mem env =? 0); [by right|].
  destruct (negb (mae_copy_to_user_ok env)).
  - right. simpl. split; [done|]. split; [|done].
    destruct adev as [sz used]. simpl. f_equal. lia.
  - left. simpl. done.
Qed.

(** X12.  A successful [ai_ioctl_alloc_memory] charges whole pages: the
    size it writes back is the request rounded up to the next multiple of
    4096 (less than one page more than asked for), [mem_used] grows by
    exactly that amount and stays within [mem_size], and the request was
    between 1 byte and 64 MiB. *)
Theorem alloc_memory_charges_whole_pages (adev : ai_accel_device)
    (arg : ai_accel_mem_alloc) (env : mem_alloc_env) :
  0 <= ma_size arg →
  (ai_ioctl_alloc_memory adev arg env).1.1 = 0 →
  let r := ai_ioctl_alloc_memory adev arg env in
  1 <= ma_size arg <= 64 * 1024 * 1024
  ∧ ma_size r.2 mod 4096 = 0
  ∧ ma_size arg <= ma_size r.2 < ma_size arg + 4096
  ∧ mem_used r.1.2 = mem_used adev + ma_size r.2
  ∧ mem_used r.1.2 <= mem_size adev
  ∧ mem_size r.1.2 = mem_size adev
  ∧ ma_handle r.2 = wrap_u64 (mae_dma_handle env).
Proof.
  intros Hsize Hret r.
  destruct (ai_ioctl_alloc_memory_cases adev arg env)
    as [(_ & Hnz & Hmax & Hroom & Hdev & Harg)|(Hneg & _)]; [|lia].
  unfold r. rewrite Hdev, Harg. simpl.
  destruct (PAGE_ALIGN_bounds (ma_size arg) Hsize) as [Hb Hm].
  repeat split; try done; lia.
Qed.

Lemma alloc_memory_charges_whole_pages_witness :
  ma_size (ai_ioctl_alloc_memory adev_idle mem_alloc_5000
             (mem_alloc_env_at 0x30000)).2 = 8192
  ∧ ma_size (ai_ioctl_alloc_memory adev_idle mem_alloc_5000
               (mem_alloc_env_at 0x30000)).2 mod 4096 = 0.
Proof.
  split; [vm_compute; reflexivity|].
  apply (alloc_memory_charges_whole_pages adev_idle mem_alloc_5000
           (mem_alloc_env_at 0x30000)).
  - simpl. lia.
  - vm_compute. reflexivity.
Defined.

(** One dispatcher call keeps the usage counter within the device. *)
Lemma ai_accel_ioctl_keeps_bounds pmax adev c :
  accel_call_wf c →
  0 <= mem_used adev <= mem_size adev →
  0 <= mem_used (ai_accel_ioctl pmax adev c).1.2
    <= mem_size (ai_accel_ioctl pmax adev c).1.2
  ∧ mem_size (ai_accel_ioctl pmax adev c).1.2 = mem_size adev.
Proof.
  intros [Hma Hmf] Hb. unfold ai_accel_ioctl.
  destruct (negb (ac_magic_ok c)); [done|].
  destruct (_ && negb (ac_access_ok c)); [done|].
  destruct (_ && negb (ac_access_ok c)); [done|].
  destruct (ac_cmd c); try done.
  - destruct (ai_ioctl_alloc_memory_cases adev (ac_mem_alloc c)
                (ac_mem_alloc_env c))
      as [(_ & _ & _ & Hroom & Hdev & _)|(_ & Hdev & _)];
      destruct (ai_ioctl_alloc_memory _ _ _) as [[ret adev'] r];
      simpl in *; subst adev'; simpl; [|done].
    pose proof (PAGE_ALIGN_bounds _ Hma). lia.
  - unfold ai_ioctl_free_memory.
    destruct (negb (ac_copy_in_ok c)); [done|]. simpl.
    destruct (_ <=? _) eqn:E; [|done].
    apply Z.leb_le in E. simpl. lia.
  - by destruct (ai_ioctl_submit_inference _ _ _) as [[[? ?] ?] ?].
  - by destruct (ai_ioctl_get_stats _ _ _) as [? [?|]].
  - by destruct (ai_ioctl_wait_completion _ _ _) as [? ?].
Qed.

(** X15.  The usage counter never leaves the device: over every sequence
    of calls on the second surface (with unsigned sizes), [mem_used] stays
    between 0 and [mem_size], and [mem_size] never changes.  An allocation
    that does not fit is refused and a free larger than the amount in use is
    ignored. *)
Theorem mem_used_stays_within_device (pmax : Z) (calls : list accel_call)
    (adev : ai_accel_device) :
  Forall accel_call_wf calls →
  0 <= mem_used adev <= mem_size adev →
  0 <= mem_used (accel_run pmax calls adev) <= mem_size adev
  ∧ mem_size (accel_run pmax calls adev) = mem_size adev.
Proof.
  intros Hwf. revert adev. unfold accel_run.
  induction Hwf as [|c calls Hc Hcs IH]; intros adev Hb; simpl; [done|].
  destruct (ai_accel_ioctl_keeps_bounds pmax adev c Hc Hb) as [Hb' Hsz].
  destruct (IH _ Hb') as [H1 H2]. rewrite Hsz in H1, H2. done.
Qed.

Lemma mem_used_stays_within_device_witness :
  0 <= mem_used (accel_run 4 [accel_call_of CMD_ALLOC_MEM;
                              accel_call_of CMD_FREE_MEM;
                              accel_call_of CMD_FREE_MEM] adev_idle)
    <= mem_size adev_idle
  ∧ mem_size (accel_run 4 [accel_call_of CMD_ALLOC_MEM;
                           accel_call_of CMD_FREE_MEM;
                           accel_call_of CMD_FREE_MEM] adev_idle)
    = mem_size adev_idle.
Proof.
  apply (mem_used_stays_within_device 4).
  - repeat constructor; simpl; lia.
  - simpl. lia.
Defined.

(** X16.  Inference statistics never accumulate on the second surface:
    the counters live in a context that [ai_accel_ioctl] sets up afresh for
    each call, so after any sequence of calls, successful inferences
    included, GET_STATS reports 0 inferences, 0 completed jobs and 0 bytes;
    only the memory figures reflect the device. *)
Theorem stats_never_count_inferences (pmax : Z) (calls : list accel_call)
    (adev : ai_accel_device) (c : accel_call) :
  ac_cmd c = CMD_GET_STATS →
  ac_magic_ok c = true → ac_access_ok c = true → ac_copy_out_ok c = true →
  let adev' := accel_run pmax calls adev in
  ai_accel_ioctl pmax adev' c
  = (0, adev',
     AOutStats {| st_total_inferences := 0; st_total_bytes_in := 0;
                  st_total_bytes_out := 0;
                  st_memory_used := mem_used adev';
                  st_memory_total := mem_size adev';
                  st_active_jobs := 0; st_completed_jobs := 0;
                  st_failed_jobs := 0; st_average_latency_ns := 1000000 |}).
Proof.
  intros Hcmd Hmagic Hacc Hcopy adev'. unfold ai_accel_ioctl.
  rewrite Hcmd, Hmagic, Hacc. simpl. rewrite !andb_false_r.
  unfold ai_ioctl_get_stats. rewrite Hcopy. reflexivity.
Qed.

Lemma stats_never_count_inferences_witness :
  (ai_accel_ioctl 4 adev_idle (accel_call_of CMD_SUBMIT_INFERENCE)).1.1 = 0
  ∧ ai_accel_ioctl 4
      (accel_run 4 [accel_call_of CMD_SUBMIT_INFERENCE;
                    accel_call_of CMD_SUBMIT_INFERENCE] adev_idle)
      (accel_call_of CMD_GET_STATS)
    = (0, accel_run 4 [accel_call_of CMD_SUBMIT_INFERENCE;
                       accel_call_of CMD_SUBMIT_INFERENCE] adev_idle,
       AOutStats {| st_total_inferences := 0; st_total_bytes_in := 0;
                    st_total_bytes_out := 0;
                    st_memory_used :=
                      mem_used (accel_run 4
                                  [accel_call_of CMD_SUBMIT_INFERENCE;
                                   accel_call_of CMD_SUBMIT_INFERENCE]
                                  adev_idle);
                    st_memory_total :=
                      mem_size (accel_run 4
                                  [accel_call_of CMD_SUBMIT_INFERENCE;
                                   accel_call_of CMD_SUBMIT_INFERENCE]
                                  adev_idle);
                    st_active_jobs := 0; st_completed_jobs := 0;
                    st_failed_jobs := 0; st_average_latency_ns := 1000000 |}).
Proof.
  split; [vm_compute; reflexivity|].
  apply (stats_never_count_inferences 4
           [accel_call_of CMD_SUBMIT_INFERENCE;
            accel_call_of CMD_SUBMIT_INFERENCE] adev_idle
           (accel_call_of CMD_GET_STATS)); reflexivity.
Defined.

(** X17.  The simulated inference copies input to output and nothing else
    initialises the output buffer: on success the bytes delivered are the
    first min(input_size, output_size) bytes of the input followed by the
    bytes the freshly allocated output buffer happened to hold.  If the
    output is no larger than the input the caller gets exactly a prefix of
    its input; if it is larger, the tail beyond the input is stale allocator
    memory.  The result carries status [AI_STATUS_SUCCESS] and the
    difference of the two clock readings. *)
Theorem submit_inference_output (ctx : ai_ioctl_context)
    (arg : ai_accel_inference) (env : infer_env) (input stale : list Z) :
  ne_user_input env = Some input →
  ne_output_alloc env = Some stale →
  length input = Z.to_nat (aif_input_size arg) →
  length stale = Z.to_nat (aif_output_size arg) →
  (ai_ioctl_submit_inference ctx arg env).1.1.1 = 0 →
  let r := ai_ioctl_submit_inference ctx arg env in
  let n_in := Z.to_nat (aif_input_size arg) in
  let n_out := Z.to_nat (aif_output_size arg) in
  ∃ data, r.2 = Some data
    ∧ length data = n_out
    ∧ take (min n_in n_out) data = take (min n_in n_out) input
    ∧ drop (min n_in n_out) data = drop (min n_in n_out) stale
    ∧ (aif_output_size arg <= aif_input_size arg → data = take n_out input)
    ∧ (aif_input_size arg < aif_output_size arg →
       data = input ++ drop n_in stale)
    ∧ aif_status r.1.2 = AI_STATUS_SUCCESS
    ∧ aif_latency_ns r.1.2 = (ne_t1 env - ne_t0 env) mod 2 ^ 64.
Proof.
  intros Hin Hout Hlin Hlout. unfold ai_ioctl_submit_inference.
  rewrite Hin, Hout.
  destruct (negb (ne_copy_from_user_ok env));
    [intros Hbad; compute in Hbad; discriminate|].
  destruct (aif_input_size arg =? 0) eqn:Hi0;
    [intros Hbad; compute in Hbad; discriminate|].
  destruct (MAX_IO_SIZE <? aif_input_size arg);
    [intros Hbad; compute in Hbad; discriminate|].
  destruct (aif_output_size arg =? 0) eqn:Ho0;
    [intros Hbad; compute in Hbad; discriminate|].
  destruct (MAX_IO_SIZE <? aif_output_size arg);
    [intros Hbad; compute in Hbad; discriminate|].
  destruct (aif_batch_size arg =? 0);
    [intros Hbad; compute in Hbad; discriminate|].
  destruct (64 <? aif_batch_size arg);
    [intros Hbad; compute in Hbad; discriminate|].
  simpl.
  destruct (negb (ne_input_alloc_ok env));
    [intros Hbad; compute in Hbad; discriminate|].
  destruct (ne_copy_output_left env =? 0) eqn:Hleft;
    [|intros Hbad; compute in Hbad; discriminate].
  destruct (negb (ne_copy_result_ok env));
    [intros Hbad; compute in Hbad; discriminate|].
  apply Z.eqb_eq in Hleft. rewrite Hleft. unfold copy_to_user.
  change (Z.to_nat 0) with 0%nat. rewrite Nat.sub_0_r, firstn_all.
  intros _. simpl. eexists. split; [reflexivity|].
  apply Z.eqb_neq in Hi0, Ho0.
  assert (Hmin : Z.to_nat (Z.min (aif_input_size arg) (aif_output_size arg))
                 = min (Z.to_nat (aif_input_size arg))
                       (Z.to_nat (aif_output_size arg))) by lia.
  unfold memcpy. rewrite Hmin.
  set (n_in := Z.to_nat (aif_input_size arg)) in *.
  set (n_out := Z.to_nat (aif_output_size arg)) in *.
  split.
  { rewrite length_app, length_take, length_drop. lia. }
  split.
  { rewrite take_app_le by (rewrite length_take; lia).
    rewrite take_take. f_equal. lia. }
  split.
  { rewrite drop_app_length' by (rewrite length_take; lia). done. }
  split.
  { intros Hle. rewrite Nat.min_r by lia.
    rewrite drop_ge by lia. by rewrite app_nil_r. }
  split; [|done].
  intros Hlt. rewrite Nat.min_l by lia.
  rewrite take_ge by lia. done.
Qed.

Lemma submit_inference_output_witness :
  (ai_ioctl_submit_inference
     {| ctx_total_inferences := 0; ctx_total_bytes_transferred := 0 |}
     inference_4_in_6_out infer_env_ok).2
  = Some [1; 2; 3; 4; 95; 96]
  ∧ ∃ data,
      (ai_ioctl_submit_inference
         {| ctx_total_inferences := 0; ctx_total_bytes_transferred := 0 |}
         inference_4_in_6_out infer_env_ok).2 = Some data
      ∧ length data = 6%nat.
Proof.
  split; [vm_compute; reflexivity|].
  destruct (submit_inference_output
              {| ctx_total_inferences := 0; ctx_total_bytes_transferred := 0 |}
              inference_4_in_6_out infer_env_ok [1; 2; 3; 4]
              [91; 92; 93; 94; 95; 96]
              eq_refl eq_refl eq_refl eq_refl eq_refl)
    as (data & Hd & Hl & _).
  exists data. split; [exact Hd|exact Hl].
Defined.

(** What [copy_to_user] has written is a prefix of what it was given. *)
Lemma copy_to_user_prefix (from : list Z) (left : Z) :
  copy_to_user from left `prefix_of` from.
Proof.
  unfold copy_to_user.
  exists (drop (length from - Z.to_nat left) from). by rewrite take_drop.
Qed.

(** X18.  [ai_ioctl_submit_inference] counts an inference only when it
    returns 0: then both sizes are between 1 byte and 16 MiB, the batch size
    between 1 and 64, and the context counters grow by one inference and by
    input_size + output_size bytes.  On every error return the counters are
    unchanged, but the caller's memory need not be.  Output bytes have
    reached the caller when the call got as far as the output copy: they are
    a prefix of the kernel's output buffer, cut where that copy faulted, and
    the whole of it when the step that failed is the final copy of the
    result.  The request block is as before unless that final copy is the
    failing step; then it is whatever the faulting copy left. *)
Theorem submit_inference_counts_only_success (ctx : ai_ioctl_context)
    (arg : ai_accel_inference) (env : infer_env) :
  0 <= aif_input_size arg → 0 <= aif_output_size arg →
  0 <= aif_batch_size arg →
  let r := ai_ioctl_submit_inference ctx arg env in
  let n := Z.min (aif_input_size arg) (aif_output_size arg) in
  (r.1.1.1 = 0
   ∧ 1 <= aif_input_size arg <= MAX_IO_SIZE
   ∧ 1 <= aif_output_size arg <= MAX_IO_SIZE
   ∧ 1 <= aif_batch_size arg <= 64
   ∧ ctx_total_inferences r.1.1.2 = (ctx_total_inferences ctx + 1) mod 2 ^ 64
   ∧ ctx_total_bytes_transferred r.1.1.2
     = (ctx_total_bytes_transferred ctx
        + (aif_input_size arg + aif_output_size arg)) mod 2 ^ 64)
  ∨ (r.1.1.1 < 0 ∧ r.1.1.2 = ctx
     ∧ (r.1.2 = arg
        ∨ (ne_copy_output_left env = 0 ∧ ne_copy_result_ok env = false
           ∧ r.1.2 = ne_result_fault env))
     ∧ (r.2 = None
        ∨ ∃ stale input data,
            ne_output_alloc env = Some stale
            ∧ ne_user_input env = Some input
            ∧ (ne_copy_output_left env ≠ 0 ∨ ne_copy_result_ok env = false)
            ∧ r.2 = Some data
            ∧ data `prefix_of` memcpy stale input n
            ∧ (ne_copy_output_left env = 0 → data = memcpy stale input n))).
Proof.
  intros Hi Ho Hb.
  assert (Hearly : ∀ e : Z, e < 0 →
            let r := (e, ctx, arg, @None (list Z)) in
            r.1.1.1 < 0 ∧ r.1.1.2 = ctx
            ∧ (r.1.2 = arg
               ∨ (ne_copy_output_left env = 0 ∧ ne_copy_result_ok env = false
                  ∧ r.1.2 = ne_result_fault env))
            ∧ (r.2 = None
               ∨ ∃ stale input data,
                   ne_output_alloc env = Some stale
                   ∧ ne_user_input env = Some input
                   ∧ (ne_copy_output_left env ≠ 0
                      ∨ ne_copy_result_ok env = false)
                   ∧ r.2 = Some data
                   ∧ data `prefix_of`
                       memcpy stale input
                         (Z.min (aif_input_size arg) (aif_output_size arg))
                   ∧ (ne_copy_output_left env = 0 →
                      data = memcpy stale input
                               (Z.min (aif_input_size arg)
                                      (aif_output_size arg))))).
  { intros e He. simpl. split; [done|]. split; [done|]. split; by left. }
  unfold ai_ioctl_submit_inference.
  destruct (negb (ne_copy_from_user_ok env)); [right; by apply Hearly|].
  destruct (aif_input_size arg =? 0) eqn:Hi0; [right; by apply Hearly|].
  destruct (MAX_IO_SIZE <? aif_input_size arg) eqn:Hi1;
    [right; by apply Hearly|].
  destruct (aif_output_size arg =? 0) eqn:Ho0; [right; by apply Hearly|].
  destruct (MAX_IO_SIZE <? aif_output_size arg) eqn:Ho1;
    [right; by apply Hearly|].
  destruct (aif_batch_size arg =? 0) eqn:Hb0; [right; by apply Hearly|].
  destruct (64 <? aif_batch_size arg) eqn:Hb1; [right; by apply Hearly|].
  simpl.
  destruct (negb (ne_input_alloc_ok env)); [right; by apply Hearly|].
  destruct (ne_output_alloc env) as [stale|]; [|right; by apply Hearly].
  destruct (ne_user_input env) as [input|]; [|right; by apply Hearly].
  destruct (ne_copy_output_left env =? 0) eqn:Hleft; simpl.
  2:{ apply Z.eqb_neq in Hleft. right.
      split; [done|]. split; [done|]. split; [by left|].
      right. eexists stale, input, _.
      split; [done|]. split; [done|]. split; [by left|].
      split; [reflexivity|]. split; [apply copy_to_user_prefix|done]. }
  apply Z.eqb_eq in Hleft.
  destruct (ne_copy_result_ok env); simpl.
  2:{ right. split; [done|]. split; [done|]. split; [by right|].
      right. eexists stale, input, _.
      split; [done|]. split; [done|]. split; [by right|].
      split; [reflexivity|]. split; [apply copy_to_user_prefix|].
      intros _. rewrite Hleft. unfold copy_to_user.
      change (Z.to_nat 0) with 0%nat. by rewrite Nat.sub_0_r, firstn_all. }
  left. apply Z.eqb_neq in Hi0, Ho0, Hb0.
  apply Z.ltb_ge in Hi1, Ho1, Hb1.
  split; [done|]. unfold wrap_u64. rewrite Zplus_mod_idemp_r.
  repeat split; try done; lia.
Qed.

Lemma submit_inference_counts_only_success_witness :
  let r := ai_ioctl_submit_inference
             {| ctx_total_inferences := 0; ctx_total_bytes_transferred := 0 |}
             inference_4_in_6_out infer_env_output_fault in
  (r.1.1.1 = - EFAULT ∧ r.2 = Some [1; 2; 3; 4])
  ∧ ((r.1.1.1 = 0
      ∧ 1 <= 4 <= MAX_IO_SIZE ∧ 1 <= 6 <= MAX_IO_SIZE ∧ 1 <= 1 <= 64
      ∧ ctx_total_inferences r.1.1.2 = (0 + 1) mod 2 ^ 64
      ∧ ctx_total_bytes_transferred r.1.1.2 = (0 + (4 + 6)) mod 2 ^ 64)
     ∨ (r.1.1.1 < 0
        ∧ r.1.1.2
          = {| ctx_total_inferences := 0; ctx_total_bytes_transferred := 0 |}
        ∧ (r.1.2 = inference_4_in_6_out
           ∨ (2 = 0 ∧ true = false ∧ r.1.2 = inference_4_in_6_out))
        ∧ (r.2 = None
           ∨ ∃ stale input data,
               Some [91; 92; 93; 94; 95; 96] = Some stale
               ∧ Some [1; 2; 3; 4] = Some input
               ∧ (2 ≠ 0 ∨ true = false)
               ∧ r.2 = Some data
               ∧ data `prefix_of` memcpy stale input (Z.min 4 6)
               ∧ (2 = 0 → data = memcpy stale input (Z.min 4 6))))).
Proof.
  split; [split; vm_compute; reflexivity|].
  apply (submit_inference_counts_only_success
           {| ctx_total_inferences := 0; ctx_total_bytes_transferred := 0 |}
           inference_4_in_6_out infer_env_output_fault); simpl; lia.
Defined.

End IoctlExtra.

(** ** driver/ai_dma.c: pool set-up and teardown, transfer bookkeeping *)

Module DmaExtra.
Import Errno CInt Dma DmaMore Scenario Channels.

Lemma default_None_mjoin {A} (o : option (option A)) :
  default None o = mjoin o.
Proof. by destruct o as [[?|]|]. Qed.

(** X19.  After [ai_dma_init] the free channels are exactly the slots for
    which [dma_request_channel] returned a channel; the call returns
    [-ENODEV] when that list is empty and 0 otherwise, the bitmap uses only
    its four low bits, the table has four slots and nothing is in flight. *)
Theorem dma_init_marks_granted_channels (granted : list (option Z)) :
  let r := ai_dma_init granted in
  free_channels r.2
  = filter (λ i, is_Some (mjoin (granted !! i))) (seq 0 AI_DMA_CHANNELS)
  ∧ r.1 = (if decide (free_channels r.2 = []) then - ENODEV else 0)
  ∧ 0 <= channel_bitmap r.2 < 16
  ∧ length (dma_channels r.2) = AI_DMA_CHANNELS
  ∧ in_flight r.2 = [].
Proof.
  unfold ai_dma_init, free_channels, channel_usable. simpl fmap. simpl foldl.
  simpl snd. simpl fst. cbn [seq AI_DMA_CHANNELS].
  rewrite !default_None_mjoin.
  rewrite !(filter_cons (λ i, is_Some (mjoin (granted !! i)))), !filter_nil.
  destruct (mjoin (granted !! 0%nat)) as [c0|];
    destruct (mjoin (granted !! 1%nat)) as [c1|];
    destruct (mjoin (granted !! 2%nat)) as [c2|];
    destruct (mjoin (granted !! 3%nat)) as [c3|];
    (split; [vm_compute; reflexivity|]);
    (split; [vm_compute; reflexivity|]);
    (split; [vm_compute; split; [discriminate|reflexivity]|]);
    split; reflexivity.
Qed.

(** A pool whose bitmap is 0 offers no channel. *)
Lemma no_channel_without_bits p : ∀ n i,
  channel_bitmap p = 0 → find_channel_from p i n = None.
Proof.
  induction n as [|n IH]; intros i Hb; simpl; [done|].
  unfold test_bit. rewrite Hb, Z.testbit_0_l. by apply IH.
Qed.

Lemma no_free_channel_without_bits p (l : list nat) :
  channel_bitmap p = 0 → filter (channel_usable p) l = [].
Proof.
  intros Hb. induction l as [|i l IH]; [done|].
  rewrite filter_cons. destruct (decide (channel_usable p i)) as [[Ht _]|_];
    [|done].
  unfold test_bit in Ht. rewrite Hb, Z.testbit_0_l in Ht. done.
Qed.

Lemma exit_clears_slots (chans : list (option Z)) :
  foldl (λ cs i, <[i := None]> cs)
        (foldl (λ cs i, <[i := None]> cs) chans (seq 0 AI_DMA_CHANNELS))
        (seq 0 AI_DMA_CHANNELS)
  = foldl (λ cs i, <[i := None]> cs) chans (seq 0 AI_DMA_CHANNELS).
Proof. by destruct chans as [|a [|b [|c [|d l]]]]. Qed.

(** X20.  After [ai_dma_exit] the pool offers no channel: every
    synchronous and asynchronous transfer fails with [-ENODEV] and leaves
    the pool as it is, whatever the engine would have answered; a second
    [ai_dma_exit] changes nothing. *)
Theorem no_transfer_after_exit (p : dma_pool) (env : sync_env)
    (prep_ok : bool) (cookie : Z) :
  let q := ai_dma_exit p in
  free_channels q = []
  ∧ ai_dma_transfer_sync q env = (- ENODEV, q)
  ∧ ai_dma_transfer_async q prep_ok cookie = (- ENODEV, q)
  ∧ ai_dma_exit q = q.
Proof.
  intros q.
  assert (Hfind : find_channel q = None).
  { unfold find_channel. by apply no_channel_without_bits. }
  split; [by apply no_free_channel_without_bits|].
  unfold ai_dma_transfer_sync, ai_dma_transfer_async. rewrite Hfind.
  split; [done|]. split; [done|].
  unfold q, ai_dma_exit. simpl. f_equal. apply exit_clears_slots.
Qed.

Lemma filter_out_appended {A} `{EqDecision A} (l : list A) (x : A) :
  x ∉ l → filter (λ d, d ≠ x) (l ++ [x]) = l.
Proof.
  intros Hx. rewrite filter_app.
  rewrite (filter_cons_False (λ d, d ≠ x)) by (by intros ?).
  rewrite filter_nil, app_nil_r.
  induction l as [|y l IH]; [done|].
  apply not_elem_of_cons in Hx as [Hne Hx].
  rewrite filter_cons_True by done. f_equal. by apply IH.
Qed.

(** X21.  A synchronous transfer that completes in time returns 0 and
    leaves pool and engine as it found them: the bitmap and the channel
    table are untouched and its descriptor is no longer in flight (the
    cookie being one the engine had not in flight before). *)
Theorem completed_sync_transfer_leaves_no_trace (p : dma_pool)
    (env : sync_env) (i : nat) (chan : Z) :
  find_channel p = Some (i, chan) →
  se_prep_ok env = true →
  0 <= se_cookie env →
  se_completed env = true →
  (i, se_cookie env) ∉ in_flight p →
  ai_dma_transfer_sync p env = (0, p).
Proof.
  intros Hfind Hprep Hcookie Hdone Hfresh.
  unfold ai_dma_transfer_sync, dma_submit_error.
  rewrite Hfind, Hprep, Hdone. simpl.
  destruct (se_cookie env <? 0) eqn:E; [apply Z.ltb_lt in E; lia|].
  simpl. f_equal. unfold complete_one, issue. simpl.
  rewrite filter_out_appended by done. by destruct p.
Qed.

Lemma completed_sync_transfer_leaves_no_trace_witness :
  ai_dma_transfer_sync pool_ready
    {| se_prep_ok := true; se_cookie := 7; se_completed := true |}
  = (0, pool_ready).
Proof.
  apply (completed_sync_transfer_leaves_no_trace pool_ready _ 0 0x10).
  - vm_compute. reflexivity.
  - reflexivity.
  - simpl. lia.
  - reflexivity.
  - simpl. apply not_elem_of_nil.
Defined.

(** X22.  A transfer that is not issued leaves nothing behind.  If no
    channel is usable ([-ENODEV]), the descriptor cannot be prepared
    ([-ENOMEM]) or the engine rejects the submission (its negative cookie is
    returned), both transfer routines return with the pool and the engine's
    queue exactly as before. *)
Theorem unissued_transfer_changes_nothing (p : dma_pool) (env : sync_env) :
  find_channel p = None ∨ se_prep_ok env = false ∨ se_cookie env < 0 →
  let rs := ai_dma_transfer_sync p env in
  let ra := ai_dma_transfer_async p (se_prep_ok env) (se_cookie env) in
  rs.2 = p ∧ ra.2 = p
  ∧ rs.1 = ra.1
  ∧ rs.1 = (if decide (find_channel p = None) then - ENODEV
            else if se_prep_ok env then se_cookie env else - ENOMEM)
  ∧ rs.1 < 0.
Proof.
  intros Hwhy. unfold ai_dma_transfer_sync, ai_dma_transfer_async,
    dma_submit_error.
  destruct (find_channel p) as [[i chan]|] eqn:Hfind.
  - rewrite decide_False by done.
    destruct (se_prep_ok env) eqn:Hprep; simpl.
    + destruct Hwhy as [?|[?|Hneg]]; [done|done|].
      destruct (se_cookie env <? 0) eqn:E; [|apply Z.ltb_ge in E; lia].
      destruct (se_cookie env =? 0) eqn:E0; [apply Z.eqb_eq in E0; lia|].
      simpl. done.
    + unfold ENOMEM. repeat split; lia.
  - rewrite decide_True by done. simpl. unfold ENODEV. repeat split; lia.
Qed.

Lemma unissued_transfer_changes_nothing_witness :
  (ai_dma_transfer_sync pool_ready
     {| se_prep_ok := true; se_cookie := -5; se_completed := false |}).2
  = pool_ready
  ∧ (ai_dma_transfer_sync pool_ready
       {| se_prep_ok := true; se_cookie := -5; se_completed := false |}).1
    = -5.
Proof.
  pose proof (unissued_transfer_changes_nothing pool_ready
                {| se_prep_ok := true; se_cookie := -5;
                   se_completed := false |}
                (or_intror (or_intror eq_refl))) as Hx.
  split; [apply Hx|]. vm_compute. reflexivity.
Defined.

(** X23.  A timeout does not only stop the transfer that timed out.  Since
    every transfer is queued on the same lowest usable channel and
    [dmaengine_terminate_sync] aborts the whole channel, an asynchronous
    transfer that was issued earlier and is still in flight is aborted by a
    later synchronous transfer that times out; descriptors on other channels
    are kept. *)
Theorem sync_timeout_aborts_earlier_async (p : dma_pool) (env : sync_env)
    (cookie : Z) (i : nat) (chan : Z) :
  find_channel p = Some (i, chan) →
  0 <= cookie →
  se_prep_ok env = true → 0 <= se_cookie env → se_completed env = false →
  let ra := ai_dma_transfer_async p true cookie in
  let rs := ai_dma_transfer_sync ra.2 env in
  ra.1 = cookie
  ∧ ((i, cookie) ∈ in_flight ra.2)
  ∧ rs.1 = - ETIMEDOUT
  ∧ ((i, cookie) ∉ in_flight rs.2)
  ∧ in_flight rs.2 = filter (λ d, d.1 ≠ i) (in_flight p).
Proof.
  intros Hfind Hc Hprep Hsc Hto ra rs.
  assert (Hra : ra = (cookie, issue i cookie p)).
  { unfold ra, ai_dma_transfer_async, dma_submit_error. rewrite Hfind. simpl.
    destruct (cookie <? 0) eqn:E; [apply Z.ltb_lt in E; lia|]. done. }
  assert (Hfind' : find_channel ra.2 = Some (i, chan)).
  { rewrite Hra. simpl. rewrite <- Hfind. by apply find_channel_ext. }
  assert (Hrs : rs = (- ETIMEDOUT,
                      dmaengine_terminate_sync i
                        (issue i (se_cookie env) ra.2))).
  { unfold rs, ai_dma_transfer_sync, dma_submit_error.
    rewrite Hfind', Hprep, Hto. simpl.
    destruct (se_cookie env <? 0) eqn:E; [apply Z.ltb_lt in E; lia|]. done. }
  rewrite Hrs, Hra. simpl.
  split; [done|]. split; [apply elem_of_app; right; apply list_elem_of_singleton; done|].
  split; [done|]. split.
  - intros Hin. apply list_elem_of_filter in Hin as [Hne _]. done.
  - rewrite !filter_app.
    rewrite (filter_cons_False _ (i, cookie)) by (simpl; by intros ?).
    rewrite (filter_cons_False _ (i, se_cookie env)) by (simpl; by intros ?).
    by rewrite !filter_nil, !app_nil_r.
Qed.

Lemma sync_timeout_aborts_earlier_async_witness :
  in_flight (ai_dma_transfer_sync
               (ai_dma_transfer_async pool_ready true 3).2
               sync_env_timeout).2
  = filter (λ d, d.1 ≠ 0%nat) (in_flight pool_ready)
  ∧ in_flight (ai_dma_transfer_async pool_ready true 3).2 = [(0%nat, 3)].
Proof.
  split; [|vm_compute; reflexivity].
  apply (sync_timeout_aborts_earlier_async pool_ready sync_env_timeout 3 0
           0x10).
  - vm_compute. reflexivity.
  - lia.
  - reflexivity.
  - simpl. lia.
  - reflexivity.
Defined.

End DmaExtra.

(** ** driver/ai_dma.c: buffers, mappings and their release *)

Module BufferExtra.
Import Errno CInt Dma DmaMore Scenario CIntFacts Scatter.





(** What a successful [ai_dma_map_user_buffer] returns and leaves. *)
Lemma map_user_buffer_success user_addr size dir env k buf :
  (ai_dma_map_user_buffer user_addr size dir env k).1 = inr buf →
  let n := nr_pages_of user_addr size in
  let b := fresh (live k) in
  let pp := fresh ({[ b ]} ∪ live k) in
  let sg := fresh ({[ pp ]} ∪ ({[ b ]} ∪ live k)) in
  0 <= n <= me_pin_answer env
  ∧ me_map_sg env ≠ 0
  ∧ buf = {| dbuf_self := b; dbuf_size := size; dbuf_dir := dir;
             dbuf_sg_ptr := sg;
             dbuf_sg := fill_sg user_addr size 0 (region_pages user_addr n);
             dbuf_sg_count := me_map_sg env; dbuf_mapped := true |}
  ∧ (ai_dma_map_user_buffer user_addr size dir env k).2
    = {| live := ({[ sg ]} ∪ ({[ pp ]} ∪ ({[ b ]} ∪ live k))) ∖ {[ pp ]};
         pinned := pinned k ⊎ list_to_set_disj (region_pages user_addr n) |}.
Proof.
  unfold ai_dma_map_user_buffer, kbind, kret, kalloc, kfree,
    pin_user_pages_fast, unpin_user_pages, region_pages.
  generalize (nr_pages_of user_addr size). intros n.
  destruct (me_kzalloc_ok env); [|done].
  destruct (me_pages_ok env); simpl; [|done].
  destruct (me_pin_answer env <? 0) eqn:Hneg; simpl.
  { rewrite Hneg. done. }
  apply Z.ltb_ge in Hneg.
  destruct (Z.min (me_pin_answer env) (Z.max n 0) <? 0) eqn:Hret; simpl;
    [done|].
  destruct (Z.min (me_pin_answer env) (Z.max n 0) =? n) eqn:Hall; simpl;
    [|done].
  apply Z.eqb_eq in Hall.
  destruct (me_sg_ok env); simpl; [|done].
  destruct (me_map_sg env =? 0) eqn:Hmap; simpl; [done|].
  apply Z.eqb_neq in Hmap.
  intros [= <-]. rewrite Hall.
  rewrite take_ge by (rewrite length_fmap, length_seqZ; lia).
  split; [lia|]. done.
Qed.





(** X26.  [ai_dma_alloc_buffer] and [ai_dma_free_buffer] are inverse on
    kernel memory.  A failed allocation returns NULL with the memory state
    unchanged (a descriptor whose coherent memory could not be had is freed
    again); a successful one yields an unmapped descriptor with the requested
    size and direction, holding two new allocations, and freeing it restores
    the memory state exactly.  Freeing NULL does nothing. *)
Theorem coherent_buffer_round_trip (size : Z) (dir : dma_data_direction)
    (kzalloc_ok coherent_ok : bool) (dma_addr : Z) (k : kmem) :
  let r := ai_dma_alloc_buffer size dir kzalloc_ok coherent_ok dma_addr k in
  match r.1 with
  | None => (kzalloc_ok && coherent_ok = false) ∧ r.2 = k
  | Some d =>
      (kzalloc_ok && coherent_ok = true)
      ∧ dd_size d = size ∧ dd_dir d = dir ∧ dd_dma_addr d = dma_addr
      ∧ dd_mapped d = false ∧ dd_sg d = None
      ∧ (∃ cpu, dd_cpu_addr d = Some cpu ∧ cpu ≠ dd_self d
                ∧ (dd_self d ∉ live k) ∧ (cpu ∉ live k)
                ∧ live r.2 = {[ dd_self d; cpu ]} ∪ live k)
      ∧ pinned r.2 = pinned k
      ∧ (ai_dma_free_buffer (Some d) r.2).2 = k
  end
  ∧ ai_dma_free_buffer None k = (tt, k).
Proof.
  unfold ai_dma_alloc_buffer, ai_dma_free_buffer, kbind, kret, kalloc, kfree.
  destruct kzalloc_ok, coherent_ok; simpl; try (split; [split|]; done).
  - split; [|done].
    pose proof (is_fresh (live k)) as Hb.
    pose proof (is_fresh ({[ fresh (live k) ]} ∪ live k)) as Hc.
    rewrite elem_of_union, elem_of_singleton in Hc.
    repeat (split; [done|]). split.
    { eexists. split; [done|]. split; [tauto|]. split; [done|].
      split; [tauto|].
      apply set_eq. intros x.
      rewrite !elem_of_union, !elem_of_singleton. tauto. }
    split; [done|].
    rewrite !live_release. apply kmem_eta.
  - split; [|done]. split; [done|].
    rewrite live_release. apply kmem_eta.
Qed.

(** X27.  The cache-sync routines act on mapped buffers only, and the
    module marks only user mappings as mapped.  A descriptor from
    [ai_dma_alloc_buffer] is skipped by both routines; a descriptor from
    [ai_dma_map_user_buffer] is synced through its segment list, with the
    entry count [dma_map_sg] returned and the mapping's direction; NULL is
    skipped. *)
Theorem sync_only_touches_user_mappings (size : Z) (dir : dma_data_direction)
    (kzalloc_ok coherent_ok : bool) (dma_addr : Z) (user_addr : Z)
    (env : map_env) (k : kmem) :
  match (ai_dma_alloc_buffer size dir kzalloc_ok coherent_ok dma_addr k).1 with
  | Some d =>
      ai_dma_sync_for_cpu (Some d) = SyncNothing
      ∧ ai_dma_sync_for_device (Some d) = SyncNothing
  | None => True
  end
  ∧ match (ai_dma_map_user_buffer user_addr size dir env k).1 with
    | inr buf =>
        ai_dma_sync_for_cpu (Some (desc_of_mapped buf))
        = SyncSg (dbuf_sg_ptr buf) (me_map_sg env) dir
        ∧ ai_dma_sync_for_device (Some (desc_of_mapped buf))
          = SyncSg (dbuf_sg_ptr buf) (me_map_sg env) dir
    | inl _ => True
    end
  ∧ ai_dma_sync_for_cpu None = SyncNothing
  ∧ ai_dma_sync_for_device None = SyncNothing.
Proof.
  split; [|split; [|done]].
  - unfold ai_dma_alloc_buffer, kbind, kret, kalloc, kfree.
    destruct kzalloc_ok, coherent_ok; simpl; done.
  - destruct (ai_dma_map_user_buffer user_addr size dir env k).1
      as [e|buf] eqn:Hok; [done|].
    destruct (map_user_buffer_success _ _ _ _ _ _ Hok) as (_ & _ & -> & _).
    done.
Qed.

Lemma fill_sg_within_pages (user_addr size : Z) (pages : list Z) : ∀ i,
  0 < size → size + offset_in_page user_addr < 2 ^ 63 → 0 <= i →
  (i + Z.of_nat (length pages) - 1) * 4096 < size + offset_in_page user_addr →
  Forall within_page (fill_sg user_addr size i pages).
Proof.
  pose proof (offset_in_page_range user_addr) as Hoff.
  induction pages as [|page rest IH]; intros i Hsize Hbound Hi Hlast; simpl;
    constructor.
  - simpl length in Hlast.
    destruct (decide (i = 0)) as [->|Hne].
    + rewrite sg_entry_first by done. unfold within_page. simpl. lia.
    + rewrite sg_entry_later by lia. unfold within_page. simpl. lia.
  - apply IH; try done; [lia|]. simpl length in Hlast. lia.
Qed.

(** X28.  The segment list of a successful mapping is well formed whenever
    the region's page count fits the [int] it is computed in: every segment
    is non-empty and ends inside its page, only the first segment has a page
    offset (that of [user_addr]), and the lengths cover at least the
    requested size.  They sum to exactly the requested size when the region
    starts on a page boundary or reaches the end of its first page. *)
Theorem mapped_segments_well_formed (user_addr size : Z)
    (dir : dma_data_direction) (env : map_env) (k : kmem)
    (buf : ai_dma_buffer) :
  0 < size → size + offset_in_page user_addr < 2 ^ 43 - 4096 →
  (ai_dma_map_user_buffer user_addr size dir env k).1 = inr buf →
  Forall within_page (dbuf_sg buf)
  ∧ (sg_offset <$> head (dbuf_sg buf)) = Some (offset_in_page user_addr)
  ∧ Forall (λ e, sg_offset e = 0) (tail (dbuf_sg buf))
  ∧ size <= sg_total (dbuf_sg buf)
  ∧ (offset_in_page user_addr = 0 ∨ 4096 - offset_in_page user_addr <= size →
     sg_total (dbuf_sg buf) = size).
Proof.
  intros Hsize Hbound Hok.
  pose proof (offset_in_page_range user_addr) as Hoff.
  destruct (map_user_buffer_success _ _ _ _ _ _ Hok) as (Hn & _ & -> & _).
  simpl.
  assert (Hlen : length (region_pages user_addr (nr_pages_of user_addr size))
                 = Z.to_nat (nr_pages_of user_addr size)).
  { unfold region_pages. by rewrite length_fmap, length_seqZ. }
  pose proof (nr_pages_of_small user_addr size Hsize Hbound) as Hnr.
  assert (Hk : 4096 * ((size + offset_in_page user_addr + 4095) / 4096)
               <= size + offset_in_page user_addr + 4095).
  { apply Z.mul_div_le. lia. }
  assert (Hpos : 1 <= nr_pages_of user_addr size).
  { rewrite Hnr. apply Z.div_le_lower_bound; lia. }
  split; [|split; [|split; [|split]]].
  - apply fill_sg_within_pages; try done; [lia|]. rewrite Hlen, Hnr. lia.
  - destruct (region_pages user_addr (nr_pages_of user_addr size))
      as [|pg rest] eqn:Hpages; [simpl in Hlen; lia|].
    change (Some (sg_offset (sg_entry user_addr size 0 pg))
            = Some (offset_in_page user_addr)).
    by rewrite sg_entry_first by (done || lia).
  - destruct (region_pages user_addr (nr_pages_of user_addr size))
      as [|pg rest]; simpl; [constructor|].
    by apply fill_sg_later_offsets.
  - rewrite sg_total_formula by done. lia.
  - intros Hfill. by apply sg_total_exact.
Qed.

Lemma mapped_segments_well_formed_witness :
  sg_total
    (dbuf_sg {| dbuf_self := 6%N; dbuf_size := 10000;
                dbuf_dir := DMA_TO_DEVICE; dbuf_sg_ptr := 8%N;
                dbuf_sg := fill_sg 4196 10000 0 [1; 2; 3];
                dbuf_sg_count := 3; dbuf_mapped := true |}) = 10000.
Proof.
  refine (proj2 (proj2 (proj2 (proj2
    (mapped_segments_well_formed 4196 10000 DMA_TO_DEVICE (map_env_of 3 3)
       kmem_busy _ _ _ _)))) _).
  - lia.
  - vm_compute. reflexivity.
  - vm_compute. reflexivity.
  - right. vm_compute. discriminate.
Defined.

End BufferExtra.

(** ** The allocating handlers: kernel memory and the user's block *)

Module KernelMemExtra.
Import Errno CInt Idr Accel Ioctl Dma Scenario CIntFacts IdrFacts AccelFacts
  Scatter.

(** Two allocations made one after the other are distinct, were not live
    before, and are all that is added; freeing them in reverse order gives
    back the live set. *)
Lemma two_allocations (X : gset N) :
  let a := fresh X in
  let b := fresh ({[ a ]} ∪ X) in
  a ≠ b ∧ (a ∉ X) ∧ (b ∉ X)
  ∧ {[ b ]} ∪ ({[ a ]} ∪ X) = {[ a; b ]} ∪ X
  ∧ (({[ b ]} ∪ ({[ a ]} ∪ X)) ∖ {[ b ]}) ∖ {[ a ]} = X.
Proof.
  intros a b.
  pose proof (is_fresh X) as Ha. fold a in Ha.
  pose proof (is_fresh ({[ a ]} ∪ X)) as Hb. fold b in Hb.
  rewrite elem_of_union, elem_of_singleton in Hb.
  split; [intros E; apply Hb; left; by symmetry|].
  split; [done|]. split; [intros E; apply Hb; by right|].
  split.
  - apply set_eq. intros x.
    rewrite !elem_of_union, !elem_of_singleton. tauto.
  - subst a b. by rewrite !live_release.
Qed.

(** An exit with a negative return value, after everything taken was
    given back. *)
Ltac failed_exit :=
  simpl; rewrite ?live_release, ?kmem_eta;
  split; [done|];
  split; [intros H0; exfalso; revert H0; first [by vm_compute | lia]|];
  intros _; split; [done|by left].

(** [AccelMem.ai_ioctl_alloc] against [Accel.ai_ioctl_alloc]: same return
    value and device; on success the same block and two allocations more; on
    failure the memory it was entered with, and the block as it was unless
    the copy-out faulted. *)
Lemma ai_ioctl_alloc_mem simulate dev arg env fault k :
  let r := AccelMem.ai_ioctl_alloc simulate dev arg env fault k in
  let a := ai_ioctl_alloc simulate dev arg env in
  r.1.1 = a.1
  ∧ (a.1.1 = 0 →
     r.1.2 = a.2
     ∧ r.2 = {| live := {[ fresh ({[ fresh (live k) ]} ∪ live k) ]}
                        ∪ ({[ fresh (live k) ]} ∪ live k);
                pinned := pinned k |})
  ∧ (a.1.1 ≠ 0 →
     r.2 = k
     ∧ (r.1.2 = arg ∨ (ae_copy_to_user_ok env = false ∧ r.1.2 = fault))).
Proof.
  unfold AccelMem.ai_ioctl_alloc, ai_ioctl_alloc, kbind, kret, kalloc, kfree.
  destruct (negb (ae_copy_from_user_ok env)); [failed_exit|].
  destruct (_ || _); [failed_exit|].
  destruct (ae_kzalloc_ok env); simpl; [|failed_exit].
  destruct (ae_cpu_addr env =? 0); simpl; [failed_exit|].
  destruct (idr_alloc _ _ _ _ _) as [handle idr'].
  destruct (handle <? 0) eqn:Hneg; simpl.
  { apply Z.ltb_lt in Hneg. failed_exit. }
  destruct (ae_copy_to_user_ok env); simpl.
  - split; [done|]. split; [done|]. by intros [].
  - rewrite !live_release, kmem_eta.
    split; [done|]. split; [intros H0; by vm_compute in H0|].
    intros _. split; [done|]. by right.
Qed.

(** X1.  A failing [ai_ioctl_alloc] leaves nothing behind in the kernel:
    whenever it returns non-zero the value is a negative errno, the device
    is exactly as before (a handle already entered in the table is removed
    again) and so are the outstanding allocations: the descriptor and the
    backing memory taken on the way have been freed.  The caller's block is as
    before too, except when the failing step is the final copy to user
    space: that copy may have written part of the result, the new handle
    included, before it faulted. *)
Theorem alloc_failure_changes_nothing (simulate : bool) (dev : ai_device)
    (arg : ai_alloc_request) (env : alloc_env) (fault : ai_alloc_request)
    (k : kmem) :
  (AccelMem.ai_ioctl_alloc simulate dev arg env fault k).1.1.1 ≠ 0 →
  let r := AccelMem.ai_ioctl_alloc simulate dev arg env fault k in
  r.1.1.1 < 0
  ∧ r.1.1.2 = dev
  ∧ r.2 = k
  ∧ (r.1.2 = arg ∨ (ae_copy_to_user_ok env = false ∧ r.1.2 = fault)).
Proof.
  intros Hret r. subst r.
  pose proof (ai_ioctl_alloc_mem simulate dev arg env fault k) as Hm.
  cbv zeta in Hm. destruct Hm as (Hview & _ & Hfail).
  rewrite Hview in Hret |- *.
  destruct (ai_ioctl_alloc_cases simulate dev arg env)
    as [[H0 _]|(Hneg & Hdev & _)]; [done|].
  split; [done|]. split; [done|]. by apply Hfail.
Qed.

Lemma alloc_failure_changes_nothing_witness :
  let r := AccelMem.ai_ioctl_alloc true dev_ready alloc_4k
             alloc_env_copy_out_fault alloc_4k_half_written kmem_busy in
  r.1.1.1 < 0
  ∧ r.1.1.2 = dev_ready
  ∧ r.2 = kmem_busy
  ∧ (r.1.2 = alloc_4k
     ∨ (ae_copy_to_user_ok alloc_env_copy_out_fault = false
        ∧ r.1.2 = alloc_4k_half_written)).
Proof.
  apply (alloc_failure_changes_nothing true dev_ready alloc_4k
           alloc_env_copy_out_fault alloc_4k_half_written kmem_busy).
  vm_compute. discriminate.
Defined.

(** The same comparison for [ai_ioctl_load_model]. *)
Lemma ai_ioctl_load_model_mem dev arg env fault k :
  let r := AccelMem.ai_ioctl_load_model dev arg env fault k in
  let a := ai_ioctl_load_model dev arg env in
  r.1.1 = a.1
  ∧ (a.1.1 = 0 →
     r.1.2 = a.2
     ∧ r.2 = {| live := {[ fresh ({[ fresh (live k) ]} ∪ live k) ]}
                        ∪ ({[ fresh (live k) ]} ∪ live k);
                pinned := pinned k |})
  ∧ (a.1.1 ≠ 0 →
     r.2 = k
     ∧ (r.1.2 = arg ∨ (le_copy_to_user_ok env = false ∧ r.1.2 = fault))).
Proof.
  unfold AccelMem.ai_ioctl_load_model, ai_ioctl_load_model, kbind, kret,
    kalloc, kfree.
  destruct (negb (le_copy_from_user_ok env)); [failed_exit|].
  destruct (_ || _); [failed_exit|].
  destruct (le_kzalloc_ok env); simpl; [|failed_exit].
  destruct (le_vmalloc_addr env =? 0); simpl; [failed_exit|].
  destruct (le_copy_data_ok env); simpl; [|failed_exit].
  destruct (idr_alloc _ _ _ _ _) as [handle idr'].
  destruct (handle <? 0) eqn:Hneg; simpl.
  { apply Z.ltb_lt in Hneg. failed_exit. }
  destruct (le_copy_to_user_ok env); simpl.
  - split; [done|]. split; [done|]. by intros [].
  - rewrite !live_release, kmem_eta.
    split; [done|]. split; [intros H0; by vm_compute in H0|].
    intros _. split; [done|]. by right.
Qed.

(** X6.  [ai_ioctl_load_model] is all or nothing on the kernel side.  If it
    fails, the return value is a negative errno and device and kernel
    memory are exactly as before: the model descriptor and the model data
    taken on the way are freed, a handle already registered is removed.  The
    caller's block is as before unless the failing step is the final copy
    to user space, which may have written part of the result.  If it
    returns 0, the model is stored under the smallest unused positive model
    handle with the requested size and flags, all other model handles
    resolve as before, the buffer table and the fence counter are unchanged,
    and the kernel holds exactly two allocations more than before, the
    descriptor and the data. *)
Theorem load_model_all_or_nothing (dev : ai_device)
    (arg : ai_load_model_request) (env : load_env)
    (fault : ai_load_model_request) (k : kmem) :
  let r := AccelMem.ai_ioctl_load_model dev arg env fault k in
  let h := lm_model_handle r.1.2 in
  (r.1.1.1 ≠ 0 →
   r.1.1.1 < 0 ∧ r.1.1.2 = dev ∧ r.2 = k
   ∧ (r.1.2 = arg ∨ (le_copy_to_user_ok env = false ∧ r.1.2 = fault)))
  ∧ (r.1.1.1 = 0 →
     1 <= h <= INT_MAX
     ∧ model_idr dev !! h = None
     ∧ (∀ j, 1 <= j < h → is_Some (model_idr dev !! j))
     ∧ idr_find (model_idr r.1.1.2) h
       = Some {| mdl_data := le_vmalloc_addr env;
                 mdl_size := lm_model_size arg; mdl_flags := lm_flags arg |}
     ∧ (∀ h', h' ≠ h →
          idr_find (model_idr r.1.1.2) h' = idr_find (model_idr dev) h')
     ∧ buffer_idr r.1.1.2 = buffer_idr dev
     ∧ fence_counter r.1.1.2 = fence_counter dev
     ∧ (∃ m d, m ≠ d ∧ (m ∉ live k) ∧ (d ∉ live k)
               ∧ live r.2 = {[ m; d ]} ∪ live k)
     ∧ pinned r.2 = pinned k).
Proof.
  intros r h. subst h r.
  pose proof (ai_ioctl_load_model_mem dev arg env fault k) as Hm.
  cbv zeta in Hm. destruct Hm as (Hview & Hok & Hfail). split.
  - intros Hne. rewrite Hview in Hne |- *.
    destruct (ai_ioctl_load_model_cases dev arg env)
      as [[H0 _]|(Hneg & Hdev & _)]; [done|].
    split; [done|]. split; [done|]. by apply Hfail.
  - intros H0. rewrite Hview in H0 |- *.
    destruct (Hok H0) as [Hblock Hmem].
    destruct (AccelExtra.ai_ioctl_load_model_success dev arg env H0)
      as (h0 & Hr & Hfree & Hlow & Heq).
    rewrite Hblock, Hmem, Heq. simpl. unfold idr_find.
    split; [done|]. split; [done|]. split; [done|].
    split; [apply lookup_insert_eq|].
    split; [intros h' Hne; by apply lookup_insert_ne|].
    split; [done|]. split; [done|]. split; [|done].
    destruct (two_allocations (live k)) as (Hne & Ha & Hb & Hset & _).
    eexists _, _. split; [exact Hne|]. split; [exact Ha|].
    split; [exact Hb|exact Hset].
Qed.

Lemma load_model_all_or_nothing_witness :
  let r := AccelMem.ai_ioctl_load_model dev_ready load_1k
             load_env_copy_out_fault load_1k kmem_busy in
  r.1.1.1 < 0 ∧ r.1.1.2 = dev_ready ∧ r.2 = kmem_busy
  ∧ (r.1.2 = load_1k
     ∨ (le_copy_to_user_ok load_env_copy_out_fault = false
        ∧ r.1.2 = load_1k)).
Proof.
  apply (proj1 (load_model_all_or_nothing dev_ready load_1k
                  load_env_copy_out_fault load_1k kmem_busy)).
  vm_compute. discriminate.
Defined.

(** [IoctlMem.ai_ioctl_alloc_memory] against
    [Ioctl.ai_ioctl_alloc_memory]. *)
Lemma ai_ioctl_alloc_memory_mem adev arg env fault k :
  let r := IoctlMem.ai_ioctl_alloc_memory adev arg env fault k in
  let a := ai_ioctl_alloc_memory adev arg env in
  r.1.1 = a.1
  ∧ (a.1.1 = 0 →
     r.1.2 = a.2
     ∧ r.2 = {| live := {[ fresh (live k) ]} ∪ live k;
                pinned := pinned k |})
  ∧ (a.1.1 ≠ 0 →
     r.2 = k
     ∧ (r.1.2 = arg ∨ (mae_copy_to_user_ok env = false ∧ r.1.2 = fault))).
Proof.
  unfold IoctlMem.ai_ioctl_alloc_memory, ai_ioctl_alloc_memory, kbind, kret,
    kalloc, kfree.
  destruct (negb (mae_copy_from_user_ok env)); [failed_exit|].
  destruct (_ || _); [failed_exit|].
  destruct (mem_size adev <? _); [failed_exit|].
  destruct (mae_mem env =? 0); simpl; [failed_exit|].
  destruct (mae_copy_to_user_ok env); simpl.
  - split; [done|]. split; [done|]. by intros [].
  - rewrite live_release, kmem_eta.
    split; [done|]. split; [intros H0; by vm_compute in H0|].
    intros _. split; [done|]. by right.
Qed.

(** X13.  A failing [ai_ioctl_alloc_memory] charges nothing and keeps
    nothing: on every non-zero return the value is a negative errno, the
    device with its usage counter is as before, and so is the kernel memory.
    When the failure is the copy back to user space, the charge already made
    is taken off and the coherent memory is freed again; the caller's block
    may then hold part of the result (the page-aligned size, the handle),
    and is as before on every other failure. *)
Theorem alloc_memory_failure_charges_nothing (adev : ai_accel_device)
    (arg : ai_accel_mem_alloc) (env : mem_alloc_env)
    (fault : ai_accel_mem_alloc) (k : kmem) :
  (IoctlMem.ai_ioctl_alloc_memory adev arg env fault k).1.1.1 ≠ 0 →
  let r := IoctlMem.ai_ioctl_alloc_memory adev arg env fault k in
  r.1.1.1 < 0
  ∧ r.1.1.2 = adev
  ∧ r.2 = k
  ∧ (r.1.2 = arg ∨ (mae_copy_to_user_ok env = false ∧ r.1.2 = fault)).
Proof.
  intros Hret r. subst r.
  pose proof (ai_ioctl_alloc_memory_mem adev arg env fault k) as Hm.
  cbv zeta in Hm. destruct Hm as (Hview & _ & Hfail).
  rewrite Hview in Hret |- *.
  destruct (IoctlExtra.ai_ioctl_alloc_memory_cases adev arg env)
    as [[H0 _]|(Hneg & Hdev & _)]; [done|].
  split; [done|]. split; [done|]. by apply Hfail.
Qed.

Lemma alloc_memory_failure_charges_nothing_witness :
  let r := IoctlMem.ai_ioctl_alloc_memory adev_idle mem_alloc_5000
             {| mae_copy_from_user_ok := true; mae_mem := 0x30000;
                mae_dma_handle := 0x30000; mae_copy_to_user_ok := false |}
             {| ma_size := 8192; ma_handle := 0 |} kmem_busy in
  r.1.1.1 < 0
  ∧ r.1.1.2 = adev_idle
  ∧ r.2 = kmem_busy
  ∧ (r.1.2 = mem_alloc_5000
     ∨ (false = false ∧ r.1.2 = {| ma_size := 8192; ma_handle := 0 |})).
Proof.
  apply (alloc_memory_failure_charges_nothing adev_idle mem_alloc_5000
           {| mae_copy_from_user_ok := true; mae_mem := 0x30000;
              mae_dma_handle := 0x30000; mae_copy_to_user_ok := false |}
           {| ma_size := 8192; ma_handle := 0 |} kmem_busy).
  vm_compute. discriminate.
Defined.

(** X14.  [ai_ioctl_free_memory] settles the accounting and releases
    nothing.  After a successful [ai_ioctl_alloc_memory], a free that passes
    back the returned handle and the returned (page-aligned) size returns 0
    and brings the device, [mem_used] included, back to what it was before
    the allocation.  The coherent memory the allocation obtained is still
    allocated: the kernel holds one allocation more than before the two
    calls, and the same holds for any other free request, since the handler
    calls no allocator. *)
Theorem free_memory_settles_accounting_only (adev : ai_accel_device)
    (arg : ai_accel_mem_alloc) (env : mem_alloc_env)
    (fault : ai_accel_mem_alloc) (k : kmem) :
  0 <= ma_size arg → 0 <= mem_used adev →
  (IoctlMem.ai_ioctl_alloc_memory adev arg env fault k).1.1.1 = 0 →
  let a := IoctlMem.ai_ioctl_alloc_memory adev arg env fault k in
  let f := IoctlMem.ai_ioctl_free_memory a.1.1.2
             {| mf_handle := ma_handle a.1.2; mf_size := ma_size a.1.2 |}
             true a.2 in
  f.1 = (0, adev)
  ∧ (∃ mem, (mem ∉ live k) ∧ live f.2 = {[ mem ]} ∪ live k)
  ∧ size (live f.2) = S (size (live k))
  ∧ f.2 ≠ k
  ∧ (∀ mfree ok,
       (IoctlMem.ai_ioctl_free_memory a.1.1.2 mfree ok a.2).2 = a.2).
Proof.
  intros Hsize Hused Hret a f.
  pose proof (ai_ioctl_alloc_memory_mem adev arg env fault k) as Hm.
  cbv zeta in Hm. destruct Hm as (Hview & Hok & _).
  rewrite Hview in Hret.
  destruct (Hok Hret) as [Hblock Hmem]. fold a in Hview, Hblock, Hmem.
  destruct (IoctlExtra.ai_ioctl_alloc_memory_cases adev arg env)
    as [(_ & Hnz & Hmax & Hroom & Hdev & Harg)|(Hneg & _)]; [|lia].
  assert (Hf2 : ∀ mfree ok,
            (IoctlMem.ai_ioctl_free_memory a.1.1.2 mfree ok a.2).2 = a.2).
  { intros mfree ok. unfold IoctlMem.ai_ioctl_free_memory, kret.
    by destruct (negb ok). }
  assert (Hlive : live f.2 = {[ fresh (live k) ]} ∪ live k).
  { unfold f. rewrite Hf2, Hmem. done. }
  pose proof (is_fresh (live k)) as Hfresh.
  split.
  { unfold f, IoctlMem.ai_ioctl_free_memory, kret. simpl.
    rewrite Hblock, Hview, Hdev, Harg. simpl.
    destruct (_ <=? _) eqn:E; [|apply Z.leb_gt in E; lia].
    destruct adev as [sz used]. simpl. do 2 f_equal. lia. }
  split; [by eexists|].
  split.
  { rewrite Hlive. rewrite size_union.
    - rewrite size_singleton. reflexivity.
    - intros x Hx Hin. apply elem_of_singleton in Hx. by subst x. }
  split; [|exact Hf2].
  intros E. apply Hfresh.
  assert (Hin : fresh (live k) ∈ ({[ fresh (live k) ]} ∪ live k : gset N))
    by (apply elem_of_union_l; by apply elem_of_singleton).
  rewrite <- Hlive in Hin. rewrite E in Hin. exact Hin.
Qed.

Lemma free_memory_settles_accounting_only_witness :
  let a := IoctlMem.ai_ioctl_alloc_memory adev_idle mem_alloc_5000
             (mem_alloc_env_at 0x30000) mem_alloc_5000 kmem_busy in
  (IoctlMem.ai_ioctl_free_memory a.1.1.2
     {| mf_handle := ma_handle a.1.2; mf_size := ma_size a.1.2 |}
     true a.2).1 = (0, adev_idle)
  ∧ (IoctlMem.ai_ioctl_free_memory a.1.1.2
       {| mf_handle := ma_handle a.1.2; mf_size := ma_size a.1.2 |}
       true a.2).2 ≠ kmem_busy.
Proof.
  pose proof (free_memory_settles_accounting_only adev_idle mem_alloc_5000
                (mem_alloc_env_at 0x30000) mem_alloc_5000 kmem_busy) as Hx.
  assert (H1 : 0 <= ma_size mem_alloc_5000) by (simpl; lia).
  assert (H2 : 0 <= mem_used adev_idle) by (simpl; lia).
  assert (H3 : (IoctlMem.ai_ioctl_alloc_memory adev_idle mem_alloc_5000
                  (mem_alloc_env_at 0x30000) mem_alloc_5000
                  kmem_busy).1.1.1 = 0) by (vm_compute; reflexivity).
  specialize (Hx H1 H2 H3). split; apply Hx.
Defined.

End KernelMemExtra.
